(** * IBC Tendermint light client: header validity check and state update

    Shallow embedding of [x/ibc/07-tendermint/update.go]
    ([CheckValidityAndUpdateState], [checkValidity], [update]) and the
    properties of the client state machine that rest on it.

    Layout: Go's [time] values, the protobuf header types, the client
    types, the SDK error values, the Tendermint library as an interface,
    a small monad that logs every call into that library, the three
    functions of [update.go], then the theorems. *)

From Stdlib Require Import ZArith List String Bool Lia.
From Stdlib Require Import Strings.Byte.
Import ListNotations.
Open Scope Z_scope.

(** ** Go's [time.Time] and [time.Duration] *)

Module GoTime.

(** [time.Duration]: a signed 64-bit count of nanoseconds. *)
Definition Duration := Z.
Definition minDuration : Duration := - 2 ^ 63.
Definition maxDuration : Duration := 2 ^ 63 - 1.
Definition Nanosecond : Duration := 1.
Definition Second : Duration := 1000000000.

(** The values a [Duration] variable can hold. *)
Definition isDuration (d : Z) : Prop := minDuration <= d <= maxDuration.

(** [time.Time] read from a protobuf timestamp: a wall-clock instant
    without monotonic reading, kept as nanoseconds since the Unix
    epoch.  Go's range of instants is far wider than 64 bits of
    nanoseconds, which is why [Sub] saturates. *)
Definition Time := Z.

Definition saturate (d : Z) : Duration :=
  if d <? minDuration then minDuration
  else if maxDuration <? d then maxDuration
  else d.

(** [t.Sub(u)]: the duration t-u, or the minimum (maximum) duration when
    t-u does not fit. *)
Definition Sub (t u : Time) : Duration := saturate (t - u).

(** [t.Add(d)]. *)
Definition Add (t : Time) (d : Duration) : Time := t + d.

(** [t.Unix()]: whole seconds since the epoch, rounded down. *)
Definition Unix (t : Time) : Z := t / Second.

End GoTime.

Definition bytes := list byte.

(** ** Protobuf header types ([tendermint/proto/types]) *)

Module tmproto.

Record PartSetHeader := {
  psh_Total : Z;
  psh_Hash : bytes
}.

Record BlockID := {
  bid_Hash : bytes;
  bid_PartsHeader : PartSetHeader
}.

Record CommitSig := {
  BlockIdFlag : Z;
  ValidatorAddress : bytes;
  Timestamp : GoTime.Time;
  Signature : bytes
}.

Record BitArray := {
  Bits : Z;
  Elems : list Z
}.

Record Commit := {
  commit_Height : Z;
  commit_Round : Z;
  commit_BlockID : BlockID;
  Signatures : list CommitSig;
  commit_Hash : bytes;
  commit_BitArray : option BitArray
}.

Record Header := {
  Version : Z * Z;
  ChainID : string;
  Height : Z;
  Time : GoTime.Time;
  LastBlockID : BlockID;
  LastCommitHash : bytes;
  DataHash : bytes;
  ValidatorsHash : bytes;
  NextValidatorsHash : bytes;
  ConsensusHash : bytes;
  AppHash : bytes;
  LastResultsHash : bytes;
  EvidenceHash : bytes;
  ProposerAddress : bytes
}.

(** [Header] and [Commit] are pointers in Go.  The accessors
    [GetHeight] and [GetTime] read through the header pointer, so a
    header the validity check can look at has it set; the commit is
    only handed on to the library. *)
Record SignedHeader := {
  sh_Header : Header;
  sh_Commit : option Commit
}.

Record Validator := {
  Address : bytes;
  PubKey : bytes;
  VotingPower : Z
}.

Record ValidatorSet := {
  Validators : list Validator;
  Proposer : option Validator
}.

End tmproto.

(** ** Client types ([x/ibc/07-tendermint/types]) *)

Module types.

Record Fraction := {
  Numerator : Z;
  Denominator : Z
}.

(** The update payload: [Header{SignedHeader: ..., ValidatorSet: ...}]
    as [CreateTestHeader] builds it and [update.go] reads it;
    [ValidatorSet] is a pointer. *)
Record Header := {
  SignedHeader : tmproto.SignedHeader;
  ValidatorSet : option tmproto.ValidatorSet
}.

(** Modelled from the spec: the accessors of [Header], declared in
    another file of the package; the candidate's height and timestamp are
    those of its signed header. *)
Definition GetHeight (h : Header) : Z :=
  tmproto.Height (tmproto.sh_Header (SignedHeader h)).

Definition GetTime (h : Header) : GoTime.Time :=
  tmproto.Time (tmproto.sh_Header (SignedHeader h)).

(** Modelled from the spec: the declaration of [ClientState], which is
    in another file of the package.  [TrustLevel], [TrustingPeriod], [MaxClockDrift]
    and [LastHeader] are the fields [update.go] reads; [ChainID],
    [UnbondingPeriod] and [Frozen] are the spec's [chain_id],
    [unbonding_period] and [frozen]. *)
Record ClientState := {
  ChainID : string;
  TrustLevel : Fraction;
  TrustingPeriod : GoTime.Duration;
  UnbondingPeriod : GoTime.Duration;
  MaxClockDrift : GoTime.Duration;
  LastHeader : Header;
  Frozen : bool
}.

(** Modelled from the spec: the accessors of [ClientState]; the latest
    height and timestamp are those of [latest_header]. *)
Definition GetChainID (cs : ClientState) : string := ChainID cs.
Definition GetLatestHeight (cs : ClientState) : Z := GetHeight (LastHeader cs).
Definition GetLatestTimestamp (cs : ClientState) : GoTime.Time :=
  GetTime (LastHeader cs).

(** [commitmenttypes.MerkleRoot]. *)
Record MerkleRoot := {
  Hash : bytes
}.

Definition NewMerkleRoot (hash : bytes) : MerkleRoot := {| Hash := hash |}.

(** The fields [update] fills in. *)
Record ConsensusState := {
  cons_Height : Z;
  cons_Timestamp : GoTime.Time;
  cons_Root : MerkleRoot;
  cons_ValidatorSet : option tmproto.ValidatorSet
}.

(** [clientState.LastHeader = header] on the by-value copy. *)
Definition set_LastHeader (cs : ClientState) (h : Header) : ClientState :=
  {| ChainID := ChainID cs;
     TrustLevel := TrustLevel cs;
     TrustingPeriod := TrustingPeriod cs;
     UnbondingPeriod := UnbondingPeriod cs;
     MaxClockDrift := MaxClockDrift cs;
     LastHeader := h;
     Frozen := Frozen cs |}.

(** The client state with its [frozen] flag set to [b]. *)
Definition set_Frozen (cs : ClientState) (b : bool) : ClientState :=
  {| ChainID := ChainID cs;
     TrustLevel := TrustLevel cs;
     TrustingPeriod := TrustingPeriod cs;
     UnbondingPeriod := UnbondingPeriod cs;
     MaxClockDrift := MaxClockDrift cs;
     LastHeader := LastHeader cs;
     Frozen := b |}.

End types.

(** ** The interfaces of [x/ibc/02-client/exported]

  A value of interface type is nil, a Tendermint value, or a value of
  some other client family, of which only the Go type name is seen
  (by [%T]). *)

Module exported.

Inductive ClientState :=
| NilClientState
| TendermintClientState (cs : types.ClientState)
| OtherClientState (goType : string).

Inductive Header :=
| NilHeader
| TendermintHeader (h : types.Header)
| OtherHeader (goType : string).

Inductive ConsensusState :=
| NilConsensusState
| TendermintConsensusState (c : types.ConsensusState).

(** What [%T] prints. *)
Definition TypeOfClientState (c : ClientState) : string :=
  match c with
  | NilClientState => "<nil>"
  | TendermintClientState _ => "types.ClientState"
  | OtherClientState t => t
  end.

Definition TypeOfHeader (h : Header) : string :=
  match h with
  | NilHeader => "<nil>"
  | TendermintHeader _ => "types.Header"
  | OtherHeader t => t
  end.

End exported.

(** ** SDK errors ([types/errors])

    An error is a registered sentinel, an error value made by another
    library, or a wrapper around a parent error.  The description a
    wrapper adds is kept as its format together with the values printed
    into it, not as the rendered text. *)

Module sdkerrors.

(** The registered errors this code names: [clienttypes.ErrInvalidClientType],
    [clienttypes.ErrInvalidHeader], [types.ErrTrustingPeriodExpired], and
    [ErrClientFrozen], which the spec names for a frozen client. *)
Inductive registered :=
| ErrInvalidClientType
| ErrInvalidHeader
| ErrClientFrozen
| ErrTrustingPeriodExpired.

Inductive message :=
| MsgExpectedType (expected got : string)
| MsgTrustingPeriodExpired (elapsed trustingPeriod : GoTime.Duration)
| MsgHeaderOutsideTrustingPeriod
| MsgBlocktimeNotAfterLatest (headerTime latestTime : GoTime.Time)
| MsgHeightNotAboveLatest (headerHeight latestHeight : Z)
| MsgInvalidLastSignedHeader (errText : string)
| MsgInvalidLastValidatorSet (errText : string)
| MsgInvalidNewSignedHeader (errText : string)
| MsgInvalidNewValidatorSet (errText : string)
| MsgFailedToVerifyHeader.

Inductive error :=
| Registered (r : registered)
| Foreign (text : string)
| Wrapped (parent : error) (description : message).

(** [Wrap(err, description)] for a non-nil [err]; [Wrapf] is [Wrap] after
    formatting. *)
Definition Wrap (err : error) (description : message) : error :=
  Wrapped err description.

Definition Wrapf (err : error) (description : message) : error :=
  Wrap err description.

(** The root of a chain of wrappers. *)
Fixpoint Cause (err : error) : error :=
  match err with
  | Wrapped parent _ => Cause parent
  | _ => err
  end.

(** [errors.Is(err, r)] for a registered error [r]. *)
Definition Is (err : error) (r : registered) : Prop :=
  Cause err = Registered r.

End sdkerrors.

Import sdkerrors.

(** ** The Tendermint library, as this code uses it

    [tmtypes.SignedHeaderFromProto], [tmtypes.ValidatorSetFromProto] and
    [lite.Verify] are consumed, not implemented.  Of a failed conversion
    the code reads only [err.Error()]. *)

Inductive converted (A : Type) :=
| Converted (a : A)
| ConversionError (errText : string).

Arguments Converted {A} a.
Arguments ConversionError {A} errText.

Class TendermintLibrary := {
  tm_SignedHeader : Type;
  tm_ValidatorSet : Type;
  SignedHeaderFromProto : tmproto.SignedHeader -> converted tm_SignedHeader;
  ValidatorSetFromProto : option tmproto.ValidatorSet -> converted tm_ValidatorSet;
  lite_Verify :
    string -> tm_SignedHeader -> tm_ValidatorSet ->
    tm_SignedHeader -> tm_ValidatorSet ->
    GoTime.Duration -> GoTime.Time -> GoTime.Duration -> types.Fraction ->
    option error
}.

(** [TrustLevel.ToTendermint()]: the same fraction as the library's type. *)
Definition ToTendermint (f : types.Fraction) : types.Fraction := f.

(** ** Calls into the library, logged *)

Inductive Call :=
| CallSignedHeaderFromProto (sh : tmproto.SignedHeader)
| CallValidatorSetFromProto (vs : option tmproto.ValidatorSet)
| CallVerify (chainID : string) (trustingPeriod : GoTime.Duration)
    (now : GoTime.Time) (maxClockDrift : GoTime.Duration)
    (trustLevel : types.Fraction).

Definition isCallVerify (c : Call) : bool :=
  match c with
  | CallVerify _ _ _ _ _ => true
  | _ => false
  end.

(** How often the trust verifier was invoked. *)
Definition verifierCalls (log : list Call) : nat :=
  List.length (filter isCallVerify log).

Inductive outcome (A : Type) :=
| Done (a : A)
| Raise (err : error).

Arguments Done {A} a.
Arguments Raise {A} err.

(** A computation that may return early with an error and that logs its
    calls into the library in the order they are made. *)
Definition Eff (A : Type) : Type := (list Call * outcome A)%type.

Definition ret {A} (a : A) : Eff A := ([], Done a).

Definition raise {A} (err : error) : Eff A := ([], Raise err).

Definition bind {A B} (m : Eff A) (k : A -> Eff B) : Eff B :=
  match m with
  | (log, Raise err) => (log, Raise err)
  | (log, Done a) => let (log', r) := k a in (log ++ log', r)
  end.

Notation "x <- m ;; k" := (bind m (fun x => k))
  (at level 61, m at next level, right associativity).

(** [v, err := f(...); if err != nil { return wrap(err.Error()) }]. *)
Definition orReturn {A} (c : Call) (r : converted A) (wrap : string -> error)
  : Eff A :=
  match r with
  | Converted a => ([c], Done a)
  | ConversionError errText => ([c], Raise (wrap errText))
  end.

(** A logged call whose result is handed back as it is. *)
Definition logged {A} (c : Call) (r : A) : Eff A := ([c], Done r).

(** ** [update.go] *)

Section Update.

Context {tm : TendermintLibrary}.

(** [checkValidity]: the returned error, [Done tt] for nil. *)
Definition checkValidity
  (clientState : types.ClientState) (header : types.Header)
  (currentTimestamp : GoTime.Time) : Eff unit :=
  if GoTime.Sub currentTimestamp (types.GetLatestTimestamp clientState)
       >=? types.TrustingPeriod clientState
  then
    raise (Wrapf (Registered ErrTrustingPeriodExpired)
             (MsgTrustingPeriodExpired
                (GoTime.Sub currentTimestamp (types.GetLatestTimestamp clientState))
                (types.TrustingPeriod clientState)))
  else if GoTime.Sub (types.GetTime header) (types.GetLatestTimestamp clientState)
            >=? types.TrustingPeriod clientState
  then
    raise (Wrap (Registered ErrInvalidHeader) MsgHeaderOutsideTrustingPeriod)
  else if GoTime.Unix (types.GetTime header)
            <=? GoTime.Unix (types.GetLatestTimestamp clientState)
  then
    raise (Wrapf (Registered ErrInvalidHeader)
             (MsgBlocktimeNotAfterLatest
                (types.GetTime header) (types.GetLatestTimestamp clientState)))
  else if types.GetHeight header <=? types.GetLatestHeight clientState
  then
    raise (Wrapf (Registered ErrInvalidHeader)
             (MsgHeightNotAboveLatest
                (types.GetHeight header) (types.GetLatestHeight clientState)))
  else
    trustedSignedHeader <-
      orReturn
        (CallSignedHeaderFromProto (types.SignedHeader (types.LastHeader clientState)))
        (SignedHeaderFromProto (types.SignedHeader (types.LastHeader clientState)))
        (fun e => Wrapf (Registered ErrInvalidHeader) (MsgInvalidLastSignedHeader e)) ;;
    trustedValset <-
      orReturn
        (CallValidatorSetFromProto (types.ValidatorSet (types.LastHeader clientState)))
        (ValidatorSetFromProto (types.ValidatorSet (types.LastHeader clientState)))
        (fun e => Wrapf (Registered ErrInvalidHeader) (MsgInvalidLastValidatorSet e)) ;;
    untrustedSignedHeader <-
      orReturn
        (CallSignedHeaderFromProto (types.SignedHeader header))
        (SignedHeaderFromProto (types.SignedHeader header))
        (fun e => Wrapf (Registered ErrInvalidHeader) (MsgInvalidNewSignedHeader e)) ;;
    untrustedValset <-
      orReturn
        (CallValidatorSetFromProto (types.ValidatorSet header))
        (ValidatorSetFromProto (types.ValidatorSet header))
        (fun e => Wrapf (Registered ErrInvalidHeader) (MsgInvalidNewValidatorSet e)) ;;
    err <-
      logged
        (CallVerify (types.GetChainID clientState)
           (types.TrustingPeriod clientState) currentTimestamp
           (types.MaxClockDrift clientState)
           (ToTendermint (types.TrustLevel clientState)))
        (lite_Verify (types.GetChainID clientState) trustedSignedHeader
           trustedValset untrustedSignedHeader untrustedValset
           (types.TrustingPeriod clientState) currentTimestamp
           (types.MaxClockDrift clientState)
           (ToTendermint (types.TrustLevel clientState))) ;;
    match err with
    | Some err => raise (Wrap err MsgFailedToVerifyHeader)
    | None => ret tt
    end.

(** [update]: the consensus state from a new header. *)
Definition update (clientState : types.ClientState) (header : types.Header)
  : types.ClientState * types.ConsensusState :=
  let clientState := types.set_LastHeader clientState header in
  let consensusState :=
    {| types.cons_Height := types.GetHeight header;
       types.cons_Timestamp := types.GetTime header;
       types.cons_Root :=
         types.NewMerkleRoot
           (tmproto.AppHash (tmproto.sh_Header (types.SignedHeader header)));
       types.cons_ValidatorSet := types.ValidatorSet header |} in
  (clientState, consensusState).

(** The three values [CheckValidityAndUpdateState] returns. *)
Record Returned := {
  ret_clientState : exported.ClientState;
  ret_consensusState : exported.ConsensusState;
  ret_err : option error
}.

(** [CheckValidityAndUpdateState], with the log of its library calls. *)
Definition CheckValidityAndUpdateState
  (clientState : exported.ClientState) (header : exported.Header)
  (currentTimestamp : GoTime.Time) : list Call * Returned :=
  match clientState with
  | exported.TendermintClientState tmClientState =>
      match header with
      | exported.TendermintHeader tmHeader =>
          match checkValidity tmClientState tmHeader currentTimestamp with
          | (log, Raise err) =>
              (log, {| ret_clientState := exported.NilClientState;
                       ret_consensusState := exported.NilConsensusState;
                       ret_err := Some err |})
          | (log, Done _) =>
              let (tmClientState, consensusState) := update tmClientState tmHeader in
              (log, {| ret_clientState := exported.TendermintClientState tmClientState;
                       ret_consensusState :=
                         exported.TendermintConsensusState consensusState;
                       ret_err := None |})
          end
      | _ =>
          ([], {| ret_clientState := exported.NilClientState;
                  ret_consensusState := exported.NilConsensusState;
                  ret_err :=
                    Some (Wrapf (Registered ErrInvalidHeader)
                            (MsgExpectedType "types.Header"
                               (exported.TypeOfHeader header))) |})
      end
  | _ =>
      ([], {| ret_clientState := exported.NilClientState;
              ret_consensusState := exported.NilConsensusState;
              ret_err :=
                Some (Wrapf (Registered ErrInvalidClientType)
                        (MsgExpectedType "types.ClientState"
                           (exported.TypeOfClientState clientState))) |})
  end.

End Update.

(** ** The return sites of [checkValidity], as a relation

    One rule for each [return] of the function, in source order, with the
    log of library calls made up to that point. *)

Section Rules.

Context {tm : TendermintLibrary}.

Variables (clientState : types.ClientState) (header : types.Header)
  (currentTimestamp : GoTime.Time).

Let latestTime := types.GetLatestTimestamp clientState.
Let period := types.TrustingPeriod clientState.
Let lastHeader := types.LastHeader clientState.

(** All four comparisons that precede the library calls let the header
    through. *)
Definition temporalChecksPass : Prop :=
  GoTime.Sub currentTimestamp latestTime < period /\
  GoTime.Sub (types.GetTime header) latestTime < period /\
  GoTime.Unix latestTime < GoTime.Unix (types.GetTime header) /\
  types.GetLatestHeight clientState < types.GetHeight header.

Definition callLastSignedHeader : Call :=
  CallSignedHeaderFromProto (types.SignedHeader lastHeader).
Definition callLastValset : Call :=
  CallValidatorSetFromProto (types.ValidatorSet lastHeader).
Definition callNewSignedHeader : Call :=
  CallSignedHeaderFromProto (types.SignedHeader header).
Definition callNewValset : Call :=
  CallValidatorSetFromProto (types.ValidatorSet header).
Definition callVerify : Call :=
  CallVerify (types.GetChainID clientState) period currentTimestamp
    (types.MaxClockDrift clientState)
    (ToTendermint (types.TrustLevel clientState)).

(** The header reaches [lite.Verify] with these converted values. *)
Definition handedToVerifier
  (tsh : tm_SignedHeader) (tvs : tm_ValidatorSet)
  (ush : tm_SignedHeader) (uvs : tm_ValidatorSet) : Prop :=
  temporalChecksPass /\
  SignedHeaderFromProto (types.SignedHeader lastHeader) = Converted tsh /\
  ValidatorSetFromProto (types.ValidatorSet lastHeader) = Converted tvs /\
  SignedHeaderFromProto (types.SignedHeader header) = Converted ush /\
  ValidatorSetFromProto (types.ValidatorSet header) = Converted uvs.

(** What [lite.Verify] answers on those values. *)
Definition verifierAnswer
  (tsh : tm_SignedHeader) (tvs : tm_ValidatorSet)
  (ush : tm_SignedHeader) (uvs : tm_ValidatorSet) : option error :=
  lite_Verify (types.GetChainID clientState) tsh tvs ush uvs period
    currentTimestamp (types.MaxClockDrift clientState)
    (ToTendermint (types.TrustLevel clientState)).

Inductive returns : list Call -> outcome unit -> Prop :=
| ReturnTrustingPeriodExpired :
    GoTime.Sub currentTimestamp latestTime >= period ->
    returns []
      (Raise (Wrapf (Registered ErrTrustingPeriodExpired)
                (MsgTrustingPeriodExpired
                   (GoTime.Sub currentTimestamp latestTime) period)))
| ReturnOutsideTrustingPeriod :
    GoTime.Sub currentTimestamp latestTime < period ->
    GoTime.Sub (types.GetTime header) latestTime >= period ->
    returns []
      (Raise (Wrap (Registered ErrInvalidHeader) MsgHeaderOutsideTrustingPeriod))
| ReturnBlocktime :
    GoTime.Sub currentTimestamp latestTime < period ->
    GoTime.Sub (types.GetTime header) latestTime < period ->
    GoTime.Unix (types.GetTime header) <= GoTime.Unix latestTime ->
    returns []
      (Raise (Wrapf (Registered ErrInvalidHeader)
                (MsgBlocktimeNotAfterLatest (types.GetTime header) latestTime)))
| ReturnHeight :
    GoTime.Sub currentTimestamp latestTime < period ->
    GoTime.Sub (types.GetTime header) latestTime < period ->
    GoTime.Unix latestTime < GoTime.Unix (types.GetTime header) ->
    types.GetHeight header <= types.GetLatestHeight clientState ->
    returns []
      (Raise (Wrapf (Registered ErrInvalidHeader)
                (MsgHeightNotAboveLatest
                   (types.GetHeight header) (types.GetLatestHeight clientState))))
| ReturnLastSignedHeader e :
    temporalChecksPass ->
    SignedHeaderFromProto (types.SignedHeader lastHeader) = ConversionError e ->
    returns [callLastSignedHeader]
      (Raise (Wrapf (Registered ErrInvalidHeader) (MsgInvalidLastSignedHeader e)))
| ReturnLastValset tsh e :
    temporalChecksPass ->
    SignedHeaderFromProto (types.SignedHeader lastHeader) = Converted tsh ->
    ValidatorSetFromProto (types.ValidatorSet lastHeader) = ConversionError e ->
    returns [callLastSignedHeader; callLastValset]
      (Raise (Wrapf (Registered ErrInvalidHeader) (MsgInvalidLastValidatorSet e)))
| ReturnNewSignedHeader tsh tvs e :
    temporalChecksPass ->
    SignedHeaderFromProto (types.SignedHeader lastHeader) = Converted tsh ->
    ValidatorSetFromProto (types.ValidatorSet lastHeader) = Converted tvs ->
    SignedHeaderFromProto (types.SignedHeader header) = ConversionError e ->
    returns [callLastSignedHeader; callLastValset; callNewSignedHeader]
      (Raise (Wrapf (Registered ErrInvalidHeader) (MsgInvalidNewSignedHeader e)))
| ReturnNewValset tsh tvs ush e :
    temporalChecksPass ->
    SignedHeaderFromProto (types.SignedHeader lastHeader) = Converted tsh ->
    ValidatorSetFromProto (types.ValidatorSet lastHeader) = Converted tvs ->
    SignedHeaderFromProto (types.SignedHeader header) = Converted ush ->
    ValidatorSetFromProto (types.ValidatorSet header) = ConversionError e ->
    returns
      [callLastSignedHeader; callLastValset; callNewSignedHeader; callNewValset]
      (Raise (Wrapf (Registered ErrInvalidHeader) (MsgInvalidNewValidatorSet e)))
| ReturnVerifyFailed tsh tvs ush uvs err :
    handedToVerifier tsh tvs ush uvs ->
    verifierAnswer tsh tvs ush uvs = Some err ->
    returns
      [callLastSignedHeader; callLastValset; callNewSignedHeader; callNewValset;
       callVerify]
      (Raise (Wrap err MsgFailedToVerifyHeader))
| ReturnNil tsh tvs ush uvs :
    handedToVerifier tsh tvs ush uvs ->
    verifierAnswer tsh tvs ush uvs = None ->
    returns
      [callLastSignedHeader; callLastValset; callNewSignedHeader; callNewValset;
       callVerify]
      (Done tt).

End Rules.

(** ** Error classes of the spec, in terms of the errors the code returns *)

(** [TemporalViolation]: the error of one of the timestamp, height and
    trusting-period checks. *)
Definition isTemporalViolation (err : error) : bool :=
  match err with
  | Wrapped (Registered ErrTrustingPeriodExpired) (MsgTrustingPeriodExpired _ _) => true
  | Wrapped (Registered ErrInvalidHeader) MsgHeaderOutsideTrustingPeriod => true
  | Wrapped (Registered ErrInvalidHeader) (MsgBlocktimeNotAfterLatest _ _) => true
  | Wrapped (Registered ErrInvalidHeader) (MsgHeightNotAboveLatest _ _) => true
  | _ => false
  end.

(** The error of the block-time comparison (the spec's
    [ErrNonMonotonicTimestamp]) and of the height comparison (the spec's
    [ErrNonMonotonicHeight]); both wrap [ErrInvalidHeader]. *)
Definition ErrNonMonotonicTimestamp
  (clientState : types.ClientState) (header : types.Header) : error :=
  Wrapf (Registered ErrInvalidHeader)
    (MsgBlocktimeNotAfterLatest
       (types.GetTime header) (types.GetLatestTimestamp clientState)).

Definition ErrNonMonotonicHeight
  (clientState : types.ClientState) (header : types.Header) : error :=
  Wrapf (Registered ErrInvalidHeader)
    (MsgHeightNotAboveLatest
       (types.GetHeight header) (types.GetLatestHeight clientState)).

(** The error of the header's trusting-period check (the spec's
    [ErrHeaderOutsideTrustingPeriod]). *)
Definition ErrHeaderOutsideTrustingPeriod : error :=
  Wrap (Registered ErrInvalidHeader) MsgHeaderOutsideTrustingPeriod.

(** A call that ends in an error, with nothing asked of the library. *)
Definition rejectedUpFront (r : list Call * Returned) (err : error) : Prop :=
  r = ([], {| ret_clientState := exported.NilClientState;
              ret_consensusState := exported.NilConsensusState;
              ret_err := Some err |}).

(** A call that ends in a new client state and consensus state. *)
Definition succeedsWith (r : list Call * Returned)
  (cs : types.ClientState) (c : types.ConsensusState) : Prop :=
  snd r = {| ret_clientState := exported.TendermintClientState cs;
             ret_consensusState := exported.TendermintConsensusState c;
             ret_err := None |}.

(** The returned client state with its [frozen] flag set to [b]; nil stays
    nil. *)
Definition withFrozen (b : bool) (c : exported.ClientState)
  : exported.ClientState :=
  match c with
  | exported.TendermintClientState cs =>
      exported.TendermintClientState (types.set_Frozen cs b)
  | _ => c
  end.

Definition isTendermintClientState (c : exported.ClientState) : bool :=
  match c with
  | exported.TendermintClientState _ => true
  | _ => false
  end.

Definition isTendermintHeader (h : exported.Header) : bool :=
  match h with
  | exported.TendermintHeader _ => true
  | _ => false
  end.

(** ** Concrete inputs

    A library that converts every well-formed value and whose verifier
    answers [verdict], and headers in the shape of [CreateTestHeader]. *)

Definition stubLibrary (verdict : option error) : TendermintLibrary :=
  {| tm_SignedHeader := tmproto.SignedHeader;
     tm_ValidatorSet := tmproto.ValidatorSet;
     SignedHeaderFromProto := fun sh => Converted sh;
     ValidatorSetFromProto := fun vs =>
       match vs with
       | Some v => Converted v
       | None => ConversionError "nil validator set"
       end;
     lite_Verify := fun _ _ _ _ _ _ _ _ _ => verdict |}.

Definition acceptingLibrary : TendermintLibrary := stubLibrary None.

Definition rejectingLibrary : TendermintLibrary :=
  stubLibrary (Some (Foreign "invalid commit")).

Definition zeroHash : bytes := repeat x00 32%nat.

Definition testValidator : tmproto.Validator :=
  {| tmproto.Address := [x01];
     tmproto.PubKey := [x02];
     tmproto.VotingPower := 10 |}.

Definition testValSet : tmproto.ValidatorSet :=
  {| tmproto.Validators := [testValidator];
     tmproto.Proposer := Some testValidator |}.

Definition testBlockID : tmproto.BlockID :=
  {| tmproto.bid_Hash := zeroHash;
     tmproto.bid_PartsHeader :=
       {| tmproto.psh_Total := 2147483647; tmproto.psh_Hash := zeroHash |} |}.

(** A header at [height] and [timestamp] with validator-set hash [vsetHash]
    and next-validator-set hash [nextHash]. *)
Definition testHeader (height : Z) (timestamp : GoTime.Time)
  (vsetHash nextHash : bytes) : types.Header :=
  {| types.SignedHeader :=
       {| tmproto.sh_Header :=
            {| tmproto.Version := (2, 2);
               tmproto.ChainID := "gaia";
               tmproto.Height := height;
               tmproto.Time := timestamp;
               tmproto.LastBlockID := testBlockID;
               tmproto.LastCommitHash := [x03];
               tmproto.DataHash := [x04];
               tmproto.ValidatorsHash := vsetHash;
               tmproto.NextValidatorsHash := nextHash;
               tmproto.ConsensusHash := [x05];
               tmproto.AppHash := [x06];
               tmproto.LastResultsHash := [x07];
               tmproto.EvidenceHash := [x08];
               tmproto.ProposerAddress := [x01] |};
          tmproto.sh_Commit := None |};
     types.ValidatorSet := Some testValSet |}.

(** A client whose latest header is at height 3 and second 10, with the
    given trusting period and [frozen] flag. *)
Definition testClientState (trustingPeriod : GoTime.Duration) (frozen : bool)
  : types.ClientState :=
  {| types.ChainID := "gaia";
     types.TrustLevel := {| types.Numerator := 1; types.Denominator := 3 |};
     types.TrustingPeriod := trustingPeriod;
     types.UnbondingPeriod := 2 * trustingPeriod;
     types.MaxClockDrift := 10 * GoTime.Second;
     types.LastHeader := testHeader 3 (10 * GoTime.Second) [x09] [x09];
     types.Frozen := frozen |}.

Definition hour : GoTime.Duration := 3600 * GoTime.Second.

(** The client of the examples: not frozen, trusting period of one hour,
    latest header at height 3 and second 10; the current time is
    second 12. *)
Definition activeClient : types.ClientState := testClientState hour false.

Definition frozenClient : types.ClientState := testClientState hour true.

Definition now12 : GoTime.Time := 12 * GoTime.Second.

(** A newer header, at height 4 and second 11. *)
Definition freshHeader : types.Header :=
  testHeader 4 (11 * GoTime.Second) [x09] [x0a].

(** The same header announcing another next validator set. *)
Definition freshHeaderOtherNext : types.Header :=
  testHeader 4 (11 * GoTime.Second) [x09] [x0b].

(** A header one nanosecond after the latest one, within the same second. *)
Definition sameSecondHeader : types.Header :=
  testHeader 4 (10 * GoTime.Second + GoTime.Nanosecond) [x09] [x0a].

(** A header at the latest height and time. *)
Definition staleHeader : types.Header :=
  testHeader 3 (10 * GoTime.Second) [x09] [x09].

(** Headers exactly at, and one nanosecond before, the end of the
    trusting period that starts at the latest header. *)
Definition boundaryHeader : types.Header :=
  testHeader 4 (10 * GoTime.Second + hour) [x09] [x0a].

Definition insideHeader : types.Header :=
  testHeader 4 (10 * GoTime.Second + hour - GoTime.Nanosecond) [x09] [x0a].

(** ** Account queries ([x/auth/keeper], the gRPC query server)

    [Account], [Params] and [ConvertAccount].  The keeper's store reads
    ([GetAccount], [GetParams]), [AccAddress.Empty] and
    [codectypes.NewAnyWithValue] belong to other packages and are taken as
    they are given. *)

Module authkeeper.

(** The gRPC status codes the server answers with. *)
Inductive Code :=
| InvalidArgument
| NotFound
| Internal.

(** The description of a status: a fixed text, and for [Errorf] its
    format with the values printed. *)
Inductive Description :=
| DescEmptyRequest
| DescAddressEmpty
| DescAccountNotFound (address : bytes)
| DescFormat (format : string).

(** [status.Error(code, ...)] and [status.Errorf(code, ...)]. *)
Record Status := {
  code : Code;
  description : Description
}.

(** What the server works with. *)
Class Collaborators := {
  ProtoMessage : Type;
  AnyValue : Type;
  ParamsValue : Type;
  Empty : bytes -> bool;
  NewAnyWithValue : ProtoMessage -> AnyValue + string
}.

Section Server.

Context {co : Collaborators}.

(** A non-nil [types.AccountI]: a value that is also a [proto.Message],
    or a value of some other Go type. *)
Inductive AccountI :=
| ProtoAccount (msg : ProtoMessage)
| OtherAccount (goType : string).

(** The keeper on the request's context: what [GetAccount] finds for an
    address (nil when there is no account) and what [GetParams] reads. *)
Record AccountKeeper := {
  GetAccount : bytes -> option AccountI;
  GetParams : ParamsValue
}.

Record QueryAccountRequest := {
  Address : bytes
}.

Record QueryAccountResponse := {
  Account_ : AnyValue
}.

Record QueryParamsRequest := { }.

Record QueryParamsResponse := {
  Params_ : ParamsValue
}.

(** The errors of [ConvertAccount]: its own [fmt.Errorf], with the type
    name [%T] printed, or the error of [NewAnyWithValue]. *)
Inductive ConvertError :=
| CantProtomarshal (typeName : string)
| PackError (text : string).

(** [err.Error()]. *)
Definition ErrorText (e : ConvertError) : string :=
  match e with
  | CantProtomarshal typeName => "can't protomarshal " ++ typeName
  | PackError text => text
  end.

(** [ConvertAccount]: when the type assertion fails, [msg] is the nil
    [proto.Message], and that is what [%T] prints. *)
Definition ConvertAccount (account : AccountI) : AnyValue + ConvertError :=
  match account with
  | OtherAccount _ => inr (CantProtomarshal "<nil>")
  | ProtoAccount msg =>
      match NewAnyWithValue msg with
      | inr text => inr (PackError text)
      | inl any => inl any
      end
  end.

(** [Account]: account details based on address. *)
Definition Account (ak : AccountKeeper) (req : option QueryAccountRequest)
  : option QueryAccountResponse * option Status :=
  match req with
  | None => (None, Some {| code := InvalidArgument; description := DescEmptyRequest |})
  | Some req =>
      if Empty (Address req) then
        (None, Some {| code := InvalidArgument; description := DescAddressEmpty |})
      else
        match GetAccount ak (Address req) with
        | None =>
            (None, Some {| code := NotFound;
                           description := DescAccountNotFound (Address req) |})
        | Some account =>
            match ConvertAccount account with
            | inr err =>
                (None, Some {| code := Internal;
                               description := DescFormat (ErrorText err) |})
            | inl acc => (Some {| Account_ := acc |}, None)
            end
        end
  end.

(** [Params]: the parameters of the auth module. *)
Definition Params (ak : AccountKeeper) (req : option QueryParamsRequest)
  : option QueryParamsResponse * option Status :=
  match req with
  | None => (None, Some {| code := InvalidArgument; description := DescEmptyRequest |})
  | Some _ => (Some {| Params_ := GetParams ak |}, None)
  end.

End Server.

(** Collaborators for concrete runs: messages and packed values are
    texts, the message named [bad] cannot be packed, and an address is
    empty when it has no bytes. *)
Definition stubCollaborators : Collaborators :=
  {| ProtoMessage := string;
     AnyValue := string;
     ParamsValue := Z;
     Empty := fun a => match a with [] => true | _ => false end;
     NewAnyWithValue := fun m =>
       if String.eqb m "bad" then inr "cannot pack"%string
       else inl ("any:" ++ m)%string |}.

(** A keeper with a base account at address 01, a value that is no
    [proto.Message] at address 02, and nothing elsewhere. *)
Definition stubKeeper : @AccountKeeper stubCollaborators :=
  {| GetAccount := fun a =>
       match a with
       | [x01] => Some (@ProtoAccount stubCollaborators "BaseAccount"%string)
       | [x02] => Some (@OtherAccount stubCollaborators "mock.Account"%string)
       | _ => None
       end;
     GetParams := 7 |}.

(** A keeper with no accounts. *)
Definition emptyKeeper : @AccountKeeper stubCollaborators :=
  {| GetAccount := fun _ => None; GetParams := (0 : @ParamsValue stubCollaborators) |}.

End authkeeper.

(** ** Slashing genesis messages on the wire ([x/slashing/types/genesis.pb.go])

    The generated codec of [MissedBlock]: [sovGenesis],
    [encodeVarintGenesis], [Size], [MarshalToSizedBuffer], [Marshal],
    [Unmarshal] and [skipGenesis].  A byte is an integer from 0 to 255, a
    buffer a list of bytes; [int] is taken as 64 bits wide. *)

Module genesispb.

Definition isByte (b : Z) : Prop := 0 <= b < 256.

(** Conversions to [uint64], [int64] (and [int]), [int32] and [uint8]. *)
Definition wrapU64 (z : Z) : Z := z mod 2 ^ 64.
Definition wrapI64 (z : Z) : Z := (z + 2 ^ 63) mod 2 ^ 64 - 2 ^ 63.
Definition wrapI32 (z : Z) : Z := (z + 2 ^ 31) mod 2 ^ 32 - 2 ^ 31.
Definition uint8 (z : Z) : Z := z mod 256.

(** What a function that writes into a buffer or loops can do: return,
    panic on an index out of range, or still be running when the model's
    fuel is used up. *)
Inductive result (A : Type) :=
| Returns (a : A)
| Panics
| Diverges.

Arguments Returns {A} a.
Arguments Panics {A}.
Arguments Diverges {A}.

(** [math/bits.Len64]: the number of bits needed to write [x]. *)
Definition Len64 (x : Z) : Z := if x =? 0 then 0 else Z.log2 x + 1.

Definition sovGenesis (x : Z) : Z := (Len64 (Z.lor x 1) + 6) / 7.

(** [dAtA[i] = b]. *)
Definition store (dAtA : list Z) (i b : Z) : option (list Z) :=
  if (0 <=? i) && (i <? Z.of_nat (List.length dAtA)) then
    Some (firstn (Z.to_nat i) dAtA ++ b :: skipn (S (Z.to_nat i)) dAtA)
  else None.

(** The loop of [encodeVarintGenesis]; it returns the buffer. *)
Fixpoint encodeVarintLoop (fuel : nat) (dAtA : list Z) (offset v : Z)
  : result (list Z) :=
  match fuel with
  | O => Diverges
  | S fuel =>
      if v >=? 128 then
        match store dAtA offset (uint8 (Z.lor (Z.land v 127) 128)) with
        | None => Panics
        | Some dAtA => encodeVarintLoop fuel dAtA (offset + 1) (Z.shiftr v 7)
        end
      else
        match store dAtA offset (uint8 v) with
        | None => Panics
        | Some dAtA => Returns dAtA
        end
  end.

(** [encodeVarintGenesis(dAtA, offset, v)]: the returned [base] and the
    buffer.  A [uint64] has at most ten groups of seven bits. *)
Definition encodeVarintGenesis (dAtA : list Z) (offset v : Z)
  : result (Z * list Z) :=
  let offset := offset - sovGenesis v in
  let base := offset in
  match encodeVarintLoop 10 dAtA offset v with
  | Returns dAtA => Returns (base, dAtA)
  | Panics => Panics
  | Diverges => Diverges
  end.

Record MissedBlock := {
  Index : Z;
  Missed : bool
}.

Definition GetIndex (m : option MissedBlock) : Z :=
  match m with
  | Some m => Index m
  | None => 0
  end.

Definition GetMissed (m : option MissedBlock) : bool :=
  match m with
  | Some m => Missed m
  | None => false
  end.

(** [(m *MissedBlock) Size()]; [m] may be nil. *)
Definition MissedBlock_Size (m : option MissedBlock) : Z :=
  match m with
  | None => 0
  | Some m =>
      (if Index m =? 0 then 0 else 1 + sovGenesis (wrapU64 (Index m)))
      + (if Missed m then 2 else 0)
  end.

(** [(m *MissedBlock) MarshalToSizedBuffer(dAtA)]: the returned count
    (the error is always nil) and the buffer, written from its end. *)
Definition MissedBlock_MarshalToSizedBuffer (m : MissedBlock) (dAtA : list Z)
  : result (Z * list Z) :=
  let i := Z.of_nat (List.length dAtA) in
  let afterMissed : result (Z * list Z) :=
    if Missed m then
      let i := i - 1 in
      match store dAtA i (if Missed m then 1 else 0) with
      | None => Panics
      | Some dAtA =>
          let i := i - 1 in
          match store dAtA i 16 with
          | None => Panics
          | Some dAtA => Returns (i, dAtA)
          end
      end
    else Returns (i, dAtA) in
  match afterMissed with
  | Returns (i, dAtA) =>
      if negb (Index m =? 0) then
        match encodeVarintGenesis dAtA i (wrapU64 (Index m)) with
        | Returns (i, dAtA) =>
            let i := i - 1 in
            match store dAtA i 8 with
            | None => Panics
            | Some dAtA' => Returns (Z.of_nat (List.length dAtA') - i, dAtA')
            end
        | Panics => Panics
        | Diverges => Diverges
        end
      else Returns (Z.of_nat (List.length dAtA) - i, dAtA)
  | Panics => Panics
  | Diverges => Diverges
  end.

(** [(m *MissedBlock) Marshal()]: the bytes returned (the error is always
    nil).  A nil receiver is dereferenced. *)
Definition MissedBlock_Marshal (m : option MissedBlock) : result (list Z) :=
  let size := MissedBlock_Size m in
  let dAtA := repeat 0 (Z.to_nat size) in
  match m with
  | None => Panics
  | Some m' =>
      match MissedBlock_MarshalToSizedBuffer m' (firstn (Z.to_nat size) dAtA) with
      | Returns (n, dAtA) => Returns (firstn (Z.to_nat n) dAtA)
      | Panics => Panics
      | Diverges => Diverges
      end
  end.

(** The errors of [Unmarshal] and [skipGenesis]: the three package
    variables, [io.ErrUnexpectedEOF], and the [fmt.Errorf] texts with the
    values printed. *)
Inductive UnmarshalError :=
| ErrInvalidLengthGenesis
| ErrIntOverflowGenesis
| ErrUnexpectedEndOfGroupGenesis
| ErrUnexpectedEOF
| ErrEndGroupForNonGroup (message : string)
| ErrIllegalTag (message : string) (fieldNum wire : Z)
| ErrWrongWireType (wireType : Z) (field : string)
| ErrIllegalWireType (wireType : Z).

(** A run of the loop that reads a varint: the value and the index after
    it, or an error with what had been accumulated. *)
Inductive varint :=
| VarintOk (value next : Z)
| VarintErr (e : UnmarshalError) (partial : Z).

(** The loop [for shift := uint(0); ; shift += 7], reading from
    [dAtA[iNdEx:]]; [wrap] is the integer type of the accumulator. *)
Fixpoint decodeVarint (wrap : Z -> Z) (rest : list Z) (shift acc iNdEx : Z)
  : varint :=
  if shift >=? 64 then VarintErr ErrIntOverflowGenesis acc
  else
    match rest with
    | [] => VarintErr ErrUnexpectedEOF acc
    | b :: rest =>
        let acc := Z.lor acc (wrap (Z.shiftl (Z.land b 127) shift)) in
        if b <? 128 then VarintOk acc (iNdEx + 1)
        else decodeVarint wrap rest (shift + 7) acc (iNdEx + 1)
    end.

(** The loop at [dAtA[iNdEx]], for an index within the buffer. *)
Definition readVarint (wrap : Z -> Z) (dAtA : list Z) (iNdEx : Z) : varint :=
  decodeVarint wrap (skipn (Z.to_nat iNdEx) dAtA) 0 0 iNdEx.

(** The loop of [skipGenesis]: the returned pair [(n, err)]. *)
Fixpoint skipLoop (fuel : nat) (dAtA : list Z) (iNdEx depth : Z)
  : result (Z * option UnmarshalError) :=
  let l := Z.of_nat (List.length dAtA) in
  if iNdEx <? l then
    match fuel with
    | O => Diverges
    | S fuel =>
        match readVarint wrapU64 dAtA iNdEx with
        | VarintErr e _ => Returns (0, Some e)
        | VarintOk wire iNdEx =>
            let wireType := Z.land wire 7 in
            let next (iNdEx depth : Z) : result (Z * option UnmarshalError) :=
              if iNdEx <? 0 then Returns (0, Some ErrInvalidLengthGenesis)
              else if depth =? 0 then Returns (iNdEx, None)
              else skipLoop fuel dAtA iNdEx depth in
            if wireType =? 0 then
              match readVarint wrapU64 dAtA iNdEx with
              | VarintErr e _ => Returns (0, Some e)
              | VarintOk _ iNdEx => next iNdEx depth
              end
            else if wireType =? 1 then next (wrapI64 (iNdEx + 8)) depth
            else if wireType =? 2 then
              match readVarint wrapI64 dAtA iNdEx with
              | VarintErr e _ => Returns (0, Some e)
              | VarintOk length iNdEx =>
                  if length <? 0 then Returns (0, Some ErrInvalidLengthGenesis)
                  else next (wrapI64 (iNdEx + length)) depth
              end
            else if wireType =? 3 then next iNdEx (depth + 1)
            else if wireType =? 4 then
              if depth =? 0 then Returns (0, Some ErrUnexpectedEndOfGroupGenesis)
              else next iNdEx (depth - 1)
            else if wireType =? 5 then next (wrapI64 (iNdEx + 4)) depth
            else Returns (0, Some (ErrIllegalWireType wireType))
        end
    end
  else Returns (0, Some ErrUnexpectedEOF).

(** [skipGenesis(dAtA)]: every turn of the loop reads at least one byte. *)
Definition skipGenesis (dAtA : list Z) : result (Z * option UnmarshalError) :=
  skipLoop (S (List.length dAtA)) dAtA 0 0.

(** The loop of [(m *MissedBlock) Unmarshal]: the message as it is left
    and the returned error. *)
Fixpoint MissedBlock_unmarshalLoop (fuel : nat) (m : MissedBlock)
  (dAtA : list Z) (iNdEx : Z) : result (MissedBlock * option UnmarshalError) :=
  let l := Z.of_nat (List.length dAtA) in
  if iNdEx <? l then
    match fuel with
    | O => Diverges
    | S fuel =>
        let preIndex := iNdEx in
        match readVarint wrapU64 dAtA iNdEx with
        | VarintErr e _ => Returns (m, Some e)
        | VarintOk wire iNdEx =>
            let fieldNum := wrapI32 (Z.shiftr wire 3) in
            let wireType := Z.land wire 7 in
            if wireType =? 4 then
              Returns (m, Some (ErrEndGroupForNonGroup "MissedBlock"))
            else if fieldNum <=? 0 then
              Returns (m, Some (ErrIllegalTag "MissedBlock" fieldNum wire))
            else if fieldNum =? 1 then
              if negb (wireType =? 0) then
                Returns (m, Some (ErrWrongWireType wireType "Index"))
              else
                match readVarint wrapI64 dAtA iNdEx with
                | VarintErr e partial =>
                    Returns ({| Index := partial; Missed := Missed m |}, Some e)
                | VarintOk v iNdEx =>
                    MissedBlock_unmarshalLoop fuel
                      {| Index := v; Missed := Missed m |} dAtA iNdEx
                end
            else if fieldNum =? 2 then
              if negb (wireType =? 0) then
                Returns (m, Some (ErrWrongWireType wireType "Missed"))
              else
                match readVarint wrapI64 dAtA iNdEx with
                | VarintErr e _ => Returns (m, Some e)
                | VarintOk v iNdEx =>
                    MissedBlock_unmarshalLoop fuel
                      {| Index := Index m; Missed := negb (v =? 0) |} dAtA iNdEx
                end
            else
              let iNdEx := preIndex in
              match skipGenesis (skipn (Z.to_nat iNdEx) dAtA) with
              | Returns (_, Some err) => Returns (m, Some err)
              | Returns (skippy, None) =>
                  if skippy <? 0 then Returns (m, Some ErrInvalidLengthGenesis)
                  else if wrapI64 (iNdEx + skippy) <? 0 then
                    Returns (m, Some ErrInvalidLengthGenesis)
                  else if wrapI64 (iNdEx + skippy) >? l then
                    Returns (m, Some ErrUnexpectedEOF)
                  else
                    MissedBlock_unmarshalLoop fuel m dAtA (wrapI64 (iNdEx + skippy))
              | Panics => Panics
              | Diverges => Diverges
              end
        end
    end
  else if iNdEx >? l then Returns (m, Some ErrUnexpectedEOF)
  else Returns (m, None).

(** [(m *MissedBlock) Unmarshal(dAtA)]: every turn of the loop reads at
    least one byte. *)
Definition MissedBlock_Unmarshal (m : MissedBlock) (dAtA : list Z)
  : result (MissedBlock * option UnmarshalError) :=
  MissedBlock_unmarshalLoop (S (List.length dAtA)) m dAtA 0.

(** The bytes of a varint, first group first: what the loop of
    [encodeVarintGenesis] writes in [n] steps. *)
Fixpoint varintBytes (n : nat) (v : Z) : list Z :=
  match n with
  | O => []
  | S n =>
      if v >=? 128 then uint8 (Z.lor (Z.land v 127) 128) :: varintBytes n (Z.shiftr v 7)
      else [uint8 v]
  end.

(** The wire form of a [MissedBlock]: field 1 as a varint when the index
    is not zero, then field 2 as the byte 1 when the block was missed. *)
Definition MissedBlock_wire (m : MissedBlock) : list Z :=
  (if Index m =? 0 then [] else 8 :: varintBytes 10 (wrapU64 (Index m)))
  ++ (if Missed m then [16; 1] else []).

(** What the loop needs of the accumulator's integer type. *)
Definition accumulates (wrap : Z -> Z) : Prop :=
  (forall x, 0 <= x < 2 ^ 63 -> wrap x = x) /\
  (forall a s x,
     0 <= s < 64 -> 0 <= a < 2 ^ s -> 0 <= x -> a + x * 2 ^ s < 2 ^ 64 ->
     Z.lor a (wrap (Z.shiftl x s)) = wrap (a + x * 2 ^ s)).

(** ** [ValidatorMissedBlocks] *)

(** [ValidatorMissedBlocks]: the address, a Go string, is its bytes. *)
Record ValidatorMissedBlocks := {
  Address : list Z;
  MissedBlocks : list MissedBlock
}.

(** [GetAddress] and [GetMissedBlocks]; [m] may be nil. *)
Definition GetAddress (m : option ValidatorMissedBlocks) : list Z :=
  match m with
  | Some m => Address m
  | None => []
  end.

Definition GetMissedBlocks (m : option ValidatorMissedBlocks) : list MissedBlock :=
  match m with
  | Some m => MissedBlocks m
  | None => []
  end.

(** [(m *ValidatorMissedBlocks) Size()]; [m] may be nil. *)
Definition ValidatorMissedBlocks_Size (m : option ValidatorMissedBlocks) : Z :=
  match m with
  | None => 0
  | Some m =>
      let l := Z.of_nat (List.length (Address m)) in
      let n := if l >? 0 then 1 + l + sovGenesis (wrapU64 l) else 0 in
      fold_left
        (fun n e =>
           let l := MissedBlock_Size (Some e) in
           n + (1 + l + sovGenesis (wrapU64 l)))
        (MissedBlocks m) n
  end.

(** [dAtA[:i]]. *)
Definition slicePrefix (dAtA : list Z) (i : Z) : option (list Z) :=
  if (0 <=? i) && (i <=? Z.of_nat (List.length dAtA)) then
    Some (firstn (Z.to_nat i) dAtA)
  else None.

(** [dAtA[i:j]], for indices in order within the buffer. *)
Definition slice (dAtA : list Z) (i j : Z) : list Z :=
  firstn (Z.to_nat (j - i)) (skipn (Z.to_nat i) dAtA).

(** The loop over [m.MissedBlocks] from the last block to the first; the
    blocks are given last first.  The nested call writes into [dAtA[:i]],
    which shares its memory with [dAtA]. *)
Fixpoint marshalMissedBlocks (backwards : list MissedBlock) (dAtA : list Z)
  (i : Z) : result (Z * list Z) :=
  match backwards with
  | [] => Returns (i, dAtA)
  | e :: backwards =>
      match slicePrefix dAtA i with
      | None => Panics
      | Some front =>
          match MissedBlock_MarshalToSizedBuffer e front with
          | Returns (size, front) =>
              let dAtA := front ++ skipn (Z.to_nat i) dAtA in
              let i := i - size in
              match encodeVarintGenesis dAtA i (wrapU64 size) with
              | Returns (i, dAtA) =>
                  let i := i - 1 in
                  match store dAtA i 18 with
                  | None => Panics
                  | Some dAtA => marshalMissedBlocks backwards dAtA i
                  end
              | Panics => Panics
              | Diverges => Diverges
              end
          | Panics => Panics
          | Diverges => Diverges
          end
      end
  end.

(** [copy(dAtA[i:], src)]. *)
Definition copyAt (dAtA : list Z) (i : Z) (src : list Z) : option (list Z) :=
  if (0 <=? i) && (i <=? Z.of_nat (List.length dAtA)) then
    let n := Nat.min (List.length dAtA - Z.to_nat i) (List.length src) in
    Some (firstn (Z.to_nat i) dAtA ++ firstn n src
          ++ skipn (Z.to_nat i + n) dAtA)
  else None.

(** [(m *ValidatorMissedBlocks) MarshalToSizedBuffer(dAtA)]. *)
Definition ValidatorMissedBlocks_MarshalToSizedBuffer
  (m : ValidatorMissedBlocks) (dAtA : list Z) : result (Z * list Z) :=
  let i := Z.of_nat (List.length dAtA) in
  match marshalMissedBlocks (rev (MissedBlocks m)) dAtA i with
  | Returns (i, dAtA) =>
      if Z.of_nat (List.length (Address m)) >? 0 then
        let i := i - Z.of_nat (List.length (Address m)) in
        match copyAt dAtA i (Address m) with
        | None => Panics
        | Some dAtA =>
            match encodeVarintGenesis dAtA i
                    (wrapU64 (Z.of_nat (List.length (Address m)))) with
            | Returns (i, dAtA) =>
                let i := i - 1 in
                match store dAtA i 10 with
                | None => Panics
                | Some dAtA => Returns (Z.of_nat (List.length dAtA) - i, dAtA)
                end
            | Panics => Panics
            | Diverges => Diverges
            end
        end
      else Returns (Z.of_nat (List.length dAtA) - i, dAtA)
  | Panics => Panics
  | Diverges => Diverges
  end.

(** [(m *ValidatorMissedBlocks) Marshal()]. *)
Definition ValidatorMissedBlocks_Marshal (m : option ValidatorMissedBlocks)
  : result (list Z) :=
  let size := ValidatorMissedBlocks_Size m in
  let dAtA := repeat 0 (Z.to_nat size) in
  match m with
  | None => Panics
  | Some m' =>
      match slicePrefix dAtA size with
      | None => Panics
      | Some front =>
          match ValidatorMissedBlocks_MarshalToSizedBuffer m' front with
          | Returns (n, dAtA) =>
              match slicePrefix dAtA n with
              | Some bytes => Returns bytes
              | None => Panics
              end
          | Panics => Panics
          | Diverges => Diverges
          end
      end
  end.

(** The loop of [(m *ValidatorMissedBlocks) Unmarshal]. *)
Fixpoint ValidatorMissedBlocks_unmarshalLoop (fuel : nat)
  (m : ValidatorMissedBlocks) (dAtA : list Z) (iNdEx : Z)
  : result (ValidatorMissedBlocks * option UnmarshalError) :=
  let l := Z.of_nat (List.length dAtA) in
  if iNdEx <? l then
    match fuel with
    | O => Diverges
    | S fuel =>
        let preIndex := iNdEx in
        match readVarint wrapU64 dAtA iNdEx with
        | VarintErr e _ => Returns (m, Some e)
        | VarintOk wire iNdEx =>
            let fieldNum := wrapI32 (Z.shiftr wire 3) in
            let wireType := Z.land wire 7 in
            if wireType =? 4 then
              Returns (m, Some (ErrEndGroupForNonGroup "ValidatorMissedBlocks"))
            else if fieldNum <=? 0 then
              Returns (m, Some (ErrIllegalTag "ValidatorMissedBlocks" fieldNum wire))
            else if fieldNum =? 1 then
              if negb (wireType =? 2) then
                Returns (m, Some (ErrWrongWireType wireType "Address"))
              else
                match readVarint wrapU64 dAtA iNdEx with
                | VarintErr e _ => Returns (m, Some e)
                | VarintOk stringLen iNdEx =>
                    let intStringLen := wrapI64 stringLen in
                    if intStringLen <? 0 then
                      Returns (m, Some ErrInvalidLengthGenesis)
                    else
                      let postIndex := wrapI64 (iNdEx + intStringLen) in
                      if postIndex <? 0 then
                        Returns (m, Some ErrInvalidLengthGenesis)
                      else if postIndex >? l then
                        Returns (m, Some ErrUnexpectedEOF)
                      else
                        ValidatorMissedBlocks_unmarshalLoop fuel
                          {| Address := slice dAtA iNdEx postIndex;
                             MissedBlocks := MissedBlocks m |}
                          dAtA postIndex
                end
            else if fieldNum =? 2 then
              if negb (wireType =? 2) then
                Returns (m, Some (ErrWrongWireType wireType "MissedBlocks"))
              else
                match readVarint wrapI64 dAtA iNdEx with
                | VarintErr e _ => Returns (m, Some e)
                | VarintOk msglen iNdEx =>
                    if msglen <? 0 then
                      Returns (m, Some ErrInvalidLengthGenesis)
                    else
                      let postIndex := wrapI64 (iNdEx + msglen) in
                      if postIndex <? 0 then
                        Returns (m, Some ErrInvalidLengthGenesis)
                      else if postIndex >? l then
                        Returns (m, Some ErrUnexpectedEOF)
                      else
                        match MissedBlock_Unmarshal
                                {| Index := 0; Missed := false |}
                                (slice dAtA iNdEx postIndex) with
                        | Returns (e, Some err) =>
                            Returns ({| Address := Address m;
                                        MissedBlocks := MissedBlocks m ++ [e] |},
                                     Some err)
                        | Returns (e, None) =>
                            ValidatorMissedBlocks_unmarshalLoop fuel
                              {| Address := Address m;
                                 MissedBlocks := MissedBlocks m ++ [e] |}
                              dAtA postIndex
                        | Panics => Panics
                        | Diverges => Diverges
                        end
                end
            else
              let iNdEx := preIndex in
              match skipGenesis (skipn (Z.to_nat iNdEx) dAtA) with
              | Returns (_, Some err) => Returns (m, Some err)
              | Returns (skippy, None) =>
                  if skippy <? 0 then Returns (m, Some ErrInvalidLengthGenesis)
                  else if wrapI64 (iNdEx + skippy) <? 0 then
                    Returns (m, Some ErrInvalidLengthGenesis)
                  else if wrapI64 (iNdEx + skippy) >? l then
                    Returns (m, Some ErrUnexpectedEOF)
                  else
                    ValidatorMissedBlocks_unmarshalLoop fuel m dAtA
                      (wrapI64 (iNdEx + skippy))
              | Panics => Panics
              | Diverges => Diverges
              end
        end
    end
  else if iNdEx >? l then Returns (m, Some ErrUnexpectedEOF)
  else Returns (m, None).

(** [(m *ValidatorMissedBlocks) Unmarshal(dAtA)]: every turn of the loop
    reads at least one byte. *)
Definition ValidatorMissedBlocks_Unmarshal (m : ValidatorMissedBlocks)
  (dAtA : list Z) : result (ValidatorMissedBlocks * option UnmarshalError) :=
  ValidatorMissedBlocks_unmarshalLoop (S (List.length dAtA)) m dAtA 0.

(** A length-delimited field on the wire: tag, length, payload. *)
Definition delimited (tag : Z) (payload : list Z) : list Z :=
  tag :: varintBytes 10 (wrapU64 (Z.of_nat (List.length payload))) ++ payload.

(** The wire form of a [ValidatorMissedBlocks]: field 1 with the address
    when it is not empty, then field 2 once for each missed block, in
    order. *)
Definition ValidatorMissedBlocks_wire (m : ValidatorMissedBlocks) : list Z :=
  (match Address m with
   | [] => []
   | _ => delimited 10 (Address m)
   end)
  ++ flat_map (fun e => delimited 18 (MissedBlock_wire e)) (MissedBlocks m).

(** The wire form of the missed blocks: field 2 once for each. *)
Definition blocksWire (bs : list MissedBlock) : list Z :=
  flat_map (fun e => delimited 18 (MissedBlock_wire e)) bs.

(** The index of the block is an [int64], as in the source. *)
Definition int64Index (e : MissedBlock) : Prop := - 2 ^ 63 <= Index e < 2 ^ 63.

(** What [Unmarshal] makes of a message [m0] on the wire form of [m]. *)
Definition merged (m0 m : ValidatorMissedBlocks) : ValidatorMissedBlocks :=
  {| Address := match Address m with [] => Address m0 | _ => Address m end;
     MissedBlocks := MissedBlocks m0 ++ MissedBlocks m |}.

(** The number of fields in the wire form. *)
Definition fieldCount (m : ValidatorMissedBlocks) : nat :=
  (match Address m with [] => 0 | _ => 1 end + List.length (MissedBlocks m))%nat.

(** [sozGenesis(x)]: the size of the zigzag form of [x]. *)
Definition sozGenesis (x : Z) : Z :=
  sovGenesis
    (wrapU64 (Z.lxor (wrapU64 (Z.shiftl x 1))
                (wrapU64 (Z.shiftr (wrapI64 x) 63)))).

End genesispb.

(** ** Tactics for the comparisons of [checkValidity] *)

Ltac split_guard :=
  match goal with
  | |- context [?a >=? ?b] =>
      let G := fresh "G" in
      destruct (a >=? b) eqn:G;
      [ rewrite Z.geb_leb in G; apply Z.leb_le in G
      | rewrite Z.geb_leb in G; apply Z.leb_gt in G ]
  | |- context [?a <=? ?b] =>
      let G := fresh "G" in
      destruct (Z.leb_spec a b) as [G | G]
  end.

Ltac decide_guard :=
  match goal with
  | |- context [?a >=? ?b] =>
      first
        [ replace (a >=? b) with true
            by (symmetry; rewrite Z.geb_leb; apply Z.leb_le; lia)
        | replace (a >=? b) with false
            by (symmetry; rewrite Z.geb_leb; apply Z.leb_gt; lia) ]
  | |- context [?a <=? ?b] =>
      first
        [ replace (a <=? b) with true by (symmetry; apply Z.leb_le; lia)
        | replace (a <=? b) with false by (symmetry; apply Z.leb_gt; lia) ]
  end.

(** ** Facts about Go's time arithmetic *)

Lemma saturate_range (d : Z) : GoTime.isDuration (GoTime.saturate d).
Proof.
  unfold GoTime.isDuration, GoTime.saturate.
  destruct (Z.ltb_spec d GoTime.minDuration) as [Hlo | Hlo].
  - unfold GoTime.minDuration, GoTime.maxDuration. lia.
  - destruct (Z.ltb_spec GoTime.maxDuration d) as [Hhi | Hhi].
    + unfold GoTime.minDuration, GoTime.maxDuration. lia.
    + lia.
Qed.

Lemma saturate_fits (d : Z) : GoTime.isDuration d -> GoTime.saturate d = d.
Proof.
  unfold GoTime.isDuration, GoTime.saturate. intros [Hlo Hhi].
  destruct (Z.ltb_spec d GoTime.minDuration); [lia |].
  destruct (Z.ltb_spec GoTime.maxDuration d); [lia | reflexivity].
Qed.

Lemma saturate_upper (d : Z) : GoTime.saturate d <= Z.max d GoTime.minDuration.
Proof.
  unfold GoTime.saturate.
  destruct (Z.ltb_spec d GoTime.minDuration); [lia |].
  destruct (Z.ltb_spec GoTime.maxDuration d); lia.
Qed.

Lemma Sub_self (t : GoTime.Time) : GoTime.Sub t t = 0.
Proof.
  unfold GoTime.Sub. rewrite Z.sub_diag. reflexivity.
Qed.

Lemma Sub_Add_fits (t : GoTime.Time) (d : GoTime.Duration) :
  GoTime.isDuration d -> GoTime.Sub (GoTime.Add t d) t = d.
Proof.
  intros Hd. unfold GoTime.Sub, GoTime.Add.
  replace (t + d - t) with d by lia. now apply saturate_fits.
Qed.

Lemma Unix_monotone (t u : GoTime.Time) :
  t <= u -> GoTime.Unix t <= GoTime.Unix u.
Proof.
  intros Htu. unfold GoTime.Unix, GoTime.Second.
  apply Z.div_le_mono; lia.
Qed.

(** ** [checkValidity] and its return sites *)

Section Properties.

Context {tm : TendermintLibrary}.

(** Every run of [checkValidity] ends at one of its return sites. *)
Lemma checkValidity_returns
  (cs : types.ClientState) (h : types.Header) (now : GoTime.Time) :
  returns cs h now (fst (checkValidity cs h now)) (snd (checkValidity cs h now)).
Proof.
  unfold checkValidity.
  split_guard; [now apply ReturnTrustingPeriodExpired; lia |].
  split_guard; [now apply ReturnOutsideTrustingPeriod; lia |].
  split_guard; [now apply ReturnBlocktime |].
  split_guard; [now apply ReturnHeight |].
  assert (Hpass : temporalChecksPass cs h now)
    by (unfold temporalChecksPass; repeat split; lia).
  unfold bind, orReturn, logged.
  destruct (SignedHeaderFromProto (types.SignedHeader (types.LastHeader cs)))
    as [tsh | e] eqn:E1; [| now apply ReturnLastSignedHeader].
  destruct (ValidatorSetFromProto (types.ValidatorSet (types.LastHeader cs)))
    as [tvs | e] eqn:E2; [| now apply (ReturnLastValset cs h now tsh)].
  destruct (SignedHeaderFromProto (types.SignedHeader h))
    as [ush | e] eqn:E3; [| now apply (ReturnNewSignedHeader cs h now tsh tvs)].
  destruct (ValidatorSetFromProto (types.ValidatorSet h))
    as [uvs | e] eqn:E4; [| now apply (ReturnNewValset cs h now tsh tvs ush)].
  assert (Hhanded : handedToVerifier cs h now tsh tvs ush uvs)
    by (unfold handedToVerifier; auto).
  destruct (lite_Verify _ tsh tvs ush uvs _ _ _ _) as [err |] eqn:E5; cbn.
  - now apply (ReturnVerifyFailed cs h now tsh tvs ush uvs).
  - now apply (ReturnNil cs h now tsh tvs ush uvs).
Qed.

(** Conversely, a return site whose conditions hold is where the run ends. *)
Lemma returns_checkValidity
  (cs : types.ClientState) (h : types.Header) (now : GoTime.Time)
  (log : list Call) (out : outcome unit) :
  returns cs h now log out -> checkValidity cs h now = (log, out).
Proof.
  intros Hr. unfold checkValidity.
  destruct Hr as
    [ H1 | H1 H2 | H1 H2 H3 | H1 H2 H3 H4
    | e Hp E1 | tsh e Hp E1 E2 | tsh tvs e Hp E1 E2 E3
    | tsh tvs ush e Hp E1 E2 E3 E4
    | tsh tvs ush uvs err (Hp & E1 & E2 & E3 & E4) E5
    | tsh tvs ush uvs (Hp & E1 & E2 & E3 & E4) E5 ];
    try (destruct Hp as (H1 & H2 & H3 & H4));
    repeat decide_guard; try reflexivity;
    unfold bind, orReturn, logged; rewrite ?E1, ?E2, ?E3, ?E4; try reflexivity;
    unfold verifierAnswer in E5; rewrite E5; reflexivity.
Qed.

Lemma checkValidity_iff
  (cs : types.ClientState) (h : types.Header) (now : GoTime.Time)
  (log : list Call) (out : outcome unit) :
  checkValidity cs h now = (log, out) <-> returns cs h now log out.
Proof.
  split.
  - intros E. pose proof (checkValidity_returns cs h now) as Hr.
    rewrite E in Hr. exact Hr.
  - apply returns_checkValidity.
Qed.

(** ** [CheckValidityAndUpdateState] on Tendermint arguments *)

Lemma CheckValidityAndUpdateState_log
  (cs : types.ClientState) (h : types.Header) (now : GoTime.Time) :
  fst (CheckValidityAndUpdateState
         (exported.TendermintClientState cs) (exported.TendermintHeader h) now)
  = fst (checkValidity cs h now).
Proof.
  cbn. destruct (checkValidity cs h now) as [log [[] | err]]; reflexivity.
Qed.

Lemma CheckValidityAndUpdateState_raise
  (cs : types.ClientState) (h : types.Header) (now : GoTime.Time)
  (log : list Call) (err : error) :
  returns cs h now log (Raise err) ->
  CheckValidityAndUpdateState
    (exported.TendermintClientState cs) (exported.TendermintHeader h) now
  = (log, {| ret_clientState := exported.NilClientState;
             ret_consensusState := exported.NilConsensusState;
             ret_err := Some err |}).
Proof.
  intros Hr. apply returns_checkValidity in Hr. cbn. now rewrite Hr.
Qed.

Lemma CheckValidityAndUpdateState_done
  (cs : types.ClientState) (h : types.Header) (now : GoTime.Time)
  (log : list Call) :
  returns cs h now log (Done tt) ->
  CheckValidityAndUpdateState
    (exported.TendermintClientState cs) (exported.TendermintHeader h) now
  = (log, {| ret_clientState :=
               exported.TendermintClientState (fst (update cs h));
             ret_consensusState :=
               exported.TendermintConsensusState (snd (update cs h));
             ret_err := None |}).
Proof.
  intros Hr. apply returns_checkValidity in Hr. cbn. now rewrite Hr.
Qed.

(** The error returned is the one [checkValidity] raised. *)
Lemma CheckValidityAndUpdateState_err
  (cs : types.ClientState) (h : types.Header) (now : GoTime.Time) :
  ret_err (snd (CheckValidityAndUpdateState
                  (exported.TendermintClientState cs)
                  (exported.TendermintHeader h) now))
  = match snd (checkValidity cs h now) with
    | Raise err => Some err
    | Done _ => None
    end.
Proof.
  cbn. destruct (checkValidity cs h now) as [log [[] | err]]; reflexivity.
Qed.

(** A successful call was made on Tendermint arguments, went through
    every check, and returns what [update] builds. *)
Lemma success_inversion
  (clientState : exported.ClientState) (header : exported.Header)
  (now : GoTime.Time) (cs' : types.ClientState) (c : types.ConsensusState) :
  succeedsWith (CheckValidityAndUpdateState clientState header now) cs' c ->
  exists cs h,
    clientState = exported.TendermintClientState cs /\
    header = exported.TendermintHeader h /\
    returns cs h now (fst (checkValidity cs h now)) (Done tt) /\
    cs' = fst (update cs h) /\ c = snd (update cs h).
Proof.
  unfold succeedsWith.
  destruct clientState as [| cs | t]; try (cbn; discriminate).
  destruct header as [| h | t]; try (cbn; discriminate).
  intros Hs. exists cs, h.
  pose proof (checkValidity_returns cs h now) as Hr.
  cbn in Hs. destruct (checkValidity cs h now) as [log [[] | err]];
    cbn in *; [| discriminate].
  injection Hs as Hcs Hc. subst. auto.
Qed.

(** A header that is not newer than the latest one, by height or by
    time, ends at one of the four comparisons. *)
Lemma not_newer_rejected
  (cs : types.ClientState) (h : types.Header) (now : GoTime.Time) :
  types.GetHeight h <= types.GetLatestHeight cs \/
  types.GetTime h <= types.GetLatestTimestamp cs ->
  exists err,
    returns cs h now [] (Raise err) /\ isTemporalViolation err = true.
Proof.
  intros Hstale.
  destruct (Z_lt_le_dec (GoTime.Sub now (types.GetLatestTimestamp cs))
              (types.TrustingPeriod cs)) as [H1 | H1].
  2: { eexists. split; [apply ReturnTrustingPeriodExpired; lia | reflexivity]. }
  destruct (Z_lt_le_dec
              (GoTime.Sub (types.GetTime h) (types.GetLatestTimestamp cs))
              (types.TrustingPeriod cs)) as [H2 | H2].
  2: { eexists. split; [apply ReturnOutsideTrustingPeriod; lia | reflexivity]. }
  destruct (Z_lt_le_dec (GoTime.Unix (types.GetLatestTimestamp cs))
              (GoTime.Unix (types.GetTime h))) as [H3 | H3].
  2: { eexists. split; [now apply ReturnBlocktime | reflexivity]. }
  destruct Hstale as [Hheight | Htime].
  - eexists. split; [now apply ReturnHeight | reflexivity].
  - apply Unix_monotone in Htime. lia.
Qed.

(** After [update], the header just applied is the latest one. *)
Lemma update_latest (cs : types.ClientState) (h : types.Header) :
  types.GetLatestHeight (fst (update cs h)) = types.GetHeight h /\
  types.GetLatestTimestamp (fst (update cs h)) = types.GetTime h.
Proof.
  split; reflexivity.
Qed.

(** On replay within a positive trusting period it is the block-time
    comparison, not the height comparison, that rejects. *)
Lemma replay_ends_at_blocktime
  (cs : types.ClientState) (h : types.Header) (now' : GoTime.Time) :
  0 < types.TrustingPeriod cs ->
  GoTime.Sub now' (types.GetTime h) < types.TrustingPeriod cs ->
  checkValidity (fst (update cs h)) h now'
  = ([], Raise (ErrNonMonotonicTimestamp (fst (update cs h)) h)).
Proof.
  intros Hpos Hnow. apply returns_checkValidity.
  unfold ErrNonMonotonicTimestamp.
  apply ReturnBlocktime;
    change (types.GetLatestTimestamp (fst (update cs h))) with (types.GetTime h);
    change (types.TrustingPeriod (fst (update cs h)))
      with (types.TrustingPeriod cs);
    rewrite ?Sub_self; lia.
Qed.

(** A wrapper is never the error it wraps. *)
Lemma Wrapped_neq_parent (err : error) (m : message) : Wrapped err m <> err.
Proof.
  induction err as [r | t | parent IH m']; try discriminate.
  intros E. injection E as Eparent Emsg. subst m'. now apply IH.
Qed.

End Properties.

(** ** The client state machine *)

Section ClientStateMachine.

Context {tm : TendermintLibrary}.

Local Abbreviation Tendermint := exported.TendermintClientState.
Local Abbreviation Candidate := exported.TendermintHeader.

(** C1, as the code has it: [CheckValidityAndUpdateState] never reads the
    [frozen] flag.  For every client state, header and current timestamp,
    the call on the client with the flag set to [b] makes the same library
    calls and returns the same error and the same consensus state as the
    call on the client as it is, and the client state it returns differs
    only in carrying that flag. *)
Theorem frozen_flag_not_consulted
  (cs : types.ClientState) (header : exported.Header) (now : GoTime.Time)
  (b : bool) :
  CheckValidityAndUpdateState (Tendermint (types.set_Frozen cs b)) header now
  = (fst (CheckValidityAndUpdateState (Tendermint cs) header now),
     {| ret_clientState :=
          withFrozen b
            (ret_clientState
               (snd (CheckValidityAndUpdateState (Tendermint cs) header now)));
        ret_consensusState :=
          ret_consensusState
            (snd (CheckValidityAndUpdateState (Tendermint cs) header now));
        ret_err :=
          ret_err
            (snd (CheckValidityAndUpdateState (Tendermint cs) header now)) |}).
Proof.
  destruct header as [| h | t]; try reflexivity.
  cbn.
  change (checkValidity (types.set_Frozen cs b) h now)
    with (checkValidity cs h now).
  destruct (checkValidity cs h now) as [log [[] | err]]; reflexivity.
Qed.

(** C2, as the code has it: for every successful call, the returned
    consensus state has the candidate's height, the candidate's timestamp,
    the Merkle root made of the candidate's app hash, and the candidate's
    own validator set (the set itself, not a hash, and not the next
    set). *)
Theorem consensus_state_of_candidate
  (clientState : exported.ClientState) (header : exported.Header)
  (now : GoTime.Time) (cs' : types.ClientState) (c : types.ConsensusState) :
  succeedsWith (CheckValidityAndUpdateState clientState header now) cs' c ->
  exists h,
    header = Candidate h /\
    types.cons_Height c = types.GetHeight h /\
    types.cons_Timestamp c = types.GetTime h /\
    types.cons_Root c
    = types.NewMerkleRoot
        (tmproto.AppHash (tmproto.sh_Header (types.SignedHeader h))) /\
    types.cons_ValidatorSet c = types.ValidatorSet h.
Proof.
  intros Hs.
  apply success_inversion in Hs as (cs & h & _ & Hh & _ & _ & Hc).
  exists h. subst c. repeat split; assumption.
Qed.

(** C3: a candidate whose height is at most the latest trusted height, or
    whose timestamp is at most the latest trusted timestamp, is rejected
    with the error of a temporal check, and no call into the library (so
    no call of the trust verifier) is made on that input. *)
Theorem stale_candidate_rejected_before_verification
  (cs : types.ClientState) (h : types.Header) (now : GoTime.Time) :
  types.GetHeight h <= types.GetLatestHeight cs \/
  types.GetTime h <= types.GetLatestTimestamp cs ->
  exists err,
    rejectedUpFront
      (CheckValidityAndUpdateState (Tendermint cs) (Candidate h) now) err /\
    isTemporalViolation err = true /\
    verifierCalls
      (fst (CheckValidityAndUpdateState (Tendermint cs) (Candidate h) now))
    = 0%nat.
Proof.
  intros Hstale.
  destruct (not_newer_rejected cs h now Hstale) as (err & Hr & Htemporal).
  exists err. unfold rejectedUpFront.
  rewrite (CheckValidityAndUpdateState_raise cs h now [] err Hr).
  repeat split; assumption.
Qed.

(** C4, as the code has it: when both trusting-period checks pass, the
    call returns the block-time error exactly when the candidate's
    timestamp in whole Unix seconds is at most the latest header's, and,
    that check passing, returns the height error exactly when the
    candidate's height is at most the latest height.  Both errors wrap
    [ErrInvalidHeader]. *)
Theorem monotonicity_checks
  (cs : types.ClientState) (h : types.Header) (now : GoTime.Time) :
  GoTime.Sub now (types.GetLatestTimestamp cs) < types.TrustingPeriod cs ->
  GoTime.Sub (types.GetTime h) (types.GetLatestTimestamp cs)
    < types.TrustingPeriod cs ->
  (ret_err (snd (CheckValidityAndUpdateState (Tendermint cs) (Candidate h) now))
   = Some (ErrNonMonotonicTimestamp cs h)
   <-> GoTime.Unix (types.GetTime h)
       <= GoTime.Unix (types.GetLatestTimestamp cs)) /\
  (GoTime.Unix (types.GetLatestTimestamp cs) < GoTime.Unix (types.GetTime h) ->
   (ret_err (snd (CheckValidityAndUpdateState (Tendermint cs) (Candidate h) now))
    = Some (ErrNonMonotonicHeight cs h)
    <-> types.GetHeight h <= types.GetLatestHeight cs)) /\
  Is (ErrNonMonotonicTimestamp cs h) ErrInvalidHeader /\
  Is (ErrNonMonotonicHeight cs h) ErrInvalidHeader.
Proof.
  intros H1 H2.
  rewrite CheckValidityAndUpdateState_err.
  pose proof (checkValidity_returns cs h now) as Hr.
  destruct (checkValidity cs h now) as [log out]. cbn [fst snd] in *.
  unfold ErrNonMonotonicTimestamp, ErrNonMonotonicHeight.
  repeat split; try reflexivity.
  - intros E. inversion Hr; subst; try discriminate; try lia.
    all: match goal with
         | Hp : temporalChecksPass _ _ _ |- _ => idtac
         | Hp : handedToVerifier _ _ _ _ _ _ _ |- _ => idtac
         end; try discriminate.
  - intros H3. inversion Hr; subst; try reflexivity; try lia.
    all: match goal with
         | Hp : temporalChecksPass _ _ _ |- _ => destruct Hp as (_ & _ & ? & _)
         | Hp : handedToVerifier _ _ _ _ _ _ _ |- _ =>
             destruct Hp as ((_ & _ & ? & _) & _)
         end; lia.
  - intros E. inversion Hr; subst; try discriminate; try lia.
  - intros H4. inversion Hr; subst; try reflexivity; try lia.
    all: match goal with
         | Hp : temporalChecksPass _ _ _ |- _ => destruct Hp as (_ & _ & _ & ?)
         | Hp : handedToVerifier _ _ _ _ _ _ _ |- _ =>
             destruct Hp as ((_ & _ & _ & ?) & _)
         end; lia.
Qed.

(** C5: for a client state whose trusting period is a [Duration], a
    candidate whose timestamp is exactly the latest timestamp plus the
    trusting period is rejected before any library call, by one of the two
    trusting-period checks (by the header's own when the client has not
    expired); a candidate one nanosecond earlier is never rejected by the
    header's trusting-period check, and is accepted when everything else
    about it is valid. *)
Theorem trusting_period_boundary
  (cs : types.ClientState) (h : types.Header) (now : GoTime.Time) :
  GoTime.isDuration (types.TrustingPeriod cs) ->
  (types.GetTime h
   = GoTime.Add (types.GetLatestTimestamp cs) (types.TrustingPeriod cs) ->
   exists err,
     rejectedUpFront
       (CheckValidityAndUpdateState (Tendermint cs) (Candidate h) now) err /\
     isTemporalViolation err = true /\
     (GoTime.Sub now (types.GetLatestTimestamp cs) < types.TrustingPeriod cs ->
      err = ErrHeaderOutsideTrustingPeriod)) /\
  (types.GetTime h
   = GoTime.Add (types.GetLatestTimestamp cs)
       (types.TrustingPeriod cs - GoTime.Nanosecond) ->
   ret_err (snd (CheckValidityAndUpdateState (Tendermint cs) (Candidate h) now))
   <> Some ErrHeaderOutsideTrustingPeriod /\
   forall tsh tvs ush uvs,
     GoTime.Sub now (types.GetLatestTimestamp cs) < types.TrustingPeriod cs ->
     GoTime.Unix (types.GetLatestTimestamp cs) < GoTime.Unix (types.GetTime h) ->
     types.GetLatestHeight cs < types.GetHeight h ->
     SignedHeaderFromProto (types.SignedHeader (types.LastHeader cs))
     = Converted tsh ->
     ValidatorSetFromProto (types.ValidatorSet (types.LastHeader cs))
     = Converted tvs ->
     SignedHeaderFromProto (types.SignedHeader h) = Converted ush ->
     ValidatorSetFromProto (types.ValidatorSet h) = Converted uvs ->
     verifierAnswer cs now tsh tvs ush uvs = None ->
     succeedsWith
       (CheckValidityAndUpdateState (Tendermint cs) (Candidate h) now)
       (fst (update cs h)) (snd (update cs h))).
Proof.
  intros Hperiod. split.
  - intros Htime.
    assert (Hsub : GoTime.Sub (types.GetTime h) (types.GetLatestTimestamp cs)
                   = types.TrustingPeriod cs)
      by (rewrite Htime; now apply Sub_Add_fits).
    destruct (Z_lt_le_dec (GoTime.Sub now (types.GetLatestTimestamp cs))
                (types.TrustingPeriod cs)) as [H1 | H1].
    + exists ErrHeaderOutsideTrustingPeriod. unfold rejectedUpFront.
      rewrite (CheckValidityAndUpdateState_raise cs h now []
                 ErrHeaderOutsideTrustingPeriod).
      * repeat split; reflexivity.
      * apply ReturnOutsideTrustingPeriod; lia.
    + eexists. unfold rejectedUpFront.
      rewrite (CheckValidityAndUpdateState_raise cs h now [] _
                 (ReturnTrustingPeriodExpired cs h now ltac:(lia))).
      repeat split; try reflexivity. lia.
  - intros Htime.
    assert (Hsub : GoTime.Sub now (types.GetLatestTimestamp cs)
                   < types.TrustingPeriod cs ->
                   GoTime.Sub (types.GetTime h) (types.GetLatestTimestamp cs)
                   < types.TrustingPeriod cs).
    { intros H1.
      pose proof (saturate_range (now - types.GetLatestTimestamp cs)) as [Hlo _].
      fold (GoTime.Sub now (types.GetLatestTimestamp cs)) in Hlo.
      rewrite Htime. unfold GoTime.Sub, GoTime.Add, GoTime.Nanosecond.
      pose proof (saturate_upper
                    (types.GetLatestTimestamp cs + (types.TrustingPeriod cs - 1)
                     - types.GetLatestTimestamp cs)).
      lia. }
    split.
    + rewrite CheckValidityAndUpdateState_err.
      pose proof (checkValidity_returns cs h now) as Hr.
      destruct (checkValidity cs h now) as [log out]. cbn [fst snd] in *.
      unfold ErrHeaderOutsideTrustingPeriod.
      inversion Hr; subst; try discriminate.
      match goal with
      | H1 : GoTime.Sub now _ < _ |- _ => specialize (Hsub H1)
      end.
      lia.
    + intros tsh tvs ush uvs H1 H3 H4 E1 E2 E3 E4 E5.
      unfold succeedsWith.
      rewrite (CheckValidityAndUpdateState_done cs h now _
                 (ReturnNil cs h now tsh tvs ush uvs
                    (conj (conj H1 (conj (Hsub H1) (conj H3 H4)))
                       (conj E1 (conj E2 (conj E3 E4)))) E5)).
      reflexivity.
Qed.

(** C6: when a call succeeds and returns a client state, applying the
    same candidate to that client state, at whatever current timestamp,
    fails with the error of a temporal check, with no call into the
    library. *)
Theorem replay_rejected
  (clientState : exported.ClientState) (header : exported.Header)
  (now : GoTime.Time) (cs' : types.ClientState) (c : types.ConsensusState) :
  succeedsWith (CheckValidityAndUpdateState clientState header now) cs' c ->
  forall now' : GoTime.Time,
  exists err,
    rejectedUpFront (CheckValidityAndUpdateState (Tendermint cs') header now') err /\
    isTemporalViolation err = true /\
    verifierCalls (fst (CheckValidityAndUpdateState (Tendermint cs') header now'))
    = 0%nat.
Proof.
  intros Hs now'.
  apply success_inversion in Hs as (cs & h & _ & Hh & _ & Hcs' & _).
  subst header cs'.
  destruct (update_latest cs h) as [Hheight _].
  destruct (not_newer_rejected (fst (update cs h)) h now') as (err & Hr & Htemporal).
  - left. rewrite Hheight. lia.
  - exists err. unfold rejectedUpFront.
    rewrite (CheckValidityAndUpdateState_raise _ h now' [] err Hr).
    repeat split; assumption.
Qed.

(** C7, as the code has it: when the header reaches the trust verifier
    and the verifier fails, the call returns the verifier's error wrapped
    with the description [failed to verify header]: the verifier's error
    is the parent of the returned error and has the same root cause, and
    the returned error is not the verifier's error itself. *)
Theorem verifier_error_wrapped
  (cs : types.ClientState) (h : types.Header) (now : GoTime.Time)
  (tsh : tm_SignedHeader) (tvs : tm_ValidatorSet)
  (ush : tm_SignedHeader) (uvs : tm_ValidatorSet) (err : error) :
  handedToVerifier cs h now tsh tvs ush uvs ->
  verifierAnswer cs now tsh tvs ush uvs = Some err ->
  snd (CheckValidityAndUpdateState (Tendermint cs) (Candidate h) now)
  = {| ret_clientState := exported.NilClientState;
       ret_consensusState := exported.NilConsensusState;
       ret_err := Some (Wrap err MsgFailedToVerifyHeader) |} /\
  Cause (Wrap err MsgFailedToVerifyHeader) = Cause err /\
  Wrap err MsgFailedToVerifyHeader <> err.
Proof.
  intros Hhanded Hanswer.
  rewrite (CheckValidityAndUpdateState_raise cs h now _ _
             (ReturnVerifyFailed cs h now tsh tvs ush uvs err Hhanded Hanswer)).
  repeat split. apply Wrapped_neq_parent.
Qed.

(** C8: whenever the call returns an error, the client state and the
    consensus state it returns are both nil; and whenever it returns no
    error, both are present.  The arguments are passed by value and the
    function writes to nothing else, so nothing the caller holds has
    changed. *)
Theorem error_returns_no_state
  (clientState : exported.ClientState) (header : exported.Header)
  (now : GoTime.Time) :
  (ret_err (snd (CheckValidityAndUpdateState clientState header now)) <> None ->
   ret_clientState (snd (CheckValidityAndUpdateState clientState header now))
   = exported.NilClientState /\
   ret_consensusState (snd (CheckValidityAndUpdateState clientState header now))
   = exported.NilConsensusState) /\
  (ret_err (snd (CheckValidityAndUpdateState clientState header now)) = None ->
   exists cs' c,
     succeedsWith (CheckValidityAndUpdateState clientState header now) cs' c).
Proof.
  unfold succeedsWith.
  destruct clientState as [| cs | t]; try (cbn; split; [auto | discriminate]).
  destruct header as [| h | t]; try (cbn; split; [auto | discriminate]).
  cbn. destruct (checkValidity cs h now) as [log [[] | err]]; cbn.
  - split; [congruence | eauto].
  - split; [auto | discriminate].
Qed.

(** C9: for every successful call, the returned client state is the
    input client state with [LastHeader] replaced by the candidate header;
    chain id, trust level, trusting period, unbonding period, maximum
    clock drift and the frozen flag are those of the input. *)
Theorem update_replaces_only_latest_header
  (clientState : exported.ClientState) (header : exported.Header)
  (now : GoTime.Time) (cs' : types.ClientState) (c : types.ConsensusState) :
  succeedsWith (CheckValidityAndUpdateState clientState header now) cs' c ->
  exists cs h,
    clientState = Tendermint cs /\ header = Candidate h /\
    cs' = types.set_LastHeader cs h /\
    types.LastHeader cs' = h /\
    types.ChainID cs' = types.ChainID cs /\
    types.TrustLevel cs' = types.TrustLevel cs /\
    types.TrustingPeriod cs' = types.TrustingPeriod cs /\
    types.UnbondingPeriod cs' = types.UnbondingPeriod cs /\
    types.MaxClockDrift cs' = types.MaxClockDrift cs /\
    types.Frozen cs' = types.Frozen cs.
Proof.
  intros Hs.
  apply success_inversion in Hs as (cs & h & Hcs & Hh & _ & Hcs' & _).
  exists cs, h. subst cs'. repeat split; assumption.
Qed.

(** C10: a client state argument that is not a Tendermint client state
    makes the call return nil, nil and [ErrInvalidClientType] wrapped
    with the expected and the actual type; with a Tendermint client
    state, a header argument that is not a Tendermint header makes it
    return nil, nil and [ErrInvalidHeader] wrapped likewise.  In either
    case no comparison is made and the library is not called. *)
Theorem foreign_arguments_rejected
  (clientState : exported.ClientState) (header : exported.Header)
  (now : GoTime.Time) :
  (isTendermintClientState clientState = false ->
   rejectedUpFront (CheckValidityAndUpdateState clientState header now)
     (Wrapf (Registered ErrInvalidClientType)
        (MsgExpectedType "types.ClientState"
           (exported.TypeOfClientState clientState)))) /\
  (isTendermintClientState clientState = true ->
   isTendermintHeader header = false ->
   rejectedUpFront (CheckValidityAndUpdateState clientState header now)
     (Wrapf (Registered ErrInvalidHeader)
        (MsgExpectedType "types.Header" (exported.TypeOfHeader header)))) /\
  (isTendermintClientState clientState = false \/
   isTendermintHeader header = false ->
   exists err,
     rejectedUpFront (CheckValidityAndUpdateState clientState header now) err /\
     (Is err ErrInvalidClientType \/ Is err ErrInvalidHeader)).
Proof.
  unfold rejectedUpFront.
  destruct clientState as [| cs | t]; destruct header as [| h | t'];
    cbn [isTendermintClientState isTendermintHeader];
    repeat split; intros; try discriminate; try reflexivity;
    try (eexists; split; [reflexivity | (left; reflexivity) || (right; reflexivity)]).
  all: match goal with
       | H : _ \/ _ |- _ => destruct H; discriminate
       end.
Qed.

End ClientStateMachine.

(** ** The claims on concrete inputs *)

(** Against C1 as stated: on a frozen client, a newer header that the
    verifier accepts is applied: the call returns no error, let alone
    [ErrClientFrozen], and the trust verifier is invoked once. *)
Lemma frozen_client_is_updated :
  types.Frozen frozenClient = true /\
  ret_err
    (snd (@CheckValidityAndUpdateState acceptingLibrary
            (exported.TendermintClientState frozenClient)
            (exported.TendermintHeader freshHeader) now12))
  = None /\
  ~ (exists err,
       ret_err
         (snd (@CheckValidityAndUpdateState acceptingLibrary
                 (exported.TendermintClientState frozenClient)
                 (exported.TendermintHeader freshHeader) now12))
       = Some err /\ Is err ErrClientFrozen) /\
  verifierCalls
    (fst (@CheckValidityAndUpdateState acceptingLibrary
            (exported.TendermintClientState frozenClient)
            (exported.TendermintHeader freshHeader) now12))
  = 1%nat.
Proof.
  repeat split; try reflexivity.
  intros (err & Herr & _). vm_compute in Herr. discriminate.
Qed.

(** Against C2 as stated: two accepted candidates that differ only in
    their next-validators hash give the same consensus state, whose
    validator component is the candidate's own validator set; so the
    consensus state does not hold the hash of the next validator set. *)
Lemma next_validators_hash_not_stored :
  tmproto.NextValidatorsHash (tmproto.sh_Header (types.SignedHeader freshHeader))
  <> tmproto.NextValidatorsHash
       (tmproto.sh_Header (types.SignedHeader freshHeaderOtherNext)) /\
  ret_err
    (snd (@CheckValidityAndUpdateState acceptingLibrary
            (exported.TendermintClientState activeClient)
            (exported.TendermintHeader freshHeader) now12)) = None /\
  ret_err
    (snd (@CheckValidityAndUpdateState acceptingLibrary
            (exported.TendermintClientState activeClient)
            (exported.TendermintHeader freshHeaderOtherNext) now12)) = None /\
  ret_consensusState
    (snd (@CheckValidityAndUpdateState acceptingLibrary
            (exported.TendermintClientState activeClient)
            (exported.TendermintHeader freshHeader) now12))
  = ret_consensusState
      (snd (@CheckValidityAndUpdateState acceptingLibrary
              (exported.TendermintClientState activeClient)
              (exported.TendermintHeader freshHeaderOtherNext) now12)) /\
  ret_consensusState
    (snd (@CheckValidityAndUpdateState acceptingLibrary
            (exported.TendermintClientState activeClient)
            (exported.TendermintHeader freshHeader) now12))
  = exported.TendermintConsensusState
      {| types.cons_Height := 4;
         types.cons_Timestamp := 11 * GoTime.Second;
         types.cons_Root := types.NewMerkleRoot [x06];
         types.cons_ValidatorSet := types.ValidatorSet freshHeader |}.
Proof.
  repeat split; try reflexivity.
  cbn. discriminate.
Qed.

(** Against C4 as stated: both trusting-period checks pass and the
    candidate's timestamp is strictly after the latest one, by a
    nanosecond, yet the call returns the block-time error. *)
Lemma later_timestamp_in_same_second_rejected :
  GoTime.Sub now12 (types.GetLatestTimestamp activeClient)
    < types.TrustingPeriod activeClient /\
  GoTime.Sub (types.GetTime sameSecondHeader)
    (types.GetLatestTimestamp activeClient)
    < types.TrustingPeriod activeClient /\
  ret_err
    (snd (@CheckValidityAndUpdateState acceptingLibrary
            (exported.TendermintClientState activeClient)
            (exported.TendermintHeader sameSecondHeader) now12))
  = Some (ErrNonMonotonicTimestamp activeClient sameSecondHeader) /\
  ~ (types.GetTime sameSecondHeader <= types.GetLatestTimestamp activeClient).
Proof.
  repeat split; try reflexivity.
  vm_compute. intros H. apply H. reflexivity.
Qed.

(** Against C7 as stated: the verifier fails with [invalid commit]; the
    call does not return that error but a wrapper around it. *)
Lemma verifier_error_not_verbatim :
  @handedToVerifier rejectingLibrary activeClient freshHeader now12
    (types.SignedHeader (types.LastHeader activeClient)) testValSet
    (types.SignedHeader freshHeader) testValSet /\
  @verifierAnswer rejectingLibrary activeClient now12
    (types.SignedHeader (types.LastHeader activeClient)) testValSet
    (types.SignedHeader freshHeader) testValSet
  = Some (Foreign "invalid commit") /\
  ret_err
    (snd (@CheckValidityAndUpdateState rejectingLibrary
            (exported.TendermintClientState activeClient)
            (exported.TendermintHeader freshHeader) now12))
  <> Some (Foreign "invalid commit").
Proof.
  repeat split; try reflexivity.
  vm_compute. discriminate.
Qed.

(** The accepted update of the examples succeeds. *)
Lemma fresh_update_succeeds :
  succeedsWith
    (@CheckValidityAndUpdateState acceptingLibrary
       (exported.TendermintClientState activeClient)
       (exported.TendermintHeader freshHeader) now12)
    (types.set_LastHeader activeClient freshHeader)
    (snd (update activeClient freshHeader)).
Proof.
  reflexivity.
Qed.

Lemma consensus_state_of_candidate_witness :
  succeedsWith
    (@CheckValidityAndUpdateState acceptingLibrary
       (exported.TendermintClientState activeClient)
       (exported.TendermintHeader freshHeader) now12)
    (types.set_LastHeader activeClient freshHeader)
    (snd (update activeClient freshHeader)) /\
  exists h,
    exported.TendermintHeader freshHeader = exported.TendermintHeader h /\
    types.cons_Height (snd (update activeClient freshHeader)) = types.GetHeight h /\
    types.cons_Timestamp (snd (update activeClient freshHeader)) = types.GetTime h /\
    types.cons_Root (snd (update activeClient freshHeader))
    = types.NewMerkleRoot
        (tmproto.AppHash (tmproto.sh_Header (types.SignedHeader h))) /\
    types.cons_ValidatorSet (snd (update activeClient freshHeader))
    = types.ValidatorSet h.
Proof.
  split; [reflexivity |].
  apply (@consensus_state_of_candidate acceptingLibrary
           (exported.TendermintClientState activeClient)
           (exported.TendermintHeader freshHeader) now12
           (types.set_LastHeader activeClient freshHeader)
           (snd (update activeClient freshHeader))).
  reflexivity.
Defined.

Lemma stale_candidate_rejected_before_verification_witness :
  (types.GetHeight staleHeader <= types.GetLatestHeight activeClient \/
   types.GetTime staleHeader <= types.GetLatestTimestamp activeClient) /\
  exists err,
    rejectedUpFront
      (@CheckValidityAndUpdateState acceptingLibrary
         (exported.TendermintClientState activeClient)
         (exported.TendermintHeader staleHeader) now12) err /\
    isTemporalViolation err = true /\
    verifierCalls
      (fst (@CheckValidityAndUpdateState acceptingLibrary
              (exported.TendermintClientState activeClient)
              (exported.TendermintHeader staleHeader) now12))
    = 0%nat.
Proof.
  assert (Hstale : types.GetHeight staleHeader
                   <= types.GetLatestHeight activeClient \/
                   types.GetTime staleHeader
                   <= types.GetLatestTimestamp activeClient)
    by (left; vm_compute; discriminate).
  split; [exact Hstale |].
  exact (@stale_candidate_rejected_before_verification acceptingLibrary
           activeClient staleHeader now12 Hstale).
Defined.

Lemma monotonicity_checks_witness :
  GoTime.Sub now12 (types.GetLatestTimestamp activeClient)
    < types.TrustingPeriod activeClient /\
  GoTime.Sub (types.GetTime sameSecondHeader)
    (types.GetLatestTimestamp activeClient)
    < types.TrustingPeriod activeClient /\
  (ret_err
     (snd (@CheckValidityAndUpdateState acceptingLibrary
             (exported.TendermintClientState activeClient)
             (exported.TendermintHeader sameSecondHeader) now12))
   = Some (ErrNonMonotonicTimestamp activeClient sameSecondHeader)
   <-> GoTime.Unix (types.GetTime sameSecondHeader)
       <= GoTime.Unix (types.GetLatestTimestamp activeClient)).
Proof.
  assert (H1 : GoTime.Sub now12 (types.GetLatestTimestamp activeClient)
               < types.TrustingPeriod activeClient) by reflexivity.
  assert (H2 : GoTime.Sub (types.GetTime sameSecondHeader)
                 (types.GetLatestTimestamp activeClient)
               < types.TrustingPeriod activeClient) by reflexivity.
  split; [exact H1 |]. split; [exact H2 |].
  exact (proj1 (@monotonicity_checks acceptingLibrary
                  activeClient sameSecondHeader now12 H1 H2)).
Defined.

Lemma trusting_period_boundary_witness :
  GoTime.isDuration (types.TrustingPeriod activeClient) /\
  (exists err,
     rejectedUpFront
       (@CheckValidityAndUpdateState acceptingLibrary
          (exported.TendermintClientState activeClient)
          (exported.TendermintHeader boundaryHeader) now12) err /\
     isTemporalViolation err = true /\
     (GoTime.Sub now12 (types.GetLatestTimestamp activeClient)
      < types.TrustingPeriod activeClient ->
      err = ErrHeaderOutsideTrustingPeriod)) /\
  succeedsWith
    (@CheckValidityAndUpdateState acceptingLibrary
       (exported.TendermintClientState activeClient)
       (exported.TendermintHeader insideHeader) now12)
    (fst (update activeClient insideHeader))
    (snd (update activeClient insideHeader)).
Proof.
  assert (Hperiod : GoTime.isDuration (types.TrustingPeriod activeClient))
    by (vm_compute; split; discriminate).
  split; [exact Hperiod |]. split.
  - apply (proj1 (@trusting_period_boundary acceptingLibrary
                    activeClient boundaryHeader now12 Hperiod)).
    reflexivity.
  - apply (proj2 (@trusting_period_boundary acceptingLibrary
                    activeClient insideHeader now12 Hperiod)
             ltac:(reflexivity))
      with (tsh := types.SignedHeader (types.LastHeader activeClient))
           (tvs := testValSet)
           (ush := types.SignedHeader insideHeader)
           (uvs := testValSet);
      reflexivity.
Defined.

Lemma replay_rejected_witness :
  succeedsWith
    (@CheckValidityAndUpdateState acceptingLibrary
       (exported.TendermintClientState activeClient)
       (exported.TendermintHeader freshHeader) now12)
    (types.set_LastHeader activeClient freshHeader)
    (snd (update activeClient freshHeader)) /\
  exists err,
    rejectedUpFront
      (@CheckValidityAndUpdateState acceptingLibrary
         (exported.TendermintClientState
            (types.set_LastHeader activeClient freshHeader))
         (exported.TendermintHeader freshHeader) now12) err /\
    isTemporalViolation err = true /\
    verifierCalls
      (fst (@CheckValidityAndUpdateState acceptingLibrary
              (exported.TendermintClientState
                 (types.set_LastHeader activeClient freshHeader))
              (exported.TendermintHeader freshHeader) now12))
    = 0%nat.
Proof.
  assert (Hs : succeedsWith
                 (@CheckValidityAndUpdateState acceptingLibrary
                    (exported.TendermintClientState activeClient)
                    (exported.TendermintHeader freshHeader) now12)
                 (types.set_LastHeader activeClient freshHeader)
                 (snd (update activeClient freshHeader)))
    by reflexivity.
  split; [exact Hs |].
  exact (@replay_rejected acceptingLibrary _ _ _ _ _ Hs now12).
Defined.

Lemma verifier_error_wrapped_witness :
  @handedToVerifier rejectingLibrary activeClient freshHeader now12
    (types.SignedHeader (types.LastHeader activeClient)) testValSet
    (types.SignedHeader freshHeader) testValSet /\
  @verifierAnswer rejectingLibrary activeClient now12
    (types.SignedHeader (types.LastHeader activeClient)) testValSet
    (types.SignedHeader freshHeader) testValSet
  = Some (Foreign "invalid commit") /\
  ret_err
    (snd (@CheckValidityAndUpdateState rejectingLibrary
            (exported.TendermintClientState activeClient)
            (exported.TendermintHeader freshHeader) now12))
  = Some (Wrap (Foreign "invalid commit") MsgFailedToVerifyHeader).
Proof.
  assert (Hhanded :
            @handedToVerifier rejectingLibrary activeClient freshHeader now12
              (types.SignedHeader (types.LastHeader activeClient)) testValSet
              (types.SignedHeader freshHeader) testValSet)
    by (repeat split; reflexivity).
  assert (Hanswer :
            @verifierAnswer rejectingLibrary activeClient now12
              (types.SignedHeader (types.LastHeader activeClient)) testValSet
              (types.SignedHeader freshHeader) testValSet
            = Some (Foreign "invalid commit"))
    by reflexivity.
  split; [exact Hhanded |]. split; [exact Hanswer |].
  rewrite (proj1 (@verifier_error_wrapped rejectingLibrary activeClient
                    freshHeader now12 _ _ _ _ _ Hhanded Hanswer)).
  reflexivity.
Defined.

Lemma error_returns_no_state_witness :
  ret_err
    (snd (@CheckValidityAndUpdateState acceptingLibrary
            (exported.TendermintClientState activeClient)
            (exported.TendermintHeader staleHeader) now12)) <> None /\
  ret_clientState
    (snd (@CheckValidityAndUpdateState acceptingLibrary
            (exported.TendermintClientState activeClient)
            (exported.TendermintHeader staleHeader) now12))
  = exported.NilClientState /\
  ret_consensusState
    (snd (@CheckValidityAndUpdateState acceptingLibrary
            (exported.TendermintClientState activeClient)
            (exported.TendermintHeader staleHeader) now12))
  = exported.NilConsensusState.
Proof.
  assert (Herr : ret_err
                   (snd (@CheckValidityAndUpdateState acceptingLibrary
                           (exported.TendermintClientState activeClient)
                           (exported.TendermintHeader staleHeader) now12))
                 <> None)
    by (vm_compute; discriminate).
  split; [exact Herr |].
  exact (proj1 (@error_returns_no_state acceptingLibrary
                  (exported.TendermintClientState activeClient)
                  (exported.TendermintHeader staleHeader) now12) Herr).
Defined.

Lemma update_replaces_only_latest_header_witness :
  succeedsWith
    (@CheckValidityAndUpdateState acceptingLibrary
       (exported.TendermintClientState frozenClient)
       (exported.TendermintHeader freshHeader) now12)
    (types.set_LastHeader frozenClient freshHeader)
    (snd (update frozenClient freshHeader)) /\
  types.LastHeader (types.set_LastHeader frozenClient freshHeader) = freshHeader /\
  types.Frozen (types.set_LastHeader frozenClient freshHeader) = true.
Proof.
  assert (Hs : succeedsWith
                 (@CheckValidityAndUpdateState acceptingLibrary
                    (exported.TendermintClientState frozenClient)
                    (exported.TendermintHeader freshHeader) now12)
                 (types.set_LastHeader frozenClient freshHeader)
                 (snd (update frozenClient freshHeader)))
    by reflexivity.
  split; [exact Hs |].
  destruct (@update_replaces_only_latest_header acceptingLibrary _ _ _ _ _ Hs)
    as (cs & h & Hcs & Hh & _ & Hlast & _ & _ & _ & _ & _ & Hfrozen).
  injection Hcs as Hcs. injection Hh as Hh. subst cs h.
  split; [exact Hlast | exact Hfrozen].
Defined.

Lemma foreign_arguments_rejected_witness :
  isTendermintClientState (exported.OtherClientState "localhosttypes.ClientState")
  = false /\
  rejectedUpFront
    (@CheckValidityAndUpdateState acceptingLibrary
       (exported.OtherClientState "localhosttypes.ClientState")
       (exported.TendermintHeader freshHeader) now12)
    (Wrapf (Registered ErrInvalidClientType)
       (MsgExpectedType "types.ClientState" "localhosttypes.ClientState")) /\
  isTendermintHeader exported.NilHeader = false /\
  rejectedUpFront
    (@CheckValidityAndUpdateState acceptingLibrary
       (exported.TendermintClientState activeClient) exported.NilHeader now12)
    (Wrapf (Registered ErrInvalidHeader)
       (MsgExpectedType "types.Header" "<nil>")).
Proof.
  split; [reflexivity |]. split.
  - apply (proj1 (@foreign_arguments_rejected acceptingLibrary
                    (exported.OtherClientState "localhosttypes.ClientState")
                    (exported.TendermintHeader freshHeader) now12)).
    reflexivity.
  - split; [reflexivity |].
    apply (proj1 (proj2 (@foreign_arguments_rejected acceptingLibrary
                           (exported.TendermintClientState activeClient)
                           exported.NilHeader now12)));
      reflexivity.
Defined.

(** ** Further properties of [update.go] *)

Section UpdateProperties.

Context {tm : TendermintLibrary}.

Local Abbreviation Tendermint := exported.TendermintClientState.
Local Abbreviation Candidate := exported.TendermintHeader.

(** X1: the expiry of the client comes first.  The call returns
    [ErrTrustingPeriodExpired], wrapped with the elapsed time and the
    trusting period, exactly when the current time is at least a trusting
    period after the latest header; then no state is returned and the
    library is not called, whatever the candidate is. *)
Theorem expired_client_rejects_every_header
  (cs : types.ClientState) (h : types.Header) (now : GoTime.Time) :
  (GoTime.Sub now (types.GetLatestTimestamp cs) >= types.TrustingPeriod cs ->
   rejectedUpFront
     (CheckValidityAndUpdateState (Tendermint cs) (Candidate h) now)
     (Wrapf (Registered ErrTrustingPeriodExpired)
        (MsgTrustingPeriodExpired
           (GoTime.Sub now (types.GetLatestTimestamp cs))
           (types.TrustingPeriod cs)))) /\
  (ret_err (snd (CheckValidityAndUpdateState (Tendermint cs) (Candidate h) now))
   = Some (Wrapf (Registered ErrTrustingPeriodExpired)
             (MsgTrustingPeriodExpired
                (GoTime.Sub now (types.GetLatestTimestamp cs))
                (types.TrustingPeriod cs))) ->
   GoTime.Sub now (types.GetLatestTimestamp cs) >= types.TrustingPeriod cs).
Proof.
  split.
  - intros Hexpired. unfold rejectedUpFront.
    now rewrite (CheckValidityAndUpdateState_raise cs h now [] _
                   (ReturnTrustingPeriodExpired cs h now Hexpired)).
  - rewrite CheckValidityAndUpdateState_err.
    pose proof (checkValidity_returns cs h now) as Hr.
    destruct (checkValidity cs h now) as [log out]. cbn [fst snd] in *.
    intros E. inversion Hr; subst; try discriminate. assumption.
Qed.

(** X2: the library is called in one fixed order: the trusted signed
    header, the trusted validator set, the new signed header, the new
    validator set, then the verifier.  On every input the log of calls is
    an initial part of that sequence, the verifier is called at most once,
    and it is called only after all four conversions. *)
Theorem library_calls_in_order
  (cs : types.ClientState) (h : types.Header) (now : GoTime.Time) :
  exists n : nat,
    fst (CheckValidityAndUpdateState (Tendermint cs) (Candidate h) now)
    = firstn n
        [callLastSignedHeader cs; callLastValset cs; callNewSignedHeader h;
         callNewValset h; callVerify cs now] /\
    (n <= 5)%nat /\
    verifierCalls
      (fst (CheckValidityAndUpdateState (Tendermint cs) (Candidate h) now))
    = (if Nat.eqb n 5 then 1 else 0)%nat.
Proof.
  rewrite CheckValidityAndUpdateState_log.
  pose proof (checkValidity_returns cs h now) as Hr.
  destruct (checkValidity cs h now) as [log out]. cbn [fst snd] in *.
  inversion Hr; subst;
    [ exists 0%nat | exists 0%nat | exists 0%nat | exists 0%nat
    | exists 1%nat | exists 2%nat | exists 3%nat | exists 4%nat
    | exists 5%nat | exists 5%nat ];
    repeat split; cbn; lia.
Qed.

(** X3: the call on Tendermint arguments returns no error exactly when
    the four comparisons let the header through, the four conversions
    succeed and the verifier answers nil; it has then made all five
    library calls. *)
Theorem update_succeeds_iff
  (cs : types.ClientState) (h : types.Header) (now : GoTime.Time) :
  (ret_err (snd (CheckValidityAndUpdateState (Tendermint cs) (Candidate h) now))
   = None
   <-> exists tsh tvs ush uvs,
         handedToVerifier cs h now tsh tvs ush uvs /\
         verifierAnswer cs now tsh tvs ush uvs = None) /\
  (ret_err (snd (CheckValidityAndUpdateState (Tendermint cs) (Candidate h) now))
   = None ->
   fst (CheckValidityAndUpdateState (Tendermint cs) (Candidate h) now)
   = [callLastSignedHeader cs; callLastValset cs; callNewSignedHeader h;
      callNewValset h; callVerify cs now]).
Proof.
  rewrite CheckValidityAndUpdateState_err, CheckValidityAndUpdateState_log.
  pose proof (checkValidity_returns cs h now) as Hr.
  pose proof (returns_checkValidity cs h now) as Hc.
  destruct (checkValidity cs h now) as [log out]. cbn [fst snd] in *.
  repeat split.
  - intros E. inversion Hr; subst; try discriminate.
    exists tsh, tvs, ush, uvs. split; assumption.
  - intros (tsh & tvs & ush & uvs & Hhanded & Hanswer).
    specialize (Hc _ _ (ReturnNil cs h now tsh tvs ush uvs Hhanded Hanswer)).
    injection Hc as _ Hout. now subst out.
  - intros E. inversion Hr; subst; try discriminate. reflexivity.
Qed.

(** X4: what an error of the call can be.  When the verifier was not
    called, the root cause of the error is one of the registered errors
    [ErrInvalidClientType], [ErrInvalidHeader] and
    [ErrTrustingPeriodExpired]; when it was called, the error is the
    verifier's own error under the description [failed to verify
    header]. *)
Theorem error_taxonomy
  (clientState : exported.ClientState) (header : exported.Header)
  (now : GoTime.Time) (err : error) :
  ret_err (snd (CheckValidityAndUpdateState clientState header now)) = Some err ->
  (verifierCalls (fst (CheckValidityAndUpdateState clientState header now))
   = 0%nat /\
   (Is err ErrInvalidClientType \/ Is err ErrInvalidHeader \/
    Is err ErrTrustingPeriodExpired)) \/
  (verifierCalls (fst (CheckValidityAndUpdateState clientState header now))
   = 1%nat /\
   exists cs h tsh tvs ush uvs e,
     clientState = Tendermint cs /\ header = Candidate h /\
     handedToVerifier cs h now tsh tvs ush uvs /\
     verifierAnswer cs now tsh tvs ush uvs = Some e /\
     err = Wrap e MsgFailedToVerifyHeader).
Proof.
  destruct clientState as [| cs | t];
    try (cbn; intros E; injection E as <-; left; split;
         [reflexivity | left; reflexivity]).
  destruct header as [| h | t];
    try (cbn; intros E; injection E as <-; left; split;
         [reflexivity | right; left; reflexivity]).
  rewrite CheckValidityAndUpdateState_err, CheckValidityAndUpdateState_log.
  pose proof (checkValidity_returns cs h now) as Hr.
  destruct (checkValidity cs h now) as [log out]. cbn [fst snd] in *.
  intros E. inversion Hr; subst; try discriminate; injection E as <-.
  1: left; split; [reflexivity | right; right; reflexivity].
  1-7: left; split; [reflexivity | right; left; reflexivity].
  right. split; [reflexivity |].
  exists cs, h, tsh, tvs, ush, uvs. eauto 10.
Qed.

(** X5: an accepted header is strictly newer than the one it replaces, in
    height, in time and in whole seconds; the client had not expired; and,
    the trusting period being a [Duration], the header lies less than a
    trusting period after the one it replaces. *)
Theorem accepted_header_is_newer
  (clientState : exported.ClientState) (header : exported.Header)
  (now : GoTime.Time) (cs' : types.ClientState) (c : types.ConsensusState) :
  succeedsWith (CheckValidityAndUpdateState clientState header now) cs' c ->
  exists cs,
    clientState = Tendermint cs /\
    types.GetLatestHeight cs < types.GetLatestHeight cs' /\
    types.GetLatestTimestamp cs < types.GetLatestTimestamp cs' /\
    GoTime.Unix (types.GetLatestTimestamp cs)
    < GoTime.Unix (types.GetLatestTimestamp cs') /\
    GoTime.Sub now (types.GetLatestTimestamp cs) < types.TrustingPeriod cs /\
    (GoTime.isDuration (types.TrustingPeriod cs) ->
     types.GetLatestTimestamp cs' - types.GetLatestTimestamp cs
     < types.TrustingPeriod cs).
Proof.
  intros Hs.
  apply success_inversion in Hs as (cs & h & Hcs & _ & Hr & Hcs' & _).
  exists cs. subst cs'.
  destruct (update_latest cs h) as [Hheight Htime].
  rewrite Hheight, Htime.
  inversion Hr as [ | | | | | | | | | tsh tvs ush uvs Hhanded Hanswer Hlog ].
  destruct Hhanded as ((H1 & H2 & H3 & H4) & _).
  repeat split; try assumption.
  - destruct (Z_lt_le_dec (types.GetLatestTimestamp cs) (types.GetTime h))
      as [Hlt | Hge]; [assumption |].
    apply Unix_monotone in Hge. lia.
  - intros [_ Hmax]. unfold GoTime.Sub, GoTime.saturate in H2.
    destruct (Z.ltb_spec (types.GetTime h - types.GetLatestTimestamp cs)
                GoTime.minDuration) as [Hlo | Hlo].
    + unfold GoTime.minDuration in *. lia.
    + destruct (Z.ltb_spec GoTime.maxDuration
                  (types.GetTime h - types.GetLatestTimestamp cs)); lia.
Qed.

(** X6: the two results of a successful call agree: the consensus state
    carries the height, the timestamp and the validator set of the
    returned client state's latest header, and the Merkle root of that
    header's app hash. *)
Theorem consensus_state_matches_client_state
  (clientState : exported.ClientState) (header : exported.Header)
  (now : GoTime.Time) (cs' : types.ClientState) (c : types.ConsensusState) :
  succeedsWith (CheckValidityAndUpdateState clientState header now) cs' c ->
  types.cons_Height c = types.GetLatestHeight cs' /\
  types.cons_Timestamp c = types.GetLatestTimestamp cs' /\
  types.cons_ValidatorSet c = types.ValidatorSet (types.LastHeader cs') /\
  types.cons_Root c
  = types.NewMerkleRoot
      (tmproto.AppHash
         (tmproto.sh_Header (types.SignedHeader (types.LastHeader cs')))).
Proof.
  intros Hs.
  apply success_inversion in Hs as (cs & h & _ & _ & _ & Hcs' & Hc).
  subst cs' c. repeat split.
Qed.

(** X7: a client whose trusting period is zero or negative accepts no
    header: every call is rejected at one of the comparisons, before any
    library call. *)
Theorem nonpositive_trusting_period_rejects_all
  (cs : types.ClientState) (h : types.Header) (now : GoTime.Time) :
  types.TrustingPeriod cs <= 0 ->
  exists err,
    rejectedUpFront
      (CheckValidityAndUpdateState (Tendermint cs) (Candidate h) now) err /\
    isTemporalViolation err = true.
Proof.
  intros Hperiod.
  assert (Hr : exists err, returns cs h now [] (Raise err) /\
                           isTemporalViolation err = true).
  { destruct (Z_lt_le_dec
                (GoTime.Sub (types.GetTime h) (types.GetLatestTimestamp cs))
                (types.TrustingPeriod cs)) as [H2 | H2].
    - apply not_newer_rejected. right.
      unfold GoTime.Sub, GoTime.saturate in H2.
      destruct (Z.ltb_spec (types.GetTime h - types.GetLatestTimestamp cs)
                  GoTime.minDuration) as [Hlo | Hlo].
      + unfold GoTime.minDuration in Hlo. lia.
      + destruct (Z.ltb_spec GoTime.maxDuration
                    (types.GetTime h - types.GetLatestTimestamp cs)) as [Hhi | Hhi].
        * unfold GoTime.maxDuration in H2. lia.
        * lia.
    - destruct (Z_lt_le_dec (GoTime.Sub now (types.GetLatestTimestamp cs))
                  (types.TrustingPeriod cs)) as [H1 | H1].
      + eexists. split; [apply ReturnOutsideTrustingPeriod; lia | reflexivity].
      + eexists. split; [apply ReturnTrustingPeriodExpired; lia | reflexivity]. }
  destruct Hr as (err & Hr & Htemporal).
  exists err. unfold rejectedUpFront.
  rewrite (CheckValidityAndUpdateState_raise cs h now [] err Hr). auto.
Qed.

(** X8: no way back.  After a successful update to a header, every
    header whose height is at most that header's height, or whose
    timestamp is at most that header's timestamp, is rejected by the
    returned client state before any library call, at whatever current
    time. *)
Theorem no_rollback_after_update
  (clientState : exported.ClientState) (header : exported.Header)
  (now : GoTime.Time) (cs' : types.ClientState) (c : types.ConsensusState)
  (older : types.Header) (now' : GoTime.Time) :
  succeedsWith (CheckValidityAndUpdateState clientState header now) cs' c ->
  types.GetHeight older <= types.cons_Height c \/
  types.GetTime older <= types.cons_Timestamp c ->
  exists err,
    rejectedUpFront
      (CheckValidityAndUpdateState (Tendermint cs') (Candidate older) now') err /\
    isTemporalViolation err = true.
Proof.
  intros Hs Holder.
  apply success_inversion in Hs as (cs & h & _ & _ & _ & Hcs' & Hc).
  subst cs' c. cbn [update snd types.cons_Height types.cons_Timestamp] in Holder.
  destruct (not_newer_rejected (fst (update cs h)) older now')
    as (err & Hr & Htemporal).
  - destruct (update_latest cs h) as [Hheight Htime].
    rewrite Hheight, Htime. exact Holder.
  - exists err. unfold rejectedUpFront.
    rewrite (CheckValidityAndUpdateState_raise _ older now' [] err Hr). auto.
Qed.

End UpdateProperties.

(** ** Properties of the account query server *)

Section AccountQueries.

Import authkeeper.

Context {co : Collaborators}.

(** X9: a nil request and a request with an empty address are answered
    with [InvalidArgument] and no response, and the answer is the same
    for every keeper: the store is not looked at. *)
Theorem Account_validates_before_lookup
  (ak ak' : AccountKeeper) (req : option QueryAccountRequest) :
  req = None \/ (exists r, req = Some r /\ Empty (Address r) = true) ->
  Account ak req = Account ak' req /\
  fst (Account ak req) = None /\
  option_map code (snd (Account ak req)) = Some InvalidArgument.
Proof.
  intros [-> | (r & -> & Hempty)]; cbn.
  - repeat split.
  - rewrite Hempty. repeat split.
Qed.

(** X10: [Account] answers [NotFound] exactly when the request is there,
    its address is not empty, and the keeper has no account at that
    address. *)
Theorem Account_not_found_iff
  (ak : AccountKeeper) (req : option QueryAccountRequest) :
  option_map code (snd (Account ak req)) = Some NotFound
  <-> exists r,
        req = Some r /\ Empty (Address r) = false /\
        GetAccount ak (Address r) = None.
Proof.
  split.
  - destruct req as [r |]; cbn; [| discriminate].
    destruct (Empty (Address r)) eqn:Hempty; cbn; [discriminate |].
    destruct (GetAccount ak (Address r)) as [account |] eqn:Hget.
    + destruct (ConvertAccount account); cbn; discriminate.
    + intros _. exists r. auto.
  - intros (r & -> & Hempty & Hget). cbn. now rewrite Hempty, Hget.
Qed.

(** X11: an account whose Go type is no [proto.Message] makes [Account]
    answer [Internal]; the text of the error names the type [<nil>],
    whatever the type of the account is, because [ConvertAccount] prints
    the failed assertion's nil result. *)
Theorem Account_of_unpackable_type
  (ak : AccountKeeper) (r : QueryAccountRequest) (goType : string) :
  Empty (Address r) = false ->
  GetAccount ak (Address r) = Some (OtherAccount goType) ->
  Account ak (Some r)
  = (None, Some {| code := Internal;
                   description := DescFormat "can't protomarshal <nil>" |}).
Proof.
  intros Hempty Hget. cbn. now rewrite Hempty, Hget.
Qed.

(** X12: [Account] returns a response exactly when the request is valid,
    the keeper has an account at the address that is a [proto.Message],
    and packing it succeeds; the response then holds the packed value
    and the error is nil.  In every other case the response is nil and
    the error is not. *)
Theorem Account_response_iff
  (ak : AccountKeeper) (req : option QueryAccountRequest) (any : AnyValue) :
  (Account ak req = (Some {| Account_ := any |}, None)
   <-> exists r msg,
         req = Some r /\ Empty (Address r) = false /\
         GetAccount ak (Address r) = Some (ProtoAccount msg) /\
         NewAnyWithValue msg = inl any) /\
  (fst (Account ak req) = None <-> snd (Account ak req) <> None).
Proof.
  split.
  - split.
    + destruct req as [r |]; cbn; [| discriminate].
      destruct (Empty (Address r)) eqn:Hempty; [discriminate |].
      destruct (GetAccount ak (Address r)) as [[msg | t] |] eqn:Hget;
        cbn; try discriminate.
      destruct (NewAnyWithValue msg) as [any' | text] eqn:Hpack;
        cbn; [| discriminate].
      intros E. injection E as ->. exists r, msg. auto.
    + intros (r & msg & -> & Hempty & Hget & Hpack). cbn.
      now rewrite Hempty, Hget; cbn; rewrite Hpack.
  - destruct req as [r |]; cbn; [| split; [discriminate | reflexivity]].
    destruct (Empty (Address r)); [split; [discriminate | reflexivity] |].
    destruct (GetAccount ak (Address r)) as [account |];
      [| split; [discriminate | reflexivity]].
    destruct (ConvertAccount account); cbn; split;
      try discriminate; try reflexivity; intros H; now elim H.
Qed.

End AccountQueries.

Lemma Account_validates_before_lookup_witness :
  (Some {| authkeeper.Address := [] |} = None \/
   exists r,
     Some {| authkeeper.Address := [] |} = Some r /\
     @authkeeper.Empty authkeeper.stubCollaborators (authkeeper.Address r) = true) /\
  @authkeeper.Account authkeeper.stubCollaborators authkeeper.stubKeeper
    (Some {| authkeeper.Address := [] |})
  = @authkeeper.Account authkeeper.stubCollaborators authkeeper.emptyKeeper
      (Some {| authkeeper.Address := [] |}).
Proof.
  assert (H : Some {| authkeeper.Address := [] |} = None \/
              exists r,
                Some {| authkeeper.Address := [] |} = Some r /\
                @authkeeper.Empty authkeeper.stubCollaborators
                  (authkeeper.Address r) = true)
    by (right; eexists; split; reflexivity).
  split; [exact H |].
  exact (proj1 (@Account_validates_before_lookup authkeeper.stubCollaborators
                  authkeeper.stubKeeper authkeeper.emptyKeeper _ H)).
Defined.

Lemma Account_not_found_iff_witness :
  (exists r,
     Some {| authkeeper.Address := [x03] |} = Some r /\
     @authkeeper.Empty authkeeper.stubCollaborators (authkeeper.Address r) = false /\
     authkeeper.GetAccount authkeeper.stubKeeper (authkeeper.Address r) = None) /\
  option_map authkeeper.code
    (snd (@authkeeper.Account authkeeper.stubCollaborators authkeeper.stubKeeper
            (Some {| authkeeper.Address := [x03] |})))
  = Some authkeeper.NotFound.
Proof.
  assert (H : exists r,
                Some {| authkeeper.Address := [x03] |} = Some r /\
                @authkeeper.Empty authkeeper.stubCollaborators
                  (authkeeper.Address r) = false /\
                authkeeper.GetAccount authkeeper.stubKeeper
                  (authkeeper.Address r) = None)
    by (eexists; repeat split; reflexivity).
  split; [exact H |].
  exact (proj2 (@Account_not_found_iff authkeeper.stubCollaborators
                  authkeeper.stubKeeper _) H).
Defined.

Lemma Account_of_unpackable_type_witness :
  @authkeeper.Empty authkeeper.stubCollaborators [x02] = false /\
  authkeeper.GetAccount authkeeper.stubKeeper [x02]
  = Some (@authkeeper.OtherAccount authkeeper.stubCollaborators "mock.Account") /\
  @authkeeper.Account authkeeper.stubCollaborators authkeeper.stubKeeper
    (Some {| authkeeper.Address := [x02] |})
  = (None, Some {| authkeeper.code := authkeeper.Internal;
                   authkeeper.description :=
                     authkeeper.DescFormat "can't protomarshal <nil>" |}).
Proof.
  split; [reflexivity |]. split; [reflexivity |].
  apply (@Account_of_unpackable_type authkeeper.stubCollaborators
           authkeeper.stubKeeper {| authkeeper.Address := [x02] |}
           "mock.Account");
    reflexivity.
Defined.

Lemma Account_response_iff_witness :
  (exists r msg,
     Some {| authkeeper.Address := [x01] |} = Some r /\
     @authkeeper.Empty authkeeper.stubCollaborators (authkeeper.Address r) = false /\
     authkeeper.GetAccount authkeeper.stubKeeper (authkeeper.Address r)
     = Some (@authkeeper.ProtoAccount authkeeper.stubCollaborators msg) /\
     @authkeeper.NewAnyWithValue authkeeper.stubCollaborators msg
     = inl "any:BaseAccount"%string) /\
  @authkeeper.Account authkeeper.stubCollaborators authkeeper.stubKeeper
    (Some {| authkeeper.Address := [x01] |})
  = (Some (@authkeeper.Build_QueryAccountResponse authkeeper.stubCollaborators
             "any:BaseAccount"%string), None).
Proof.
  assert (H : exists r msg,
                Some {| authkeeper.Address := [x01] |} = Some r /\
                @authkeeper.Empty authkeeper.stubCollaborators
                  (authkeeper.Address r) = false /\
                authkeeper.GetAccount authkeeper.stubKeeper (authkeeper.Address r)
                = Some (@authkeeper.ProtoAccount authkeeper.stubCollaborators msg) /\
                @authkeeper.NewAnyWithValue authkeeper.stubCollaborators msg
                = inl "any:BaseAccount"%string)
    by (eexists; exists "BaseAccount"%string; repeat split; reflexivity).
  split; [exact H |].
  exact (proj2 (proj1 (@Account_response_iff authkeeper.stubCollaborators
                         authkeeper.stubKeeper _ "any:BaseAccount"%string)) H).
Defined.

(** ** The further properties of [update.go] on concrete inputs *)

Lemma expired_client_rejects_every_header_witness :
  GoTime.Sub (10 * GoTime.Second + hour) (types.GetLatestTimestamp activeClient)
    >= types.TrustingPeriod activeClient /\
  rejectedUpFront
    (@CheckValidityAndUpdateState acceptingLibrary
       (exported.TendermintClientState activeClient)
       (exported.TendermintHeader freshHeader) (10 * GoTime.Second + hour))
    (Wrapf (Registered ErrTrustingPeriodExpired)
       (MsgTrustingPeriodExpired
          (GoTime.Sub (10 * GoTime.Second + hour)
             (types.GetLatestTimestamp activeClient))
          (types.TrustingPeriod activeClient))).
Proof.
  assert (H : GoTime.Sub (10 * GoTime.Second + hour)
                (types.GetLatestTimestamp activeClient)
              >= types.TrustingPeriod activeClient)
    by (vm_compute; discriminate).
  split; [exact H |].
  exact (proj1 (@expired_client_rejects_every_header acceptingLibrary
                  activeClient freshHeader (10 * GoTime.Second + hour)) H).
Defined.

Lemma update_succeeds_iff_witness :
  (exists tsh tvs ush uvs,
     @handedToVerifier acceptingLibrary activeClient freshHeader now12
       tsh tvs ush uvs /\
     @verifierAnswer acceptingLibrary activeClient now12 tsh tvs ush uvs = None) /\
  ret_err
    (snd (@CheckValidityAndUpdateState acceptingLibrary
            (exported.TendermintClientState activeClient)
            (exported.TendermintHeader freshHeader) now12))
  = None.
Proof.
  assert (H : exists tsh tvs ush uvs,
                @handedToVerifier acceptingLibrary activeClient freshHeader now12
                  tsh tvs ush uvs /\
                @verifierAnswer acceptingLibrary activeClient now12
                  tsh tvs ush uvs = None).
  { exists (types.SignedHeader (types.LastHeader activeClient)), testValSet,
      (types.SignedHeader freshHeader), testValSet.
    repeat split; reflexivity. }
  split; [exact H |].
  exact (proj2 (proj1 (@update_succeeds_iff acceptingLibrary
                         activeClient freshHeader now12)) H).
Defined.

Lemma error_taxonomy_witness :
  ret_err
    (snd (@CheckValidityAndUpdateState rejectingLibrary
            (exported.TendermintClientState activeClient)
            (exported.TendermintHeader freshHeader) now12))
  = Some (Wrap (Foreign "invalid commit") MsgFailedToVerifyHeader) /\
  verifierCalls
    (fst (@CheckValidityAndUpdateState rejectingLibrary
            (exported.TendermintClientState activeClient)
            (exported.TendermintHeader freshHeader) now12))
  = 1%nat.
Proof.
  assert (H : ret_err
                (snd (@CheckValidityAndUpdateState rejectingLibrary
                        (exported.TendermintClientState activeClient)
                        (exported.TendermintHeader freshHeader) now12))
              = Some (Wrap (Foreign "invalid commit") MsgFailedToVerifyHeader))
    by reflexivity.
  split; [exact H |].
  destruct (@error_taxonomy rejectingLibrary _ _ _ _ H) as [[_ Hcause] | [Hcalls _]].
  - exfalso. destruct Hcause as [Hc | [Hc | Hc]]; discriminate Hc.
  - exact Hcalls.
Defined.

Lemma accepted_header_is_newer_witness :
  succeedsWith
    (@CheckValidityAndUpdateState acceptingLibrary
       (exported.TendermintClientState activeClient)
       (exported.TendermintHeader freshHeader) now12)
    (types.set_LastHeader activeClient freshHeader)
    (snd (update activeClient freshHeader)) /\
  exists cs,
    exported.TendermintClientState activeClient
    = exported.TendermintClientState cs /\
    types.GetLatestHeight cs
    < types.GetLatestHeight (types.set_LastHeader activeClient freshHeader).
Proof.
  assert (Hs : succeedsWith
                 (@CheckValidityAndUpdateState acceptingLibrary
                    (exported.TendermintClientState activeClient)
                    (exported.TendermintHeader freshHeader) now12)
                 (types.set_LastHeader activeClient freshHeader)
                 (snd (update activeClient freshHeader)))
    by reflexivity.
  split; [exact Hs |].
  destruct (@accepted_header_is_newer acceptingLibrary _ _ _ _ _ Hs)
    as (cs & Hcs & Hheight & _).
  exists cs. split; assumption.
Defined.

Lemma consensus_state_matches_client_state_witness :
  succeedsWith
    (@CheckValidityAndUpdateState acceptingLibrary
       (exported.TendermintClientState activeClient)
       (exported.TendermintHeader freshHeader) now12)
    (types.set_LastHeader activeClient freshHeader)
    (snd (update activeClient freshHeader)) /\
  types.cons_Height (snd (update activeClient freshHeader))
  = types.GetLatestHeight (types.set_LastHeader activeClient freshHeader).
Proof.
  assert (Hs : succeedsWith
                 (@CheckValidityAndUpdateState acceptingLibrary
                    (exported.TendermintClientState activeClient)
                    (exported.TendermintHeader freshHeader) now12)
                 (types.set_LastHeader activeClient freshHeader)
                 (snd (update activeClient freshHeader)))
    by reflexivity.
  split; [exact Hs |].
  exact (proj1 (@consensus_state_matches_client_state acceptingLibrary
                  _ _ _ _ _ Hs)).
Defined.

Lemma nonpositive_trusting_period_rejects_all_witness :
  types.TrustingPeriod (testClientState 0 false) <= 0 /\
  exists err,
    rejectedUpFront
      (@CheckValidityAndUpdateState acceptingLibrary
         (exported.TendermintClientState (testClientState 0 false))
         (exported.TendermintHeader freshHeader) now12) err /\
    isTemporalViolation err = true.
Proof.
  assert (H : types.TrustingPeriod (testClientState 0 false) <= 0)
    by (vm_compute; discriminate).
  split; [exact H |].
  exact (@nonpositive_trusting_period_rejects_all acceptingLibrary
           (testClientState 0 false) freshHeader now12 H).
Defined.

Lemma no_rollback_after_update_witness :
  succeedsWith
    (@CheckValidityAndUpdateState acceptingLibrary
       (exported.TendermintClientState activeClient)
       (exported.TendermintHeader freshHeader) now12)
    (types.set_LastHeader activeClient freshHeader)
    (snd (update activeClient freshHeader)) /\
  (types.GetHeight staleHeader
   <= types.cons_Height (snd (update activeClient freshHeader)) \/
   types.GetTime staleHeader
   <= types.cons_Timestamp (snd (update activeClient freshHeader))) /\
  exists err,
    rejectedUpFront
      (@CheckValidityAndUpdateState acceptingLibrary
         (exported.TendermintClientState
            (types.set_LastHeader activeClient freshHeader))
         (exported.TendermintHeader staleHeader) now12) err /\
    isTemporalViolation err = true.
Proof.
  assert (Hs : succeedsWith
                 (@CheckValidityAndUpdateState acceptingLibrary
                    (exported.TendermintClientState activeClient)
                    (exported.TendermintHeader freshHeader) now12)
                 (types.set_LastHeader activeClient freshHeader)
                 (snd (update activeClient freshHeader)))
    by reflexivity.
  assert (Holder : types.GetHeight staleHeader
                   <= types.cons_Height (snd (update activeClient freshHeader)) \/
                   types.GetTime staleHeader
                   <= types.cons_Timestamp (snd (update activeClient freshHeader)))
    by (left; vm_compute; discriminate).
  split; [exact Hs |]. split; [exact Holder |].
  exact (@no_rollback_after_update acceptingLibrary _ _ _ _ _
           staleHeader now12 Hs Holder).
Defined.

(** ** Properties of the slashing genesis codec *)

Section GenesisCodec.

Import genesispb.

Lemma Len64_lor_1 (x : Z) : 0 <= x -> Len64 (Z.lor x 1) = Z.log2 x + 1.
Proof.
  intros Hx. unfold Len64.
  assert (Hpos : 0 < Z.lor x 1).
  { assert (H : Z.testbit (Z.lor x 1) 0 = true)
      by (rewrite Z.lor_spec; cbn; apply orb_true_r).
    assert (Hnn : 0 <= Z.lor x 1) by (apply Z.lor_nonneg; lia).
    destruct (Z.eq_dec (Z.lor x 1) 0) as [E | E]; [| lia].
    rewrite E in H. discriminate. }
  destruct (Z.eqb_spec (Z.lor x 1) 0) as [E | _]; [lia |].
  rewrite Z.log2_lor by lia. cbn. pose proof (Z.log2_nonneg x). lia.
Qed.

Lemma sovGenesis_log2 (x : Z) : 0 <= x -> sovGenesis x = (Z.log2 x + 7) / 7.
Proof.
  intros Hx. unfold sovGenesis. rewrite Len64_lor_1 by assumption.
  f_equal. lia.
Qed.

Lemma sovGenesis_small (x : Z) : 0 <= x < 128 -> sovGenesis x = 1.
Proof.
  intros Hx. rewrite sovGenesis_log2 by lia.
  assert (Z.log2 x < 7).
  { destruct (Z.eq_dec x 0) as [-> | Hne]; [cbn; lia |].
    apply Z.log2_lt_pow2; lia. }
  pose proof (Z.log2_nonneg x).
  symmetry. apply Z.div_unique with (r := Z.log2 x); lia.
Qed.

Lemma sovGenesis_shift (x : Z) :
  128 <= x -> sovGenesis x = 1 + sovGenesis (Z.shiftr x 7).
Proof.
  intros Hx.
  assert (Hs : 0 <= Z.shiftr x 7) by (apply Z.shiftr_nonneg; lia).
  rewrite !sovGenesis_log2 by lia.
  rewrite Z.log2_shiftr by lia.
  assert (7 <= Z.log2 x) by (apply Z.log2_le_pow2; lia).
  rewrite Z.max_r by lia.
  replace (Z.log2 x + 7) with (Z.log2 x - 7 + 7 + 1 * 7) by lia.
  rewrite Z.div_add by lia. lia.
Qed.

Lemma sovGenesis_bounds (x : Z) :
  0 <= x < 2 ^ 64 ->
  1 <= sovGenesis x <= 10 /\
  x < 2 ^ (7 * sovGenesis x) /\
  (1 < sovGenesis x -> 2 ^ (7 * (sovGenesis x - 1)) <= x).
Proof.
  intros [Hlo Hhi].
  rewrite sovGenesis_log2 by assumption.
  pose proof (Z.log2_nonneg x) as Hnn.
  assert (Hlog : Z.log2 x < 64).
  { destruct (Z.eq_dec x 0) as [-> | Hne]; [cbn; lia |].
    apply Z.log2_lt_pow2; lia. }
  pose proof (Z.div_mod (Z.log2 x + 7) 7 ltac:(lia)) as Hdm.
  pose proof (Z.mod_pos_bound (Z.log2 x + 7) 7 ltac:(lia)) as Hmod.
  set (k := (Z.log2 x + 7) / 7) in *.
  assert (Hk : 1 <= k <= 10) by lia.
  split; [exact Hk |]. split.
  - destruct (Z.eq_dec x 0) as [-> | Hne].
    + apply Z.pow_pos_nonneg; lia.
    + apply Z.lt_le_trans with (2 ^ (Z.log2 x + 1)).
      * apply Z.log2_spec. lia.
      * apply Z.pow_le_mono_r; lia.
  - intros Hk1.
    assert (0 < x) by (destruct (Z.eq_dec x 0) as [-> | Hne]; [cbn in *; lia | lia]).
    apply Z.le_trans with (2 ^ Z.log2 x).
    + apply Z.pow_le_mono_r; lia.
    + apply Z.log2_spec. lia.
Qed.

Lemma firstn_length_app (pre rest : list Z) :
  firstn (List.length pre) (pre ++ rest) = pre.
Proof.
  induction pre as [| a pre IH]; cbn; [reflexivity | now rewrite IH].
Qed.

Lemma skipn_length_app (pre rest : list Z) :
  skipn (List.length pre) (pre ++ rest) = rest.
Proof.
  induction pre as [| a pre IH]; cbn; [reflexivity | exact IH].
Qed.

Lemma store_middle (pre post : list Z) (x b : Z) :
  store (pre ++ x :: post) (Z.of_nat (List.length pre)) b
  = Some (pre ++ b :: post).
Proof.
  unfold store.
  assert (Hlen : Z.of_nat (List.length pre)
                 < Z.of_nat (List.length (pre ++ x :: post)))
    by (rewrite length_app; cbn; lia).
  destruct (Z.leb_spec 0 (Z.of_nat (List.length pre))); [| lia].
  destruct (Z.ltb_spec (Z.of_nat (List.length pre))
              (Z.of_nat (List.length (pre ++ x :: post)))); [| lia].
  cbn [andb]. rewrite Nat2Z.id, firstn_length_app.
  replace (pre ++ x :: post) with ((pre ++ [x]) ++ post)
    by (rewrite <- app_assoc; reflexivity).
  replace (S (List.length pre)) with (List.length (pre ++ [x]))
    by (rewrite length_app; cbn; lia).
  now rewrite skipn_length_app.
Qed.

Lemma store_outside (dAtA : list Z) (i b : Z) :
  i < 0 \/ Z.of_nat (List.length dAtA) <= i -> store dAtA i b = None.
Proof.
  intros H. unfold store.
  destruct (Z.leb_spec 0 i); destruct (Z.ltb_spec i (Z.of_nat (List.length dAtA)));
    cbn; try reflexivity; lia.
Qed.

Lemma pow2_7_succ (n : nat) : 2 ^ (7 * Z.of_nat (S n)) = 128 * 2 ^ (7 * Z.of_nat n).
Proof.
  rewrite Nat2Z.inj_succ.
  replace (7 * Z.succ (Z.of_nat n)) with (7 + 7 * Z.of_nat n) by lia.
  rewrite Z.pow_add_r by lia. reflexivity.
Qed.

Lemma shiftr_7_bound (n : nat) (v : Z) :
  0 <= v < 2 ^ (7 * Z.of_nat (S n)) -> 0 <= Z.shiftr v 7 < 2 ^ (7 * Z.of_nat n).
Proof.
  intros [Hlo Hhi]. rewrite pow2_7_succ in Hhi.
  rewrite Z.shiftr_div_pow2 by lia. change (2 ^ 7) with 128. split.
  - apply Z.div_pos; lia.
  - apply Z.div_lt_upper_bound; lia.
Qed.

Lemma varintBytes_length (n : nat) (v : Z) :
  0 <= v < 2 ^ (7 * Z.of_nat (S n)) ->
  Z.of_nat (List.length (varintBytes (S n) v)) = sovGenesis v.
Proof.
  revert v. induction n as [| n IH]; intros v Hv.
  - assert (v < 128) by (change (2 ^ (7 * Z.of_nat 1)) with 128 in Hv; lia).
    cbn [varintBytes].
    destruct (v >=? 128) eqn:G;
      [rewrite Z.geb_leb in G; apply Z.leb_le in G; lia |].
    cbn. rewrite sovGenesis_small by lia. reflexivity.
  - remember (S n) as k. cbn [varintBytes].
    destruct (v >=? 128) eqn:G; rewrite Z.geb_leb in G.
    + apply Z.leb_le in G. cbn [List.length]. rewrite Nat2Z.inj_succ.
      subst k. rewrite IH by (now apply shiftr_7_bound).
      rewrite (sovGenesis_shift v) by lia. lia.
    + apply Z.leb_gt in G. cbn. rewrite sovGenesis_small by lia. reflexivity.
Qed.

Lemma varintBytes_are_bytes (n : nat) (v : Z) : Forall isByte (varintBytes n v).
Proof.
  revert v. induction n as [| n IH]; intros v; cbn [varintBytes].
  - constructor.
  - destruct (v >=? 128); repeat constructor; try apply IH;
      unfold isByte, uint8; apply Z.mod_pos_bound; lia.
Qed.

Lemma encodeVarintLoop_writes (n : nat) (v : Z) (pre mid post : list Z) :
  0 <= v < 2 ^ (7 * Z.of_nat (S n)) ->
  List.length mid = List.length (varintBytes (S n) v) ->
  encodeVarintLoop (S n) (pre ++ mid ++ post) (Z.of_nat (List.length pre)) v
  = Returns (pre ++ varintBytes (S n) v ++ post).
Proof.
  revert v pre mid. induction n as [| n IH]; intros v pre mid Hv Hlen.
  - assert (v < 128) by (change (2 ^ (7 * Z.of_nat 1)) with 128 in Hv; lia).
    cbn [encodeVarintLoop varintBytes] in *.
    destruct (v >=? 128) eqn:G;
      [rewrite Z.geb_leb in G; apply Z.leb_le in G; lia |].
    destruct mid as [| x [| y mid]]; try discriminate.
    cbn [app]. rewrite store_middle. reflexivity.
  - remember (S n) as k. cbn [encodeVarintLoop varintBytes] in *.
    destruct (v >=? 128) eqn:G.
    + destruct mid as [| x mid]; [discriminate |]. cbn [List.length] in Hlen.
      injection Hlen as Hlen.
      cbn [app]. rewrite store_middle.
      replace (pre ++ uint8 (Z.lor (Z.land v 127) 128) :: mid ++ post)
        with ((pre ++ [uint8 (Z.lor (Z.land v 127) 128)]) ++ mid ++ post)
        by (rewrite <- app_assoc; reflexivity).
      replace (Z.of_nat (List.length pre) + 1)
        with (Z.of_nat (List.length (pre ++ [uint8 (Z.lor (Z.land v 127) 128)])))
        by (rewrite length_app; cbn; lia).
      subst k. rewrite IH; [| now apply shiftr_7_bound | assumption].
      rewrite <- app_assoc. reflexivity.
    + destruct mid as [| x [| y mid]]; try discriminate.
      cbn [app]. rewrite store_middle. reflexivity.
Qed.

Lemma encodeVarintLoop_before_buffer (n : nat) (dAtA : list Z) (offset v : Z) :
  offset < 0 -> encodeVarintLoop (S n) dAtA offset v = Panics.
Proof.
  intros Hneg. cbn [encodeVarintLoop].
  destruct (v >=? 128); rewrite store_outside by lia; reflexivity.
Qed.

Lemma pow2_64_lt_70 : 2 ^ 64 < 2 ^ (7 * Z.of_nat 10).
Proof. reflexivity. Qed.

Lemma encodeVarintGenesis_writes (v : Z) (pre mid post : list Z) :
  0 <= v < 2 ^ 64 ->
  Z.of_nat (List.length mid) = sovGenesis v ->
  encodeVarintGenesis (pre ++ mid ++ post)
    (Z.of_nat (List.length pre) + Z.of_nat (List.length mid)) v
  = Returns (Z.of_nat (List.length pre), pre ++ varintBytes 10 v ++ post).
Proof.
  intros Hv Hlen. unfold encodeVarintGenesis.
  assert (Hv' : 0 <= v < 2 ^ (7 * Z.of_nat 10))
    by (pose proof pow2_64_lt_70; lia).
  replace (Z.of_nat (List.length pre) + Z.of_nat (List.length mid) - sovGenesis v)
    with (Z.of_nat (List.length pre)) by lia.
  rewrite (encodeVarintLoop_writes 9); [reflexivity | assumption |].
  apply Nat2Z.inj. rewrite (varintBytes_length 9) by assumption. assumption.
Qed.

Lemma list_split (l : list Z) (n k : nat) :
  List.length l = (n + k)%nat ->
  exists l1 l2, l = l1 ++ l2 /\ List.length l1 = n /\ List.length l2 = k.
Proof.
  intros H. exists (firstn n l), (skipn n l).
  split; [symmetry; apply firstn_skipn |]. split.
  - rewrite length_firstn. lia.
  - rewrite length_skipn. lia.
Qed.

Lemma wrapU64_range (z : Z) : 0 <= wrapU64 z < 2 ^ 64.
Proof. unfold wrapU64. apply Z.mod_pos_bound. reflexivity. Qed.

(** Writing the tag and the varint of field 1 in front of [post]. *)
Lemma marshal_index_field (v : Z) (pre slot post : list Z) :
  0 <= v < 2 ^ 64 ->
  Z.of_nat (List.length slot) = 1 + sovGenesis v ->
  match encodeVarintGenesis (pre ++ slot ++ post)
          (Z.of_nat (List.length (pre ++ slot))) v with
  | Returns (i, dAtA) =>
      match store dAtA (i - 1) 8 with
      | None => Panics
      | Some dAtA' => Returns (Z.of_nat (List.length dAtA') - (i - 1), dAtA')
      end
  | Panics => Panics
  | Diverges => Diverges
  end
  = Returns (1 + sovGenesis v + Z.of_nat (List.length post),
             pre ++ (8 :: varintBytes 10 v) ++ post).
Proof.
  intros Hv Hlen.
  pose proof (sovGenesis_bounds v Hv) as (Hsov & _).
  destruct slot as [| t slot]; [cbn [List.length] in Hlen; lia |].
  cbn [List.length] in Hlen. rewrite Nat2Z.inj_succ in Hlen.
  replace (pre ++ (t :: slot) ++ post) with ((pre ++ [t]) ++ slot ++ post)
    by (rewrite <- app_assoc; reflexivity).
  replace (Z.of_nat (List.length (pre ++ t :: slot)))
    with (Z.of_nat (List.length (pre ++ [t])) + Z.of_nat (List.length slot))
    by (rewrite !length_app; cbn; lia).
  rewrite encodeVarintGenesis_writes by (assumption || lia).
  replace (Z.of_nat (List.length (pre ++ [t])) - 1)
    with (Z.of_nat (List.length pre)) by (rewrite length_app; cbn; lia).
  rewrite <- app_assoc. cbn [app]. rewrite store_middle.
  f_equal. f_equal.
  rewrite length_app. cbn [List.length]. rewrite length_app.
  pose proof (varintBytes_length 9 v ltac:(pose proof pow2_64_lt_70; lia)) as Hvb.
  lia.
Qed.

Lemma marshal_missed_field (P : list Z) (a b : Z) :
  store (P ++ [a; b]) (Z.of_nat (List.length (P ++ [a; b])) - 1) 1
  = Some (P ++ [a; 1]) /\
  store (P ++ [a; 1]) (Z.of_nat (List.length (P ++ [a; b])) - 1 - 1) 16
  = Some (P ++ [16; 1]).
Proof.
  split.
  - replace (P ++ [a; b]) with ((P ++ [a]) ++ [b])
      by (rewrite <- app_assoc; reflexivity).
    replace (Z.of_nat (List.length ((P ++ [a]) ++ [b])) - 1)
      with (Z.of_nat (List.length (P ++ [a])))
      by (rewrite !length_app; cbn; lia).
    rewrite store_middle. now rewrite <- app_assoc.
  - replace (Z.of_nat (List.length (P ++ [a; b])) - 1 - 1)
      with (Z.of_nat (List.length P))
      by (rewrite !length_app; cbn; lia).
    apply store_middle.
Qed.

Lemma MissedBlock_MarshalToSizedBuffer_writes
  (m : MissedBlock) (pre slot : list Z) :
  Z.of_nat (List.length slot) = MissedBlock_Size (Some m) ->
  MissedBlock_MarshalToSizedBuffer m (pre ++ slot)
  = Returns (MissedBlock_Size (Some m), pre ++ MissedBlock_wire m).
Proof.
  destruct m as [idx missed]. unfold MissedBlock_Size, MissedBlock_wire,
    MissedBlock_MarshalToSizedBuffer. cbn [Index Missed].
  pose proof (wrapU64_range idx) as Hv.
  pose proof (sovGenesis_bounds _ Hv) as (Hsov & _).
  intros Hlen. destruct missed.
  - destruct (list_split slot (List.length slot - 2) 2)
      as (slot0 & tail & -> & Hslot0 & Htail);
      [destruct (idx =? 0); lia |].
    destruct tail as [| a [| b [| c tail]]]; try discriminate. clear Htail.
    rewrite app_assoc.
    destruct (marshal_missed_field (pre ++ slot0) a b) as [-> ->].
    rewrite length_app in Hlen. cbn [List.length] in Hlen.
    destruct (Z.eqb_spec idx 0) as [E | E]; cbn [negb].
    + assert (slot0 = []) by (destruct slot0; [reflexivity | cbn in Hlen; lia]).
      subst slot0. rewrite !app_nil_r. cbn [app]. f_equal. f_equal.
      rewrite !length_app. cbn. lia.
    + rewrite <- app_assoc.
      replace (Z.of_nat (List.length ((pre ++ slot0) ++ [a; b])) - 1 - 1)
        with (Z.of_nat (List.length (pre ++ slot0)))
        by (rewrite !length_app; cbn; lia).
      rewrite (marshal_index_field (wrapU64 idx) pre slot0 [16; 1] Hv) by lia.
      reflexivity.
  - destruct (Z.eqb_spec idx 0) as [E | E]; cbn [negb].
    + assert (slot = []) by (destruct slot; [reflexivity | cbn in Hlen; lia]).
      subst slot. rewrite !app_nil_r. f_equal. f_equal. lia.
    + pose proof (marshal_index_field (wrapU64 idx) pre slot [] Hv) as H.
      rewrite !app_nil_r in H. rewrite H by lia. cbn [List.length].
      rewrite app_nil_r. reflexivity.
Qed.


Lemma MissedBlock_Size_nonneg (m : MissedBlock) : 0 <= MissedBlock_Size (Some m).
Proof.
  unfold MissedBlock_Size.
  pose proof (sovGenesis_bounds _ (wrapU64_range (Index m))) as (Hsov & _).
  destruct (Index m =? 0); destruct (Missed m); lia.
Qed.

Lemma MissedBlock_wire_length (m : MissedBlock) :
  Z.of_nat (List.length (MissedBlock_wire m)) = MissedBlock_Size (Some m).
Proof.
  unfold MissedBlock_wire, MissedBlock_Size.
  pose proof (varintBytes_length 9 (wrapU64 (Index m))
                ltac:(pose proof pow2_64_lt_70;
                      pose proof (wrapU64_range (Index m)); lia)) as Hvb.
  rewrite length_app.
  destruct (Index m =? 0); destruct (Missed m); cbn [List.length]; lia.
Qed.

Lemma MissedBlock_Marshal_wire (m : MissedBlock) :
  MissedBlock_Marshal (Some m) = Returns (MissedBlock_wire m).
Proof.
  unfold MissedBlock_Marshal.
  pose proof (MissedBlock_Size_nonneg m) as Hsize.
  rewrite firstn_all2 by (rewrite repeat_length; lia).
  pose proof (MissedBlock_MarshalToSizedBuffer_writes m []
                (repeat 0 (Z.to_nat (MissedBlock_Size (Some m))))
                ltac:(rewrite repeat_length; lia)) as Hw.
  cbn [app] in Hw. rewrite Hw. f_equal. apply firstn_all2.
  pose proof (MissedBlock_wire_length m). lia.
Qed.

Lemma lor_disjoint_add (a c s : Z) :
  0 <= s -> 0 <= a < 2 ^ s -> Z.lor a (c * 2 ^ s) = a + c * 2 ^ s.
Proof.
  intros Hs Ha.
  assert (Hland : Z.land a (c * 2 ^ s) = 0).
  { apply Z.bits_inj'. intros i Hi.
    rewrite Z.land_spec, Z.bits_0, <- Z.shiftl_mul_pow2 by assumption.
    destruct (Z.lt_ge_cases i s) as [Hlt | Hge].
    - rewrite Z.shiftl_spec_low by assumption. apply andb_false_r.
    - rewrite <- (Z.mod_small a (2 ^ s)) by assumption.
      rewrite Z.mod_pow2_bits_high by lia. reflexivity. }
  rewrite Z.add_nocarry_lxor by assumption.
  symmetry. apply Z.lxor_lor. assumption.
Qed.

Lemma land_127 (b : Z) : Z.land b 127 = b mod 128.
Proof.
  change 127 with (Z.ones 7). rewrite Z.land_ones by lia. reflexivity.
Qed.

Lemma continuation_byte (v : Z) :
  0 <= v ->
  uint8 (Z.lor (Z.land v 127) 128) = v mod 128 + 128.
Proof.
  intros Hv. rewrite land_127.
  pose proof (Z.mod_pos_bound v 128 ltac:(lia)) as Hm.
  change 128 with (1 * 2 ^ 7) at 2.
  rewrite lor_disjoint_add by (change (2 ^ 7) with 128; lia).
  unfold uint8. apply Z.mod_small. change (2 ^ 7) with 128. lia.
Qed.

Lemma wrapU64_small (z : Z) : 0 <= z < 2 ^ 64 -> wrapU64 z = z.
Proof. intros H. unfold wrapU64. now apply Z.mod_small. Qed.

Lemma wrapI64_small (z : Z) : 0 <= z < 2 ^ 63 -> wrapI64 z = z.
Proof.
  intros H. unfold wrapI64. rewrite Z.mod_small; lia.
Qed.

Lemma wrapI64_high (z : Z) : 2 ^ 63 <= z < 2 ^ 64 -> wrapI64 z = z - 2 ^ 64.
Proof.
  intros H. unfold wrapI64.
  replace (z + 2 ^ 63) with (z - 2 ^ 63 + 1 * 2 ^ 64) by lia.
  rewrite Z_mod_plus_full, Z.mod_small; lia.
Qed.

Lemma wrapI64_wrapU64 (z : Z) : - 2 ^ 63 <= z < 2 ^ 63 -> wrapI64 (wrapU64 z) = z.
Proof.
  intros H. unfold wrapU64.
  destruct (Z_lt_le_dec z 0) as [Hneg | Hpos].
  - replace z with (z + 2 ^ 64 + (-1) * 2 ^ 64) at 1 by lia.
    rewrite Z_mod_plus_full, Z.mod_small by lia.
    rewrite wrapI64_high; lia.
  - rewrite Z.mod_small by lia. apply wrapI64_small. lia.
Qed.

Lemma wrapU64_accumulates : accumulates wrapU64.
Proof.
  split.
  - intros x Hx. apply wrapU64_small. lia.
  - intros a s x Hs Ha Hx Hsum.
    assert (0 < 2 ^ s) by (apply Z.pow_pos_nonneg; lia).
    rewrite Z.shiftl_mul_pow2 by lia.
    rewrite !wrapU64_small by nia.
    apply lor_disjoint_add; lia.
Qed.

Lemma wrapI64_accumulates : accumulates wrapI64.
Proof.
  split.
  - apply wrapI64_small.
  - intros a s x Hs Ha Hx Hsum.
    assert (HP : 0 < 2 ^ s) by (apply Z.pow_pos_nonneg; lia).
    assert (H63 : 2 ^ 63 = 2 ^ (63 - s) * 2 ^ s)
      by (rewrite <- Z.pow_add_r by lia; f_equal; lia).
    assert (H64 : 2 ^ 64 = 2 * 2 ^ (63 - s) * 2 ^ s)
      by (change (2 ^ 64) with (2 * 2 ^ 63); rewrite H63; ring).
    assert (HQ : 0 < 2 ^ (63 - s)) by (apply Z.pow_pos_nonneg; lia).
    rewrite Z.shiftl_mul_pow2 by lia.
    set (P := 2 ^ s) in *. set (Q := 2 ^ (63 - s)) in *.
    destruct (Z_lt_le_dec (x * P) (2 ^ 63)) as [Hlow | Hhigh].
    + assert (x < Q) by nia.
      rewrite !wrapI64_small by nia.
      apply lor_disjoint_add; lia.
    + rewrite !wrapI64_high by nia.
      replace (x * P - 2 ^ 64) with ((x - 2 * Q) * P) by nia.
      unfold P. rewrite lor_disjoint_add by lia. fold P. nia.
Qed.

Lemma decodeVarint_varintBytes (wrap : Z -> Z) (n : nat) :
  accumulates wrap ->
  forall (v : Z) (rest : list Z) (shift acc i : Z),
    0 <= v < 2 ^ (7 * Z.of_nat (S n)) ->
    0 <= shift < 64 -> 0 <= acc < 2 ^ shift ->
    acc + v * 2 ^ shift < 2 ^ 64 ->
    decodeVarint wrap (varintBytes (S n) v ++ rest) shift acc i
    = VarintOk (wrap (acc + v * 2 ^ shift))
        (i + Z.of_nat (List.length (varintBytes (S n) v))).
Proof.
  intros [Hsmall Hlast].
  assert (Hfinal : forall v rest shift acc i,
             0 <= v < 128 -> 0 <= shift < 64 -> 0 <= acc < 2 ^ shift ->
             acc + v * 2 ^ shift < 2 ^ 64 ->
             decodeVarint wrap ([uint8 v] ++ rest) shift acc i
             = VarintOk (wrap (acc + v * 2 ^ shift)) (i + 1)).
  { intros v rest shift acc i Hv Hshift Hacc Hsum.
    cbn [app decodeVarint]. unfold uint8. rewrite (Z.mod_small v 256) by lia.
    destruct (shift >=? 64) eqn:G;
      [rewrite Z.geb_leb in G; apply Z.leb_le in G; lia |].
    rewrite land_127, (Z.mod_small v 128) by lia.
    rewrite Hlast by lia.
    destruct (Z.ltb_spec v 128); [reflexivity | lia]. }
  induction n as [| n IH]; intros v rest shift acc i Hv Hshift Hacc Hsum.
  - assert (v < 128) by (change (2 ^ (7 * Z.of_nat 1)) with 128 in Hv; lia).
    cbn [varintBytes].
    destruct (v >=? 128) eqn:G;
      [rewrite Z.geb_leb in G; apply Z.leb_le in G; lia |].
    now apply Hfinal.
  - remember (S n) as k. cbn [varintBytes].
    destruct (v >=? 128) eqn:G; rewrite Z.geb_leb in G.
    + apply Z.leb_le in G.
      assert (HP : 0 < 2 ^ shift) by (apply Z.pow_pos_nonneg; lia).
      assert (Hshift7 : shift + 7 < 64).
      { apply (Z.pow_lt_mono_r_iff 2); [lia | lia |].
        rewrite Z.pow_add_r by lia. change (2 ^ 7) with 128. nia. }
      pose proof (Z.mod_pos_bound v 128 ltac:(lia)) as Hm.
      pose proof (Z.div_mod v 128 ltac:(lia)) as Hdm.
      assert (Hpow7 : 2 ^ (shift + 7) = 128 * 2 ^ shift)
        by (rewrite Z.pow_add_r by lia; change (2 ^ 7) with 128; lia).
      cbn [app decodeVarint List.length].
      destruct (shift >=? 64) eqn:G';
        [rewrite Z.geb_leb in G'; apply Z.leb_le in G'; lia |].
      rewrite continuation_byte by lia.
      rewrite land_127.
      replace ((v mod 128 + 128) mod 128) with (v mod 128)
        by (rewrite <- Zplus_mod_idemp_r, Z.mod_same, Z.add_0_r by lia;
            rewrite Z.mod_mod; lia).
      rewrite Hlast by (try lia; nia).
      rewrite Hsmall.
      2: { split; [nia |].
           apply Z.lt_le_trans with (2 ^ (shift + 7)); [nia |].
           apply Z.pow_le_mono_r; lia. }
      destruct (Z.ltb_spec (v mod 128 + 128) 128); [lia |].
      subst k.
      rewrite IH.
      * f_equal.
        -- f_equal. rewrite Z.shiftr_div_pow2 by lia.
           change (2 ^ 7) with 128. nia.
        -- rewrite Nat2Z.inj_succ. lia.
      * now apply shiftr_7_bound.
      * lia.
      * nia.
      * rewrite Z.shiftr_div_pow2 by lia. change (2 ^ 7) with 128. nia.
    + apply Z.leb_gt in G. cbn [List.length]. now apply Hfinal; try lia.
Qed.

Lemma readVarint_varintBytes (wrap : Z -> Z) (v : Z) (pre rest : list Z) :
  accumulates wrap ->
  0 <= v < 2 ^ 64 ->
  readVarint wrap (pre ++ varintBytes 10 v ++ rest) (Z.of_nat (List.length pre))
  = VarintOk (wrap v) (Z.of_nat (List.length pre) + sovGenesis v).
Proof.
  intros Hwrap Hv. unfold readVarint.
  rewrite Nat2Z.id, skipn_length_app.
  assert (Hv' : 0 <= v < 2 ^ (7 * Z.of_nat 10))
    by (pose proof pow2_64_lt_70; lia).
  rewrite (decodeVarint_varintBytes wrap 9 Hwrap) by (cbn; lia).
  rewrite (varintBytes_length 9) by assumption.
  f_equal. f_equal. cbn. lia.
Qed.

Lemma readVarint_single (wrap : Z -> Z) (b : Z) (pre rest : list Z) :
  accumulates wrap ->
  0 <= b < 128 ->
  readVarint wrap (pre ++ b :: rest) (Z.of_nat (List.length pre))
  = VarintOk b (Z.of_nat (List.length pre) + 1).
Proof.
  intros Hwrap Hb.
  pose proof (readVarint_varintBytes wrap b pre rest Hwrap ltac:(lia)) as H.
  assert (Hvb : varintBytes 10 b = [b]).
  { cbn [varintBytes].
    destruct (b >=? 128) eqn:G;
      [rewrite Z.geb_leb in G; apply Z.leb_le in G; lia |].
    unfold uint8. now rewrite Z.mod_small by lia. }
  rewrite Hvb, sovGenesis_small in H by lia. cbn [app] in H.
  rewrite H. f_equal. apply (proj1 Hwrap). lia.
Qed.

Lemma unmarshalLoop_end (fuel : nat) (m : MissedBlock) (dAtA : list Z) :
  MissedBlock_unmarshalLoop fuel m dAtA (Z.of_nat (List.length dAtA))
  = Returns (m, None).
Proof.
  destruct fuel; cbn [MissedBlock_unmarshalLoop];
    rewrite Z.ltb_irrefl;
    (destruct (Z.gtb_spec (Z.of_nat (List.length dAtA))
                 (Z.of_nat (List.length dAtA))); [lia | reflexivity]).
Qed.

Lemma unmarshalLoop_index_field
  (fuel : nat) (m : MissedBlock) (v : Z) (pre rest : list Z) :
  0 <= v < 2 ^ 64 ->
  MissedBlock_unmarshalLoop (S fuel) m (pre ++ 8 :: varintBytes 10 v ++ rest)
    (Z.of_nat (List.length pre))
  = MissedBlock_unmarshalLoop fuel
      {| Index := wrapI64 v; Missed := Missed m |}
      (pre ++ 8 :: varintBytes 10 v ++ rest)
      (Z.of_nat (List.length pre) + 1 + sovGenesis v).
Proof.
  intros Hv. cbn [MissedBlock_unmarshalLoop].
  destruct (Z.ltb_spec (Z.of_nat (List.length pre))
              (Z.of_nat (List.length (pre ++ 8 :: varintBytes 10 v ++ rest))))
    as [_ | Hge]; [| rewrite length_app in Hge; cbn [List.length] in Hge; lia].
  rewrite (readVarint_single wrapU64 8 pre _ wrapU64_accumulates) by lia.
  change (Z.land 8 7 =? 4) with false.
  change (wrapI32 (Z.shiftr 8 3) <=? 0) with false.
  change (wrapI32 (Z.shiftr 8 3) =? 1) with true.
  change (negb (Z.land 8 7 =? 0)) with false.
  cbv iota.
  replace (pre ++ 8 :: varintBytes 10 v ++ rest)
    with ((pre ++ [8]) ++ varintBytes 10 v ++ rest)
    by (rewrite <- app_assoc; reflexivity).
  replace (Z.of_nat (List.length pre) + 1)
    with (Z.of_nat (List.length (pre ++ [8])))
    by (rewrite length_app; cbn; lia).
  rewrite (readVarint_varintBytes wrapI64 v (pre ++ [8]) rest
             wrapI64_accumulates Hv).
  reflexivity.
Qed.

Lemma unmarshalLoop_missed_field
  (fuel : nat) (m : MissedBlock) (b : Z) (pre rest : list Z) :
  0 <= b < 128 ->
  MissedBlock_unmarshalLoop (S fuel) m (pre ++ 16 :: b :: rest)
    (Z.of_nat (List.length pre))
  = MissedBlock_unmarshalLoop fuel
      {| Index := Index m; Missed := negb (b =? 0) |}
      (pre ++ 16 :: b :: rest)
      (Z.of_nat (List.length pre) + 2).
Proof.
  intros Hb. cbn [MissedBlock_unmarshalLoop].
  destruct (Z.ltb_spec (Z.of_nat (List.length pre))
              (Z.of_nat (List.length (pre ++ 16 :: b :: rest))))
    as [_ | Hge]; [| rewrite length_app in Hge; cbn [List.length] in Hge; lia].
  rewrite (readVarint_single wrapU64 16 pre _ wrapU64_accumulates) by lia.
  change (Z.land 16 7 =? 4) with false.
  change (wrapI32 (Z.shiftr 16 3) <=? 0) with false.
  change (wrapI32 (Z.shiftr 16 3) =? 1) with false.
  change (wrapI32 (Z.shiftr 16 3) =? 2) with true.
  change (negb (Z.land 16 7 =? 0)) with false.
  cbv iota.
  replace (pre ++ 16 :: b :: rest) with ((pre ++ [16]) ++ b :: rest)
    by (rewrite <- app_assoc; reflexivity).
  replace (Z.of_nat (List.length pre) + 1)
    with (Z.of_nat (List.length (pre ++ [16])))
    by (rewrite length_app; cbn; lia).
  rewrite (readVarint_single wrapI64 b (pre ++ [16]) rest wrapI64_accumulates Hb).
  f_equal. rewrite length_app. cbn [List.length]. lia.
Qed.

Lemma MissedBlock_Unmarshal_wire (m0 m : MissedBlock) :
  - 2 ^ 63 <= Index m < 2 ^ 63 ->
  MissedBlock_Unmarshal m0 (MissedBlock_wire m)
  = Returns ({| Index := if Index m =? 0 then Index m0 else Index m;
                Missed := if Missed m then true else Missed m0 |}, None).
Proof.
  intros Hidx. destruct m as [idx missed], m0 as [idx0 missed0].
  cbn [Index Missed] in *.
  unfold MissedBlock_Unmarshal, MissedBlock_wire. cbn [Index Missed].
  pose proof (wrapU64_range idx) as Hv.
  pose proof (varintBytes_length 9 (wrapU64 idx)
                ltac:(pose proof pow2_64_lt_70; lia)) as Hvb.
  destruct (Z.eqb_spec idx 0) as [E | E]; destruct missed; cbn [app].
  - change 0 with (Z.of_nat (List.length (@nil Z))).
    rewrite (unmarshalLoop_missed_field _ _ 1 [] []) by lia.
    apply (unmarshalLoop_end _ _ [16; 1]).
  - reflexivity.
  - change 0 with (Z.of_nat (List.length (@nil Z))) at 1.
    change (8 :: varintBytes 10 (wrapU64 idx) ++ [16; 1])
      with ([] ++ 8 :: varintBytes 10 (wrapU64 idx) ++ [16; 1]).
    cbn [List.length app].
    rewrite length_app. cbn [List.length].
    replace (S (List.length (varintBytes 10 (wrapU64 idx)) + 2))
      with (S (S (S (List.length (varintBytes 10 (wrapU64 idx)))))) by lia.
    rewrite (unmarshalLoop_index_field _ _ _ [] [16; 1] Hv).
    cbn [List.length app Missed Index].
    rewrite wrapI64_wrapU64 by assumption.
    replace (8 :: varintBytes 10 (wrapU64 idx) ++ [16; 1])
      with ((8 :: varintBytes 10 (wrapU64 idx)) ++ 16 :: 1 :: [])
      by reflexivity.
    replace (Z.of_nat 0 + 1 + sovGenesis (wrapU64 idx))
      with (Z.of_nat (List.length (8 :: varintBytes 10 (wrapU64 idx))))
      by (cbn [List.length]; lia).
    rewrite unmarshalLoop_missed_field by lia.
    cbn [Index Missed].
    replace (Z.of_nat (List.length (8 :: varintBytes 10 (wrapU64 idx))) + 2)
      with (Z.of_nat (List.length ((8 :: varintBytes 10 (wrapU64 idx)) ++ [16; 1])))
      by (rewrite length_app; cbn [List.length]; lia).
    apply unmarshalLoop_end.
  - rewrite app_nil_r.
    change 0 with (Z.of_nat (List.length (@nil Z))) at 1.
    change (8 :: varintBytes 10 (wrapU64 idx))
      with ([] ++ 8 :: varintBytes 10 (wrapU64 idx)) at 2.
    rewrite <- (app_nil_r (varintBytes 10 (wrapU64 idx))) at 2.
    cbn [List.length].
    rewrite (unmarshalLoop_index_field _ _ _ [] [] Hv).
    cbn [List.length app Missed Index].
    rewrite wrapI64_wrapU64 by assumption.
    rewrite app_nil_r.
    replace (Z.of_nat 0 + 1 + sovGenesis (wrapU64 idx))
      with (Z.of_nat (List.length (8 :: varintBytes 10 (wrapU64 idx))))
      by (cbn [List.length]; lia).
    apply unmarshalLoop_end.
Qed.

Lemma wrapI64_range (z : Z) : - 2 ^ 63 <= wrapI64 z < 2 ^ 63.
Proof.
  unfold wrapI64. pose proof (Z.mod_pos_bound (z + 2 ^ 63) (2 ^ 64) ltac:(lia)).
  lia.
Qed.

Lemma wrapI64_add_progress (a b : Z) :
  0 <= a < 2 ^ 63 -> 0 <= b < 2 ^ 63 ->
  wrapI64 (a + b) < 0 \/ wrapI64 (a + b) = a + b.
Proof.
  intros Ha Hb.
  destruct (Z_lt_le_dec (a + b) (2 ^ 63)) as [Hlow | Hhigh].
  - right. apply wrapI64_small. lia.
  - left. rewrite wrapI64_high; lia.
Qed.

Lemma decodeVarint_progress (wrap : Z -> Z) (rest : list Z) :
  forall shift acc i v next,
    decodeVarint wrap rest shift acc i = VarintOk v next ->
    i < next <= i + Z.of_nat (List.length rest).
Proof.
  induction rest as [| b rest IH]; intros shift acc i v next H;
    cbn [decodeVarint] in H; destruct (shift >=? 64); try discriminate.
  destruct (b <? 128).
  - injection H as _ <-. cbn [List.length]. lia.
  - apply IH in H. cbn [List.length]. lia.
Qed.

Lemma readVarint_progress (wrap : Z -> Z) (dAtA : list Z) (i v next : Z) :
  0 <= i ->
  readVarint wrap dAtA i = VarintOk v next ->
  i < next /\ (i <= Z.of_nat (List.length dAtA) ->
               next <= Z.of_nat (List.length dAtA)).
Proof.
  intros Hi H. unfold readVarint in H. apply decodeVarint_progress in H.
  rewrite length_skipn in H. lia.
Qed.

Lemma lor_bound (a b n : Z) :
  0 < n -> 0 <= a < 2 ^ n -> 0 <= b < 2 ^ n -> 0 <= Z.lor a b < 2 ^ n.
Proof.
  intros Hn Ha Hb.
  assert (Hnn : 0 <= Z.lor a b) by (apply Z.lor_nonneg; lia).
  split; [exact Hnn |].
  destruct (Z.eq_dec (Z.lor a b) 0) as [-> | Hne].
  - apply Z.pow_pos_nonneg; lia.
  - apply Z.log2_lt_pow2; [lia |].
    rewrite Z.log2_lor by lia.
    assert (Hlog : forall x, 0 <= x < 2 ^ n -> Z.log2 x < n).
    { intros x Hx. destruct (Z.eq_dec x 0) as [-> | Hx0]; [cbn; lia |].
      apply Z.log2_lt_pow2; lia. }
    pose proof (Hlog a Ha). pose proof (Hlog b Hb). lia.
Qed.

Lemma wrapI64_periodic (z k : Z) : wrapI64 (z + k * 2 ^ 64) = wrapI64 z.
Proof.
  unfold wrapI64.
  replace (z + k * 2 ^ 64 + 2 ^ 63) with (z + 2 ^ 63 + k * 2 ^ 64) by lia.
  now rewrite Z_mod_plus_full.
Qed.

(** A varint read into an [int64] or [int] is within that type. *)
Lemma decodeVarint_int64_range (rest : list Z) :
  forall k acc i v next,
    0 <= k -> 0 <= acc < 2 ^ 63 ->
    decodeVarint wrapI64 rest (7 * k) acc i = VarintOk v next ->
    - 2 ^ 63 <= v < 2 ^ 63.
Proof.
  induction rest as [| b rest IH]; intros k acc i v next Hk Hacc H;
    cbn [decodeVarint] in H;
    destruct (7 * k >=? 64) eqn:G; try discriminate.
  rewrite Z.geb_leb in G. apply Z.leb_gt in G.
  assert (Hx : 0 <= Z.land b 127 < 128)
    by (rewrite land_127; apply Z.mod_pos_bound; lia).
  set (x := Z.land b 127) in *.
  rewrite Z.shiftl_mul_pow2 in H by lia.
  destruct (Z_le_gt_dec k 8) as [Hk8 | Hk9].
  - assert (HP : 0 < 2 ^ (7 * k)) by (apply Z.pow_pos_nonneg; lia).
    assert (Hpiece : 0 <= x * 2 ^ (7 * k) < 2 ^ 63).
    { split; [nia |].
      apply Z.lt_le_trans with (2 ^ (7 * k + 7)).
      - rewrite Z.pow_add_r by lia. change (2 ^ 7) with 128. nia.
      - apply Z.pow_le_mono_r; lia. }
    rewrite wrapI64_small in H by assumption.
    pose proof (lor_bound acc (x * 2 ^ (7 * k)) 63 ltac:(lia) Hacc Hpiece) as Hlor.
    destruct (b <? 128).
    + assert (E : Z.lor acc (x * 2 ^ (7 * k)) = v) by congruence.
      lia.
    + replace (7 * k + 7) with (7 * (k + 1)) in H by lia.
      apply IH in H; [assumption | lia | assumption].
  - assert (k = 9) by lia. subst k. change (7 * 9) with 63 in *.
    destruct (b <? 128).
    + assert (E : Z.lor acc (wrapI64 (x * 2 ^ 63)) = v) by congruence.
      rewrite <- E. clear E H.
      pose proof (Z.div_mod x 2 ltac:(lia)) as Hdm.
      pose proof (Z.mod_pos_bound x 2 ltac:(lia)) as Hm.
      replace (x * 2 ^ 63) with (x mod 2 * 2 ^ 63 + x / 2 * 2 ^ 64) by lia.
      rewrite wrapI64_periodic.
      assert (Hcase : x mod 2 = 0 \/ x mod 2 = 1) by lia.
      destruct Hcase as [-> | ->].
      * change (wrapI64 (0 * 2 ^ 63)) with 0. rewrite Z.lor_0_r. lia.
      * change (wrapI64 (1 * 2 ^ 63)) with ((-1) * 2 ^ 63).
        rewrite lor_disjoint_add by lia. lia.
    + cbn [decodeVarint] in H. destruct rest; discriminate.
Qed.

Lemma readVarint_int64_range (dAtA : list Z) (i v next : Z) :
  readVarint wrapI64 dAtA i = VarintOk v next -> - 2 ^ 63 <= v < 2 ^ 63.
Proof.
  unfold readVarint. change 0 with (7 * 0) at 1.
  apply decodeVarint_int64_range; lia.
Qed.

(** One turn of [skipGenesis] ends, or goes on from a later index. *)
Lemma skipLoop_returns (fuel : nat) :
  forall (dAtA : list Z) (i depth : Z),
    Z.of_nat (List.length dAtA) < 2 ^ 63 ->
    0 <= i ->
    Z.of_nat (List.length dAtA) - i < Z.of_nat fuel ->
    exists n err,
      skipLoop fuel dAtA i depth = Returns (n, err) /\
      (err = None -> i < n < 2 ^ 63).
Proof.
  induction fuel as [| fuel IH]; intros dAtA i depth Hlen Hi Hfuel.
  - exists 0, (Some ErrUnexpectedEOF). cbn [skipLoop].
    destruct (Z.ltb_spec i (Z.of_nat (List.length dAtA))); [lia |].
    split; [reflexivity | discriminate].
  - cbn [skipLoop].
    destruct (Z.ltb_spec i (Z.of_nat (List.length dAtA))) as [Hlt | Hge].
    2: { exists 0, (Some ErrUnexpectedEOF). split; [reflexivity | discriminate]. }
    assert (Hnext : forall i' depth',
               i' < 0 \/ (i < i' < 2 ^ 63) ->
               exists n err,
                 (if i' <? 0 then Returns (0, Some ErrInvalidLengthGenesis)
                  else if depth' =? 0 then Returns (i', None)
                  else skipLoop fuel dAtA i' depth') = Returns (n, err) /\
                 (err = None -> i < n < 2 ^ 63)).
    { intros i' depth' Hi'.
      destruct (Z.ltb_spec i' 0) as [Hneg | Hpos].
      - exists 0, (Some ErrInvalidLengthGenesis).
        split; [reflexivity | discriminate].
      - destruct (depth' =? 0).
        + exists i', None. split; [reflexivity | lia].
        + destruct (IH dAtA i' depth' Hlen ltac:(lia) ltac:(lia))
            as (n & err & -> & Hn).
          exists n, err. split; [reflexivity |]. intros E. specialize (Hn E). lia. }
    destruct (readVarint wrapU64 dAtA i) as [wire i1 | e partial] eqn:Htag.
    2: { exists 0, (Some e). split; [reflexivity | discriminate]. }
    apply readVarint_progress in Htag as [Hi1 Hi1']; [| assumption].
    specialize (Hi1' ltac:(lia)).
    destruct (Z.land wire 7 =? 0).
    { destruct (readVarint wrapU64 dAtA i1) as [x i2 | e partial] eqn:Hv.
      2: { exists 0, (Some e). split; [reflexivity | discriminate]. }
      apply readVarint_progress in Hv as [Hi2 Hi2']; [| lia].
      apply Hnext. right. lia. }
    destruct (Z.land wire 7 =? 1).
    { apply Hnext.
      destruct (wrapI64_add_progress i1 8 ltac:(lia) ltac:(lia)) as [H | H];
        [left; exact H | right; rewrite H].
      pose proof (wrapI64_range (i1 + 8)). lia. }
    destruct (Z.land wire 7 =? 2).
    { destruct (readVarint wrapI64 dAtA i1) as [len i2 | e partial] eqn:Hv.
      2: { exists 0, (Some e). split; [reflexivity | discriminate]. }
      apply readVarint_int64_range in Hv as Hrange.
      apply readVarint_progress in Hv as [Hi2 Hi2']; [| lia].
      destruct (Z.ltb_spec len 0) as [Hneg | Hpos].
      { exists 0, (Some ErrInvalidLengthGenesis).
        split; [reflexivity | discriminate]. }
      apply Hnext.
      destruct (wrapI64_add_progress i2 len ltac:(lia) ltac:(lia)) as [H | H];
        [left; exact H | right; rewrite H].
      pose proof (wrapI64_range (i2 + len)). lia. }
    destruct (Z.land wire 7 =? 3).
    { apply Hnext. right. lia. }
    destruct (Z.land wire 7 =? 4).
    { destruct (depth =? 0).
      - exists 0, (Some ErrUnexpectedEndOfGroupGenesis).
        split; [reflexivity | discriminate].
      - apply Hnext. right. lia. }
    destruct (Z.land wire 7 =? 5).
    { apply Hnext.
      destruct (wrapI64_add_progress i1 4 ltac:(lia) ltac:(lia)) as [H | H];
        [left; exact H | right; rewrite H].
      pose proof (wrapI64_range (i1 + 4)). lia. }
    exists 0, (Some (ErrIllegalWireType (Z.land wire 7))).
    split; [reflexivity | discriminate].
Qed.

Lemma skipGenesis_returns (dAtA : list Z) :
  Z.of_nat (List.length dAtA) < 2 ^ 63 ->
  exists n err,
    skipGenesis dAtA = Returns (n, err) /\ (err = None -> 0 < n < 2 ^ 63).
Proof.
  intros Hlen. unfold skipGenesis. apply skipLoop_returns; lia.
Qed.

Lemma unmarshalLoop_returns (fuel : nat) :
  forall (m : MissedBlock) (dAtA : list Z) (i : Z),
    Z.of_nat (List.length dAtA) < 2 ^ 63 ->
    0 <= i ->
    Z.of_nat (List.length dAtA) - i < Z.of_nat fuel ->
    exists m' err, MissedBlock_unmarshalLoop fuel m dAtA i = Returns (m', err).
Proof.
  induction fuel as [| fuel IH]; intros m dAtA i Hlen Hi Hfuel.
  - cbn [MissedBlock_unmarshalLoop].
    destruct (Z.ltb_spec i (Z.of_nat (List.length dAtA))); [lia |].
    destruct (i >? Z.of_nat (List.length dAtA)); eauto.
  - cbn [MissedBlock_unmarshalLoop].
    destruct (Z.ltb_spec i (Z.of_nat (List.length dAtA))) as [Hlt | Hge].
    2: { destruct (i >? Z.of_nat (List.length dAtA)); eauto. }
    destruct (readVarint wrapU64 dAtA i) as [wire i1 | e partial] eqn:Htag;
      [| eauto].
    apply readVarint_progress in Htag as [Hi1 Hi1']; [| assumption].
    specialize (Hi1' ltac:(lia)).
    destruct (Z.land wire 7 =? 4); [eauto |].
    destruct (wrapI32 (Z.shiftr wire 3) <=? 0); [eauto |].
    destruct (wrapI32 (Z.shiftr wire 3) =? 1).
    { destruct (negb (Z.land wire 7 =? 0)); [eauto |].
      destruct (readVarint wrapI64 dAtA i1) as [v i2 | e partial] eqn:Hv;
        [| eauto].
      apply readVarint_progress in Hv as [Hi2 Hi2']; [| lia].
      apply IH; lia. }
    destruct (wrapI32 (Z.shiftr wire 3) =? 2).
    { destruct (negb (Z.land wire 7 =? 0)); [eauto |].
      destruct (readVarint wrapI64 dAtA i1) as [v i2 | e partial] eqn:Hv;
        [| eauto].
      apply readVarint_progress in Hv as [Hi2 Hi2']; [| lia].
      apply IH; lia. }
    destruct (skipGenesis_returns (skipn (Z.to_nat i) dAtA))
      as (n & err & -> & Hn).
    { rewrite length_skipn. lia. }
    destruct err as [e |]; [eauto |].
    specialize (Hn eq_refl).
    destruct (Z.ltb_spec n 0); [eauto |].
    destruct (Z.ltb_spec (wrapI64 (i + n)) 0); [eauto |].
    destruct (Z.gtb_spec (wrapI64 (i + n)) (Z.of_nat (List.length dAtA)));
      [eauto |].
    destruct (wrapI64_add_progress i n ltac:(lia) ltac:(lia)) as [H' | H'];
      [lia |].
    apply IH; lia.
Qed.

Lemma MissedBlock_Unmarshal_returns (m : MissedBlock) (dAtA : list Z) :
  Z.of_nat (List.length dAtA) < 2 ^ 63 ->
  exists m' err, MissedBlock_Unmarshal m dAtA = Returns (m', err).
Proof.
  intros Hlen. unfold MissedBlock_Unmarshal. apply unmarshalLoop_returns; lia.
Qed.

(** A buffer with room: its front and a slot of the given size. *)
Lemma buffer_front_slot (dAtA : list Z) (size : Z) :
  0 <= size <= Z.of_nat (List.length dAtA) ->
  exists slot,
    dAtA = firstn (List.length dAtA - Z.to_nat size) dAtA ++ slot /\
    Z.of_nat (List.length slot) = size.
Proof.
  intros Hsize.
  exists (skipn (List.length dAtA - Z.to_nat size) dAtA). split.
  - symmetry. apply firstn_skipn.
  - rewrite length_skipn. lia.
Qed.

Lemma encodeVarintGenesis_short (dAtA : list Z) (offset v : Z) :
  offset < sovGenesis v -> encodeVarintGenesis dAtA offset v = Panics.
Proof.
  intros H. unfold encodeVarintGenesis.
  now rewrite encodeVarintLoop_before_buffer by lia.
Qed.

Lemma MissedBlock_MarshalToSizedBuffer_short (m : MissedBlock) (dAtA : list Z) :
  Z.of_nat (List.length dAtA) < MissedBlock_Size (Some m) ->
  MissedBlock_MarshalToSizedBuffer m dAtA = Panics.
Proof.
  destruct m as [idx missed].
  unfold MissedBlock_Size, MissedBlock_MarshalToSizedBuffer. cbn [Index Missed].
  pose proof (wrapU64_range idx) as Hv.
  pose proof (sovGenesis_bounds _ Hv) as (Hsov & _).
  intros Hlen.
  assert (Hindex : forall (D : list Z),
             Z.of_nat (List.length D) < 1 + sovGenesis (wrapU64 idx) ->
             forall post,
             match encodeVarintGenesis (D ++ post) (Z.of_nat (List.length D))
                     (wrapU64 idx) with
             | Returns (i, dAtA0) =>
                 match store dAtA0 (i - 1) 8 with
                 | Some dAtA' =>
                     Returns (Z.of_nat (List.length dAtA') - (i - 1), dAtA')
                 | None => @Panics (Z * list Z)
                 end
             | Panics => Panics
             | Diverges => Diverges
             end = Panics).
  { intros D HD post.
    destruct (Z_lt_le_dec (Z.of_nat (List.length D)) (sovGenesis (wrapU64 idx)))
      as [Hshort | Hexact].
    - now rewrite encodeVarintGenesis_short.
    - assert (Heq : Z.of_nat (List.length D) = sovGenesis (wrapU64 idx)) by lia.
      pose proof (encodeVarintGenesis_writes (wrapU64 idx) [] D post Hv Heq) as H.
      cbn [app List.length] in H. rewrite Z.add_0_l in H. rewrite H.
      now rewrite store_outside by lia. }
  destruct missed.
  - destruct dAtA as [| a dAtA]; [reflexivity |].
    destruct (list_split (a :: dAtA) (List.length dAtA) 1)
      as (P & tail & HP & HlenP & Htail); [cbn [List.length]; lia |].
    destruct tail as [| b [| c tail]]; try discriminate. clear Htail.
    rewrite HP.
    replace (Z.of_nat (List.length (P ++ [b])) - 1) with (Z.of_nat (List.length P))
      by (rewrite length_app; cbn; lia).
    rewrite store_middle.
    destruct P as [| p P].
    + now rewrite store_outside by (cbn; lia).
    + destruct (list_split (p :: P) (List.length P) 1)
        as (Q & tail & HQ & HlenQ & Htail); [cbn [List.length]; lia |].
      destruct tail as [| c [| d tail]]; try discriminate. clear Htail.
      rewrite HQ, <- app_assoc. cbn [app].
      replace (Z.of_nat (List.length (Q ++ [c])) - 1)
        with (Z.of_nat (List.length Q))
        by (rewrite length_app; cbn; lia).
      rewrite store_middle.
      assert (HlenQ' : Z.of_nat (List.length Q) < 1 + sovGenesis (wrapU64 idx)).
      { rewrite HP, HQ in Hlen. rewrite !length_app in Hlen.
        cbn [List.length] in Hlen. destruct (idx =? 0); lia. }
      destruct (Z.eqb_spec idx 0) as [E | E]; cbn [negb].
      * rewrite HP, HQ in Hlen. rewrite !length_app in Hlen.
        cbn [List.length] in Hlen. lia.
      * apply Hindex. assumption.
  - destruct (Z.eqb_spec idx 0) as [E | E]; cbn [negb].
    + lia.
    + specialize (Hindex dAtA ltac:(lia) []). rewrite app_nil_r in Hindex.
      exact Hindex.
Qed.

(** A message cut in the middle of its second field. *)
Lemma MissedBlock_Unmarshal_cut (m0 : MissedBlock) (v : Z) :
  0 <= v < 2 ^ 64 ->
  MissedBlock_Unmarshal m0 (8 :: varintBytes 10 v ++ [16])
  = Returns ({| Index := wrapI64 v; Missed := Missed m0 |}, Some ErrUnexpectedEOF).
Proof.
  intros Hv. unfold MissedBlock_Unmarshal.
  pose proof (varintBytes_length 9 v ltac:(pose proof pow2_64_lt_70; lia)) as Hvb.
  cbn [List.length]. rewrite length_app. cbn [List.length].
  replace (S (List.length (varintBytes 10 v) + 1))
    with (S (S (List.length (varintBytes 10 v)))) by lia.
  change 0 with (Z.of_nat (List.length (@nil Z))) at 1.
  change (8 :: varintBytes 10 v ++ [16])
    with ([] ++ 8 :: varintBytes 10 v ++ [16]).
  rewrite (unmarshalLoop_index_field _ m0 v [] [16] Hv).
  cbn [app List.length].
  replace (8 :: varintBytes 10 v ++ [16])
    with ((8 :: varintBytes 10 v) ++ [16]) by reflexivity.
  replace (Z.of_nat 0 + 1 + sovGenesis v)
    with (Z.of_nat (List.length (8 :: varintBytes 10 v)))
    by (cbn [List.length]; lia).
  cbn [MissedBlock_unmarshalLoop].
  destruct (Z.ltb_spec (Z.of_nat (List.length (8 :: varintBytes 10 v)))
              (Z.of_nat (List.length ((8 :: varintBytes 10 v) ++ [16]))))
    as [_ | Hge]; [| rewrite length_app in Hge; cbn [List.length] in Hge; lia].
  rewrite (readVarint_single wrapU64 16 _ [] wrapU64_accumulates) by lia.
  change (Z.land 16 7 =? 4) with false.
  change (wrapI32 (Z.shiftr 16 3) <=? 0) with false.
  change (wrapI32 (Z.shiftr 16 3) =? 1) with false.
  change (wrapI32 (Z.shiftr 16 3) =? 2) with true.
  change (negb (Z.land 16 7 =? 0)) with false.
  cbv iota.
  unfold readVarint.
  replace (Z.to_nat (Z.of_nat (List.length (8 :: varintBytes 10 v)) + 1))
    with (List.length ((8 :: varintBytes 10 v) ++ [16]))
    by (rewrite length_app; cbn [List.length]; lia).
  rewrite skipn_all. reflexivity.
Qed.

Lemma wrapI32_small (z : Z) : - 2 ^ 31 <= z < 2 ^ 31 -> wrapI32 z = z.
Proof.
  intros H. unfold wrapI32. rewrite Z.mod_small; lia.
Qed.

(** The field number and the wire type of a one-byte tag. *)
Lemma tag_parts (t : Z) :
  0 <= t < 128 ->
  wrapI32 (Z.shiftr t 3) = t / 8 /\ Z.land t 7 = t mod 8.
Proof.
  intros Ht. split.
  - rewrite Z.shiftr_div_pow2 by lia. change (2 ^ 3) with 8.
    apply wrapI32_small.
    pose proof (Z.div_pos t 8 ltac:(lia) ltac:(lia)).
    assert (t / 8 < 16) by (apply Z.div_lt_upper_bound; lia).
    lia.
  - change 7 with (Z.ones 3). rewrite Z.land_ones by lia. reflexivity.
Qed.

Lemma unmarshalLoop_first_tag
  (fuel : nat) (m : MissedBlock) (t : Z) (pre rest : list Z) :
  0 <= t < 128 ->
  MissedBlock_unmarshalLoop (S fuel) m (pre ++ t :: rest)
    (Z.of_nat (List.length pre))
  = let dAtA := pre ++ t :: rest in
    let iNdEx := Z.of_nat (List.length pre) + 1 in
    if t mod 8 =? 4 then Returns (m, Some (ErrEndGroupForNonGroup "MissedBlock"))
    else if t / 8 <=? 0 then Returns (m, Some (ErrIllegalTag "MissedBlock" (t / 8) t))
    else if t / 8 =? 1 then
      if negb (t mod 8 =? 0) then
        Returns (m, Some (ErrWrongWireType (t mod 8) "Index"))
      else
        match readVarint wrapI64 dAtA iNdEx with
        | VarintErr e partial =>
            Returns ({| Index := partial; Missed := Missed m |}, Some e)
        | VarintOk v iNdEx =>
            MissedBlock_unmarshalLoop fuel
              {| Index := v; Missed := Missed m |} dAtA iNdEx
        end
    else if t / 8 =? 2 then
      if negb (t mod 8 =? 0) then
        Returns (m, Some (ErrWrongWireType (t mod 8) "Missed"))
      else
        match readVarint wrapI64 dAtA iNdEx with
        | VarintErr e _ => Returns (m, Some e)
        | VarintOk v iNdEx =>
            MissedBlock_unmarshalLoop fuel
              {| Index := Index m; Missed := negb (v =? 0) |} dAtA iNdEx
        end
    else
      match skipGenesis (t :: rest) with
      | Returns (_, Some err) => Returns (m, Some err)
      | Returns (skippy, None) =>
          if skippy <? 0 then Returns (m, Some ErrInvalidLengthGenesis)
          else if wrapI64 (Z.of_nat (List.length pre) + skippy) <? 0 then
            Returns (m, Some ErrInvalidLengthGenesis)
          else if wrapI64 (Z.of_nat (List.length pre) + skippy)
                  >? Z.of_nat (List.length dAtA) then
            Returns (m, Some ErrUnexpectedEOF)
          else
            MissedBlock_unmarshalLoop fuel m dAtA
              (wrapI64 (Z.of_nat (List.length pre) + skippy))
      | Panics => Panics
      | Diverges => Diverges
      end.
Proof.
  intros Ht. cbn [MissedBlock_unmarshalLoop]. cbv zeta.
  destruct (Z.ltb_spec (Z.of_nat (List.length pre))
              (Z.of_nat (List.length (pre ++ t :: rest))))
    as [_ | Hge]; [| rewrite length_app in Hge; cbn [List.length] in Hge; lia].
  rewrite (readVarint_single wrapU64 t pre rest wrapU64_accumulates Ht).
  destruct (tag_parts t Ht) as [-> ->].
  rewrite Nat2Z.id, skipn_length_app.
  reflexivity.
Qed.

(** X20: an input whose first tag byte cannot start a field of
    [MissedBlock] is rejected and the message is left as it was: wire
    type 4 gives the end-group error, field number 0 the illegal-tag
    error, and field 1 or 2 with a wire type other than varint the
    wrong-wire-type error naming the field. *)
Theorem MissedBlock_Unmarshal_bad_tag (m : MissedBlock) (t : Z) (rest : list Z) :
  0 <= t < 128 ->
  (t mod 8 = 4 ->
   MissedBlock_Unmarshal m (t :: rest)
   = Returns (m, Some (ErrEndGroupForNonGroup "MissedBlock"))) /\
  (t < 8 -> t <> 4 ->
   MissedBlock_Unmarshal m (t :: rest)
   = Returns (m, Some (ErrIllegalTag "MissedBlock" 0 t))) /\
  (8 <= t < 24 -> t mod 8 <> 0 -> t mod 8 <> 4 ->
   MissedBlock_Unmarshal m (t :: rest)
   = Returns (m, Some (ErrWrongWireType (t mod 8)
                         (if t <? 16 then "Index" else "Missed")))).
Proof.
  intros Ht. unfold MissedBlock_Unmarshal. cbn [List.length].
  pose proof (unmarshalLoop_first_tag (S (List.length rest)) m t [] rest Ht) as H.
  cbn [app List.length] in H. change (Z.of_nat 0) with 0 in H.
  rewrite H. cbv zeta.
  pose proof (Z.div_mod t 8 ltac:(lia)) as Hdm.
  pose proof (Z.mod_pos_bound t 8 ltac:(lia)) as Hm.
  repeat split.
  - intros ->. reflexivity.
  - intros Hsmall Hne.
    assert (Hq : t / 8 = 0) by (apply Z.div_small; lia).
    rewrite Hq. rewrite Z.mod_small by lia.
    destruct (Z.eqb_spec t 4); [lia | reflexivity].
  - intros Hrange H0 H4.
    destruct (Z.eqb_spec (t mod 8) 4); [lia |].
    destruct (Z.eqb_spec (t mod 8) 0); [lia |]. cbn [negb].
    destruct (Z.ltb_spec t 16).
    + assert (Hq : t / 8 = 1) by lia. rewrite Hq. reflexivity.
    + assert (Hq : t / 8 = 2) by lia. rewrite Hq. reflexivity.
Qed.

Lemma skipGenesis_varint_field (t x : Z) (rest : list Z) :
  0 <= t < 128 -> t mod 8 = 0 -> 0 <= x < 128 ->
  skipGenesis (t :: x :: rest) = Returns (2, None).
Proof.
  intros Ht Hwire Hx. unfold skipGenesis. cbn [List.length skipLoop].
  destruct (Z.ltb_spec 0 (Z.of_nat (S (S (List.length rest))))); [| lia].
  pose proof (readVarint_single wrapU64 t [] (x :: rest) wrapU64_accumulates Ht)
    as Htag.
  cbn [app List.length] in Htag. change (Z.of_nat 0) with 0 in Htag.
  rewrite Htag.
  destruct (tag_parts t Ht) as [_ ->]. rewrite Hwire.
  change (0 =? 0) with true. cbv iota. change (0 + 1) with 1.
  pose proof (readVarint_single wrapU64 x [t] rest wrapU64_accumulates Hx)
    as Hval.
  cbn [app List.length] in Hval. change (Z.of_nat 1) with 1 in Hval.
  rewrite Hval. reflexivity.
Qed.

Lemma unmarshalLoop_unknown_field
  (fuel : nat) (m : MissedBlock) (t x : Z) (pre rest : list Z) :
  24 <= t < 128 -> t mod 8 = 0 -> 0 <= x < 128 ->
  Z.of_nat (List.length pre) + 2 < 2 ^ 63 ->
  MissedBlock_unmarshalLoop (S fuel) m (pre ++ t :: x :: rest)
    (Z.of_nat (List.length pre))
  = MissedBlock_unmarshalLoop fuel m (pre ++ t :: x :: rest)
      (Z.of_nat (List.length pre) + 2).
Proof.
  intros Ht Hwire Hx Hlen.
  rewrite unmarshalLoop_first_tag by lia. cbv zeta.
  rewrite Hwire. change (0 =? 4) with false. cbv iota.
  pose proof (Z.div_mod t 8 ltac:(lia)) as Hdm.
  destruct (Z.leb_spec (t / 8) 0); [lia |].
  destruct (Z.eqb_spec (t / 8) 1); [lia |].
  destruct (Z.eqb_spec (t / 8) 2); [lia |].
  rewrite skipGenesis_varint_field by lia.
  change (2 <? 0) with false. cbv iota.
  rewrite wrapI64_small by lia.
  destruct (Z.ltb_spec (Z.of_nat (List.length pre) + 2) 0); [lia |].
  destruct (Z.gtb_spec (Z.of_nat (List.length pre) + 2)
              (Z.of_nat (List.length (pre ++ t :: x :: rest))));
    [rewrite length_app in *; cbn [List.length] in *; lia |].
  reflexivity.
Qed.

(** The round trip at any place of a buffer. *)
Lemma unmarshalLoop_wire
  (fuel : nat) (m0 m : MissedBlock) (pre : list Z) :
  - 2 ^ 63 <= Index m < 2 ^ 63 ->
  MissedBlock_unmarshalLoop (S (S fuel)) m0 (pre ++ MissedBlock_wire m)
    (Z.of_nat (List.length pre))
  = Returns ({| Index := if Index m =? 0 then Index m0 else Index m;
                Missed := if Missed m then true else Missed m0 |}, None).
Proof.
  intros Hidx. destruct m as [idx missed], m0 as [idx0 missed0].
  cbn [Index Missed] in *. unfold MissedBlock_wire. cbn [Index Missed].
  pose proof (wrapU64_range idx) as Hv.
  pose proof (varintBytes_length 9 (wrapU64 idx)
                ltac:(pose proof pow2_64_lt_70; lia)) as Hvb.
  assert (Hend : forall f m' (l : list Z) (i : Z),
             i = Z.of_nat (List.length l) ->
             MissedBlock_unmarshalLoop f m' l i = Returns (m', None))
    by (intros f m' l i ->; apply unmarshalLoop_end).
  destruct (Z.eqb_spec idx 0) as [E | E]; destruct missed; cbn [app].
  - rewrite unmarshalLoop_missed_field by lia. cbn [Index Missed].
    apply Hend. rewrite length_app. cbn [List.length]. lia.
  - apply Hend. now rewrite app_nil_r.
  - rewrite unmarshalLoop_index_field by assumption. cbn [Index Missed].
    rewrite wrapI64_wrapU64 by assumption.
    replace (pre ++ 8 :: varintBytes 10 (wrapU64 idx) ++ [16; 1])
      with ((pre ++ 8 :: varintBytes 10 (wrapU64 idx)) ++ 16 :: 1 :: [])
      by (rewrite <- app_assoc; reflexivity).
    replace (Z.of_nat (List.length pre) + 1 + sovGenesis (wrapU64 idx))
      with (Z.of_nat (List.length (pre ++ 8 :: varintBytes 10 (wrapU64 idx))))
      by (rewrite length_app; cbn [List.length]; lia).
    rewrite unmarshalLoop_missed_field by lia. cbn [Index Missed].
    apply Hend. rewrite !length_app. cbn [List.length]. lia.
  - rewrite unmarshalLoop_index_field by assumption. cbn [Index Missed].
    rewrite wrapI64_wrapU64 by assumption.
    apply Hend. rewrite !length_app. cbn [List.length]. rewrite length_app.
    cbn [List.length]. lia.
Qed.

(** X21: a field that [MissedBlock] does not know (field number 3 to 15)
    with a one-byte varint value, placed in front of a marshalled
    message, is skipped: the result is that of unmarshalling the message
    alone. *)
Theorem MissedBlock_Unmarshal_skips_unknown
  (m0 m : MissedBlock) (t x : Z) :
  24 <= t < 128 -> t mod 8 = 0 -> 0 <= x < 128 ->
  - 2 ^ 63 <= Index m < 2 ^ 63 ->
  MissedBlock_Unmarshal m0 (t :: x :: MissedBlock_wire m)
  = MissedBlock_Unmarshal m0 (MissedBlock_wire m).
Proof.
  intros Ht Hwire Hx Hidx.
  rewrite (MissedBlock_Unmarshal_wire m0 m Hidx).
  unfold MissedBlock_Unmarshal. cbn [List.length].
  pose proof (unmarshalLoop_unknown_field
                (S (S (List.length (MissedBlock_wire m)))) m0 t x []
                (MissedBlock_wire m) Ht Hwire Hx) as Hskip.
  cbn [app List.length] in Hskip. change (Z.of_nat 0) with 0 in Hskip.
  rewrite Hskip by lia.
  apply (unmarshalLoop_wire (List.length (MissedBlock_wire m)) m0 m [t; x] Hidx).
Qed.

(** X13: [sovGenesis] is the length of a varint: for a [uint64] it is
    between 1 and 10, the value fits in that many groups of seven bits,
    and it does not fit in fewer. *)
Theorem sovGenesis_counts_groups (x : Z) :
  0 <= x < 2 ^ 64 ->
  1 <= sovGenesis x <= 10 /\
  x < 2 ^ (7 * sovGenesis x) /\
  (1 < sovGenesis x -> 2 ^ (7 * (sovGenesis x - 1)) <= x).
Proof.
  apply sovGenesis_bounds.
Qed.

(** X14: [encodeVarintGenesis] on a [uint64] writes [sovGenesis(v)] bytes
    into the slot that ends at [offset], returns the index where they
    start, leaves the buffer in front of and behind the slot as it was,
    and the varint loop of [Unmarshal], started at the returned index,
    reads [v] back and stops at [offset]. *)
Theorem encodeVarintGenesis_roundtrip (v : Z) (pre slot post : list Z) :
  0 <= v < 2 ^ 64 ->
  Z.of_nat (List.length slot) = sovGenesis v ->
  exists written,
    encodeVarintGenesis (pre ++ slot ++ post)
      (Z.of_nat (List.length pre) + Z.of_nat (List.length slot)) v
    = Returns (Z.of_nat (List.length pre), pre ++ written ++ post) /\
    Z.of_nat (List.length written) = sovGenesis v /\
    Forall isByte written /\
    readVarint wrapU64 (pre ++ written ++ post) (Z.of_nat (List.length pre))
    = VarintOk v (Z.of_nat (List.length pre) + Z.of_nat (List.length slot)).
Proof.
  intros Hv Hlen. exists (varintBytes 10 v).
  assert (Hv' : 0 <= v < 2 ^ (7 * Z.of_nat 10))
    by (pose proof pow2_64_lt_70; lia).
  repeat split.
  - now apply encodeVarintGenesis_writes.
  - now apply (varintBytes_length 9).
  - apply varintBytes_are_bytes.
  - rewrite (readVarint_varintBytes wrapU64 v pre post wrapU64_accumulates Hv).
    rewrite wrapU64_small by assumption. f_equal. lia.
Qed.

(** X15: [Marshal] of a [MissedBlock] does not panic and returns exactly
    [Size()] bytes, at most 13: the tag 8 and the varint of the index
    when the index is not zero, then the tag 16 and the byte 1 when the
    block was missed.  On a nil receiver it panics. *)
Theorem MissedBlock_Marshal_returns_Size_bytes (m : MissedBlock) :
  MissedBlock_Marshal (Some m) = Returns (MissedBlock_wire m) /\
  Z.of_nat (List.length (MissedBlock_wire m)) = MissedBlock_Size (Some m) /\
  Forall isByte (MissedBlock_wire m) /\
  MissedBlock_Size (Some m) <= 13 /\
  MissedBlock_Marshal None = Panics.
Proof.
  repeat split.
  - apply MissedBlock_Marshal_wire.
  - apply MissedBlock_wire_length.
  - unfold MissedBlock_wire. apply Forall_app. split.
    + destruct (Index m =? 0); [constructor |].
      constructor; [unfold isByte; lia | apply varintBytes_are_bytes].
    + destruct (Missed m); repeat constructor; unfold isByte; lia.
  - unfold MissedBlock_Size.
    pose proof (sovGenesis_bounds _ (wrapU64_range (Index m))) as (Hsov & _).
    destruct (Index m =? 0); destruct (Missed m); lia.
Qed.

(** X16: [MarshalToSizedBuffer] needs a buffer of at least [Size()]
    bytes.  With one it returns [Size()], writes the message into the
    last [Size()] bytes and leaves the bytes in front of them as they
    were; with a shorter one it panics on an index out of range. *)
Theorem MissedBlock_MarshalToSizedBuffer_room (m : MissedBlock) (dAtA : list Z) :
  (MissedBlock_Size (Some m) <= Z.of_nat (List.length dAtA) ->
   MissedBlock_MarshalToSizedBuffer m dAtA
   = Returns (MissedBlock_Size (Some m),
              firstn (List.length dAtA - Z.to_nat (MissedBlock_Size (Some m))) dAtA
              ++ MissedBlock_wire m)) /\
  (Z.of_nat (List.length dAtA) < MissedBlock_Size (Some m) ->
   MissedBlock_MarshalToSizedBuffer m dAtA = Panics).
Proof.
  split.
  - intros Hroom.
    destruct (buffer_front_slot dAtA (MissedBlock_Size (Some m)))
      as (slot & Hsplit & Hslot);
      [pose proof (MissedBlock_Size_nonneg m); lia |].
    rewrite Hsplit at 1.
    now apply MissedBlock_MarshalToSizedBuffer_writes.
  - apply MissedBlock_MarshalToSizedBuffer_short.
Qed.

(** X17: round trip.  For a [MissedBlock] whose index is an [int64],
    [Unmarshal] of the bytes [Marshal] returns succeeds; into an existing
    message it overwrites the index when the marshalled index is not
    zero and sets [Missed] when the marshalled block was missed, and
    leaves the other fields as they were; into the zero message it gives
    the marshalled message back. *)
Theorem MissedBlock_roundtrip (m : MissedBlock) :
  - 2 ^ 63 <= Index m < 2 ^ 63 ->
  exists marshalled,
    MissedBlock_Marshal (Some m) = Returns marshalled /\
    (forall m0,
       MissedBlock_Unmarshal m0 marshalled
       = Returns ({| Index := if Index m =? 0 then Index m0 else Index m;
                     Missed := if Missed m then true else Missed m0 |}, None)) /\
    MissedBlock_Unmarshal {| Index := 0; Missed := false |} marshalled
    = Returns (m, None).
Proof.
  intros Hidx. exists (MissedBlock_wire m). split; [| split].
  - apply MissedBlock_Marshal_wire.
  - intros m0. now apply MissedBlock_Unmarshal_wire.
  - rewrite MissedBlock_Unmarshal_wire by assumption. cbn [Index Missed].
    destruct m as [idx missed]. cbn [Index Missed].
    destruct (Z.eqb_spec idx 0) as [-> | _]; destruct missed; reflexivity.
Qed.

(** X18: [Unmarshal] and [skipGenesis] return on every input (of a
    length that fits an [int]): each turn of their loops moves the index
    forward by at least one byte or ends with an error.  When
    [skipGenesis] returns no error, it has skipped at least one byte. *)
Theorem Unmarshal_and_skipGenesis_return (m : MissedBlock) (dAtA : list Z) :
  Z.of_nat (List.length dAtA) < 2 ^ 63 ->
  (exists m' err, MissedBlock_Unmarshal m dAtA = Returns (m', err)) /\
  (exists n err,
     skipGenesis dAtA = Returns (n, err) /\ (err = None -> 0 < n)).
Proof.
  intros Hlen. split.
  - now apply MissedBlock_Unmarshal_returns.
  - destruct (skipGenesis_returns dAtA Hlen) as (n & err & Hskip & Hn).
    exists n, err. split; [assumption |]. intros E. specialize (Hn E). lia.
Qed.

(** X19: [Unmarshal] is not all or nothing.  On the bytes of a message
    with a non-zero index followed by the tag of field 2 and nothing
    more, it returns [io.ErrUnexpectedEOF] and the index has already been
    written into the message. *)
Theorem MissedBlock_Unmarshal_cut_keeps_index (m0 : MissedBlock) (idx : Z) :
  - 2 ^ 63 <= idx < 2 ^ 63 -> idx <> 0 ->
  MissedBlock_Unmarshal m0
    (MissedBlock_wire {| Index := idx; Missed := false |} ++ [16])
  = Returns ({| Index := idx; Missed := Missed m0 |}, Some ErrUnexpectedEOF).
Proof.
  intros Hidx Hne. unfold MissedBlock_wire. cbn [Index Missed].
  destruct (Z.eqb_spec idx 0); [contradiction |].
  rewrite app_nil_r. cbn [app].
  rewrite (MissedBlock_Unmarshal_cut m0 (wrapU64 idx) (wrapU64_range idx)).
  now rewrite wrapI64_wrapU64.
Qed.

Lemma sovGenesis_counts_groups_witness :
  0 <= 300 < 2 ^ 64 /\ 1 <= sovGenesis 300 <= 10.
Proof.
  assert (H : 0 <= 300 < 2 ^ 64) by (split; [discriminate | reflexivity]).
  split; [exact H |].
  exact (proj1 (sovGenesis_counts_groups 300 H)).
Defined.

Lemma encodeVarintGenesis_roundtrip_witness :
  0 <= 300 < 2 ^ 64 /\
  Z.of_nat (List.length [0; 0]) = sovGenesis 300 /\
  exists written,
    encodeVarintGenesis ([7] ++ [0; 0] ++ [9])
      (Z.of_nat (List.length [7]) + Z.of_nat (List.length [0; 0])) 300
    = Returns (Z.of_nat (List.length [7]), [7] ++ written ++ [9]) /\
    Z.of_nat (List.length written) = sovGenesis 300 /\
    Forall isByte written /\
    readVarint wrapU64 ([7] ++ written ++ [9]) (Z.of_nat (List.length [7]))
    = VarintOk 300 (Z.of_nat (List.length [7]) + Z.of_nat (List.length [0; 0])).
Proof.
  assert (H : 0 <= 300 < 2 ^ 64) by (split; [discriminate | reflexivity]).
  assert (Hlen : Z.of_nat (List.length [0; 0]) = sovGenesis 300) by reflexivity.
  split; [exact H |]. split; [exact Hlen |].
  exact (encodeVarintGenesis_roundtrip 300 [7] [0; 0] [9] H Hlen).
Defined.

Lemma MissedBlock_MarshalToSizedBuffer_room_witness :
  Z.of_nat (List.length [0; 0]) < MissedBlock_Size (Some {| Index := 300; Missed := true |}) /\
  MissedBlock_MarshalToSizedBuffer {| Index := 300; Missed := true |} [0; 0]
  = Panics.
Proof.
  assert (H : Z.of_nat (List.length [0; 0])
              < MissedBlock_Size (Some {| Index := 300; Missed := true |}))
    by reflexivity.
  split; [exact H |].
  exact (proj2 (MissedBlock_MarshalToSizedBuffer_room
                  {| Index := 300; Missed := true |} [0; 0]) H).
Defined.

Lemma MissedBlock_roundtrip_witness :
  - 2 ^ 63 <= Index {| Index := -1; Missed := true |} < 2 ^ 63 /\
  exists marshalled,
    MissedBlock_Marshal (Some {| Index := -1; Missed := true |})
    = Returns marshalled /\
    MissedBlock_Unmarshal {| Index := 0; Missed := false |} marshalled
    = Returns ({| Index := -1; Missed := true |}, None).
Proof.
  assert (H : - 2 ^ 63 <= Index {| Index := -1; Missed := true |} < 2 ^ 63)
    by (split; [discriminate | reflexivity]).
  split; [exact H |].
  destruct (MissedBlock_roundtrip {| Index := -1; Missed := true |} H)
    as (marshalled & Hm & _ & Hu).
  exists marshalled. split; assumption.
Defined.

Lemma Unmarshal_and_skipGenesis_return_witness :
  Z.of_nat (List.length [26; 200]) < 2 ^ 63 /\
  exists m' err,
    MissedBlock_Unmarshal {| Index := 0; Missed := false |} [26; 200]
    = Returns (m', err).
Proof.
  assert (H : Z.of_nat (List.length [26; 200]) < 2 ^ 63) by reflexivity.
  split; [exact H |].
  exact (proj1 (Unmarshal_and_skipGenesis_return
                  {| Index := 0; Missed := false |} [26; 200] H)).
Defined.

Lemma MissedBlock_Unmarshal_cut_keeps_index_witness :
  - 2 ^ 63 <= 300 < 2 ^ 63 /\ 300 <> 0 /\
  MissedBlock_Unmarshal {| Index := 5; Missed := false |}
    (MissedBlock_wire {| Index := 300; Missed := false |} ++ [16])
  = Returns ({| Index := 300; Missed := false |}, Some ErrUnexpectedEOF).
Proof.
  assert (H : - 2 ^ 63 <= 300 < 2 ^ 63) by (split; [discriminate | reflexivity]).
  assert (Hne : 300 <> 0) by discriminate.
  split; [exact H |]. split; [exact Hne |].
  exact (MissedBlock_Unmarshal_cut_keeps_index
           {| Index := 5; Missed := false |} 300 H Hne).
Defined.

Lemma MissedBlock_Unmarshal_bad_tag_witness :
  0 <= 10 < 128 /\ 8 <= 10 < 24 /\ 10 mod 8 <> 0 /\ 10 mod 8 <> 4 /\
  MissedBlock_Unmarshal {| Index := 5; Missed := true |} [10; 1; 1]
  = Returns ({| Index := 5; Missed := true |},
             Some (ErrWrongWireType (10 mod 8) "Index")).
Proof.
  assert (Ht : 0 <= 10 < 128) by (split; [discriminate | reflexivity]).
  assert (Hr : 8 <= 10 < 24) by (split; [discriminate | reflexivity]).
  assert (H0 : 10 mod 8 <> 0) by discriminate.
  assert (H4 : 10 mod 8 <> 4) by discriminate.
  split; [exact Ht |]. split; [exact Hr |]. split; [exact H0 |].
  split; [exact H4 |].
  exact (proj2 (proj2 (MissedBlock_Unmarshal_bad_tag
                         {| Index := 5; Missed := true |} 10 [1; 1] Ht))
           Hr H0 H4).
Defined.

Lemma MissedBlock_Unmarshal_skips_unknown_witness :
  24 <= 24 < 128 /\ 24 mod 8 = 0 /\ 0 <= 7 < 128 /\
  - 2 ^ 63 <= Index {| Index := 300; Missed := true |} < 2 ^ 63 /\
  MissedBlock_Unmarshal {| Index := 0; Missed := false |}
    (24 :: 7 :: MissedBlock_wire {| Index := 300; Missed := true |})
  = MissedBlock_Unmarshal {| Index := 0; Missed := false |}
      (MissedBlock_wire {| Index := 300; Missed := true |}).
Proof.
  assert (Ht : 24 <= 24 < 128) by (split; [discriminate | reflexivity]).
  assert (Hw : 24 mod 8 = 0) by reflexivity.
  assert (Hx : 0 <= 7 < 128) by (split; [discriminate | reflexivity]).
  assert (Hi : - 2 ^ 63 <= Index {| Index := 300; Missed := true |} < 2 ^ 63)
    by (split; [discriminate | reflexivity]).
  split; [exact Ht |]. split; [exact Hw |]. split; [exact Hx |].
  split; [exact Hi |].
  exact (MissedBlock_Unmarshal_skips_unknown
           {| Index := 0; Missed := false |}
           {| Index := 300; Missed := true |} 24 7 Ht Hw Hx Hi).
Defined.

(** ** [ValidatorMissedBlocks]: marshalling *)

Lemma write_delimited_header (tag v : Z) (pre slot post : list Z) :
  0 <= v < 2 ^ 64 ->
  Z.of_nat (List.length slot) = 1 + sovGenesis v ->
  exists i dAtA,
    encodeVarintGenesis (pre ++ slot ++ post)
      (Z.of_nat (List.length (pre ++ slot))) v = Returns (i, dAtA) /\
    i - 1 = Z.of_nat (List.length pre) /\
    store dAtA (i - 1) tag = Some (pre ++ tag :: varintBytes 10 v ++ post).
Proof.
  intros Hv Hlen.
  pose proof (sovGenesis_bounds v Hv) as (Hsov & _).
  destruct slot as [| t slot]; [cbn [List.length] in Hlen; lia |].
  cbn [List.length] in Hlen. rewrite Nat2Z.inj_succ in Hlen.
  exists (Z.of_nat (List.length (pre ++ [t]))),
    ((pre ++ [t]) ++ varintBytes 10 v ++ post).
  split; [| split].
  - replace (pre ++ (t :: slot) ++ post) with ((pre ++ [t]) ++ slot ++ post)
      by (rewrite <- app_assoc; reflexivity).
    replace (Z.of_nat (List.length (pre ++ t :: slot)))
      with (Z.of_nat (List.length (pre ++ [t])) + Z.of_nat (List.length slot))
      by (rewrite !length_app; cbn; lia).
    apply encodeVarintGenesis_writes; [assumption | lia].
  - rewrite length_app. cbn [List.length]. lia.
  - replace (Z.of_nat (List.length (pre ++ [t])) - 1)
      with (Z.of_nat (List.length pre)) by (rewrite length_app; cbn; lia).
    rewrite <- app_assoc. cbn [app]. apply store_middle.
Qed.

Lemma delimited_length (tag : Z) (payload : list Z) :
  Z.of_nat (List.length (delimited tag payload))
  = 1 + Z.of_nat (List.length payload)
    + sovGenesis (wrapU64 (Z.of_nat (List.length payload))).
Proof.
  unfold delimited. cbn [List.length]. rewrite length_app.
  pose proof (varintBytes_length 9 (wrapU64 (Z.of_nat (List.length payload)))
                ltac:(pose proof pow2_64_lt_70;
                      pose proof (wrapU64_range (Z.of_nat (List.length payload)));
                      lia)).
  lia.
Qed.

Lemma blocksWire_app (bs bs' : list MissedBlock) :
  blocksWire (bs ++ bs') = blocksWire bs ++ blocksWire bs'.
Proof. apply flat_map_app. Qed.

Lemma blocks_size_fold (bs : list MissedBlock) (n : Z) :
  fold_left
    (fun n e =>
       let l := MissedBlock_Size (Some e) in
       n + (1 + l + sovGenesis (wrapU64 l)))
    bs n
  = n + Z.of_nat (List.length (blocksWire bs)).
Proof.
  revert n. induction bs as [| e bs IH]; intros n.
  - cbn. lia.
  - cbn [fold_left]. rewrite IH. unfold blocksWire. cbn [flat_map].
    fold (blocksWire bs). rewrite length_app, Nat2Z.inj_add, delimited_length.
    rewrite MissedBlock_wire_length. cbv zeta. lia.
Qed.

Lemma slicePrefix_app (front back : list Z) :
  slicePrefix (front ++ back) (Z.of_nat (List.length front)) = Some front.
Proof.
  unfold slicePrefix.
  destruct (Z.leb_spec 0 (Z.of_nat (List.length front))); [| lia].
  destruct (Z.leb_spec (Z.of_nat (List.length front))
              (Z.of_nat (List.length (front ++ back))));
    [| rewrite length_app in *; lia].
  cbn [andb]. now rewrite Nat2Z.id, firstn_length_app.
Qed.

Lemma marshalMissedBlocks_writes (bs : list MissedBlock) :
  forall (pre slot done : list Z),
    List.length slot = List.length (blocksWire bs) ->
    marshalMissedBlocks (rev bs) (pre ++ slot ++ done)
      (Z.of_nat (List.length (pre ++ slot)))
    = Returns (Z.of_nat (List.length pre), pre ++ blocksWire bs ++ done).
Proof.
  induction bs as [| e bs IH] using rev_ind; intros pre slot done Hlen.
  - destruct slot; [| discriminate]. cbn. now rewrite app_nil_r.
  - rewrite rev_app_distr. cbn [rev app marshalMissedBlocks].
    rewrite blocksWire_app in Hlen |- *.
    unfold blocksWire at 2 in Hlen. unfold blocksWire at 2.
    cbn [flat_map] in Hlen |- *. rewrite app_nil_r in Hlen |- *.
    rewrite length_app in Hlen.
    destruct (list_split slot (List.length (blocksWire bs))
                (List.length (delimited 18 (MissedBlock_wire e))) Hlen)
      as (slot' & slotE & -> & Hslot' & HslotE).
    pose proof (delimited_length 18 (MissedBlock_wire e)) as Hdl.
    pose proof (MissedBlock_wire_length e) as Hwl.
    pose proof (wrapU64_range (Z.of_nat (List.length (MissedBlock_wire e)))) as Hv.
    pose proof (sovGenesis_bounds _ Hv) as (Hsov & _).
    destruct (list_split slotE
                (List.length slotE - List.length (MissedBlock_wire e))
                (List.length (MissedBlock_wire e)) ltac:(lia))
      as (slotH & slotP & -> & HslotH & HslotP).
    rewrite length_app in HslotE, HslotH.
    (* the nested message is written into the front *)
    rewrite app_assoc. rewrite slicePrefix_app.
    replace (pre ++ slot' ++ slotH ++ slotP)
      with ((pre ++ slot' ++ slotH) ++ slotP)
      by (rewrite <- !app_assoc; reflexivity).
    rewrite MissedBlock_MarshalToSizedBuffer_writes by lia.
    rewrite Nat2Z.id, skipn_length_app.
    (* the length and the tag in front of it *)
    replace (Z.of_nat (List.length ((pre ++ slot' ++ slotH) ++ slotP))
             - MissedBlock_Size (Some e))
      with (Z.of_nat (List.length ((pre ++ slot') ++ slotH)))
      by (rewrite !length_app; lia).
    replace (((pre ++ slot' ++ slotH) ++ MissedBlock_wire e) ++ done)
      with ((pre ++ slot') ++ slotH ++ (MissedBlock_wire e ++ done))
      by (rewrite <- !app_assoc; reflexivity).
    rewrite <- Hwl.
    destruct (write_delimited_header 18
                (wrapU64 (Z.of_nat (List.length (MissedBlock_wire e))))
                (pre ++ slot') slotH (MissedBlock_wire e ++ done) Hv ltac:(lia))
      as (i & dAtA & -> & Hi & ->).
    rewrite Hi.
    rewrite <- app_assoc.
    rewrite (IH pre slot' _ Hslot').
    unfold delimited. repeat (rewrite <- app_assoc || rewrite <- app_comm_cons). reflexivity.
Qed.


Lemma copyAt_middle (pre slot post src : list Z) :
  List.length slot = List.length src ->
  copyAt (pre ++ slot ++ post) (Z.of_nat (List.length pre)) src
  = Some (pre ++ src ++ post).
Proof.
  intros Hlen. unfold copyAt.
  destruct (Z.leb_spec 0 (Z.of_nat (List.length pre))); [| lia].
  destruct (Z.leb_spec (Z.of_nat (List.length pre))
              (Z.of_nat (List.length (pre ++ slot ++ post))));
    [| rewrite length_app in *; lia].
  cbn [andb]. rewrite Nat2Z.id, firstn_length_app.
  rewrite !length_app.
  replace (Nat.min (List.length pre + (List.length slot + List.length post)
                    - List.length pre) (List.length src))
    with (List.length src) by lia.
  rewrite firstn_all.
  replace (pre ++ slot ++ post) with ((pre ++ slot) ++ post)
    by (rewrite <- app_assoc; reflexivity).
  replace (List.length pre + List.length src)%nat
    with (List.length (pre ++ slot)) by (rewrite length_app; lia).
  now rewrite skipn_length_app.
Qed.

Lemma ValidatorMissedBlocks_wire_length (m : ValidatorMissedBlocks) :
  Z.of_nat (List.length (ValidatorMissedBlocks_wire m))
  = ValidatorMissedBlocks_Size (Some m).
Proof.
  unfold ValidatorMissedBlocks_wire, ValidatorMissedBlocks_Size.
  rewrite blocks_size_fold. fold (blocksWire (MissedBlocks m)).
  rewrite length_app, Nat2Z.inj_add. f_equal.
  destruct (Address m) as [| a addr] eqn:E.
  - reflexivity.
  - rewrite delimited_length.
    destruct (Z.gtb_spec (Z.of_nat (List.length (a :: addr))) 0);
      [lia | cbn [List.length] in *; lia].
Qed.

Lemma ValidatorMissedBlocks_MarshalToSizedBuffer_writes
  (m : ValidatorMissedBlocks) (pre slot : list Z) :
  Z.of_nat (List.length slot) = ValidatorMissedBlocks_Size (Some m) ->
  ValidatorMissedBlocks_MarshalToSizedBuffer m (pre ++ slot)
  = Returns (ValidatorMissedBlocks_Size (Some m),
             pre ++ ValidatorMissedBlocks_wire m).
Proof.
  intros Hlen. rewrite <- ValidatorMissedBlocks_wire_length in Hlen |- *.
  unfold ValidatorMissedBlocks_wire in *.
  fold (blocksWire (MissedBlocks m)) in *.
  unfold ValidatorMissedBlocks_MarshalToSizedBuffer.
  apply Nat2Z.inj in Hlen. rewrite length_app in Hlen.
  destruct (list_split slot _ _ Hlen) as (slotA & slotB & -> & HslotA & HslotB).
  replace (pre ++ slotA ++ slotB) with ((pre ++ slotA) ++ slotB ++ [])
    by (rewrite app_nil_r, <- app_assoc; reflexivity).
  replace (Z.of_nat (List.length ((pre ++ slotA) ++ slotB ++ [])))
    with (Z.of_nat (List.length ((pre ++ slotA) ++ slotB)))
    by (now rewrite app_nil_r).
  rewrite (marshalMissedBlocks_writes (MissedBlocks m) (pre ++ slotA) slotB []
             HslotB).
  rewrite app_nil_r.
  destruct (Address m) as [| a addr] eqn:E.
  - destruct slotA; [| discriminate]. cbn [List.length app].
    change (Z.of_nat 0 >? 0) with false. cbv iota.
    rewrite app_nil_r. f_equal. f_equal.
    rewrite !length_app. lia.
  - destruct (Z.gtb_spec (Z.of_nat (List.length (a :: addr))) 0) as [_ | H];
      [| cbn [List.length] in H; lia].
    pose proof (delimited_length 10 (a :: addr)) as Hdl.
    pose proof (wrapU64_range (Z.of_nat (List.length (a :: addr)))) as Hv.
    pose proof (sovGenesis_bounds _ Hv) as (Hsov & _).
    destruct (list_split slotA (List.length slotA - List.length (a :: addr))
                (List.length (a :: addr)) ltac:(lia))
      as (slotH & slotD & -> & HslotH & HslotD).
    rewrite length_app in HslotA, HslotH.
    replace (Z.of_nat (List.length (pre ++ slotH ++ slotD))
             - Z.of_nat (List.length (a :: addr)))
      with (Z.of_nat (List.length (pre ++ slotH)))
      by (rewrite !length_app; lia).
    replace ((pre ++ slotH ++ slotD) ++ blocksWire (MissedBlocks m))
      with ((pre ++ slotH) ++ slotD ++ blocksWire (MissedBlocks m))
      by (rewrite <- !app_assoc; reflexivity).
    rewrite copyAt_middle by assumption.
    rewrite <- app_assoc.
    destruct (write_delimited_header 10
                (wrapU64 (Z.of_nat (List.length (a :: addr))))
                pre slotH ((a :: addr) ++ blocksWire (MissedBlocks m))
                Hv ltac:(lia))
      as (i & dAtA & -> & Hi & ->).
    rewrite Hi. unfold delimited. f_equal. f_equal.
    + rewrite !length_app. cbn [List.length]. rewrite !length_app.
      cbn [List.length]. lia.
    + repeat (rewrite <- app_assoc || rewrite <- app_comm_cons). reflexivity.
Qed.

Lemma ValidatorMissedBlocks_Size_nonneg (m : ValidatorMissedBlocks) :
  0 <= ValidatorMissedBlocks_Size (Some m).
Proof.
  rewrite <- ValidatorMissedBlocks_wire_length. lia.
Qed.

Lemma slicePrefix_all (dAtA : list Z) :
  slicePrefix dAtA (Z.of_nat (List.length dAtA)) = Some dAtA.
Proof.
  pose proof (slicePrefix_app dAtA []) as H. now rewrite app_nil_r in H.
Qed.

Lemma ValidatorMissedBlocks_Marshal_wire (m : ValidatorMissedBlocks) :
  ValidatorMissedBlocks_Marshal (Some m)
  = Returns (ValidatorMissedBlocks_wire m).
Proof.
  unfold ValidatorMissedBlocks_Marshal.
  pose proof (ValidatorMissedBlocks_Size_nonneg m) as Hsize.
  set (zeros := repeat 0 (Z.to_nat (ValidatorMissedBlocks_Size (Some m)))).
  assert (Hz : Z.of_nat (List.length zeros) = ValidatorMissedBlocks_Size (Some m))
    by (unfold zeros; rewrite repeat_length; lia).
  rewrite <- Hz at 1. rewrite slicePrefix_all.
  pose proof (ValidatorMissedBlocks_MarshalToSizedBuffer_writes m [] zeros Hz)
    as Hw.
  cbn [app] in Hw. rewrite Hw.
  rewrite <- ValidatorMissedBlocks_wire_length. now rewrite slicePrefix_all.
Qed.

(** ** [ValidatorMissedBlocks]: unmarshalling *)

Lemma pow2_63_lt_64 : 2 ^ 63 < 2 ^ 64.
Proof. apply Z.pow_lt_mono_r; lia. Qed.

Lemma delimited_payload_le (tag : Z) (payload : list Z) :
  (List.length payload < List.length (delimited tag payload))%nat.
Proof. unfold delimited. cbn [List.length]. rewrite length_app. lia. Qed.

Lemma MissedBlock_Unmarshal_zero_wire (e : MissedBlock) :
  int64Index e ->
  MissedBlock_Unmarshal {| Index := 0; Missed := false |} (MissedBlock_wire e)
  = Returns (e, None).
Proof.
  intros He. rewrite MissedBlock_Unmarshal_wire by exact He.
  destruct e as [idx missed]. cbn [Index Missed].
  destruct (Z.eqb_spec idx 0) as [-> | _]; destruct missed; reflexivity.
Qed.

Lemma vmb_unmarshalLoop_end
  (fuel : nat) (m : ValidatorMissedBlocks) (dAtA : list Z) (i : Z) :
  i = Z.of_nat (List.length dAtA) ->
  ValidatorMissedBlocks_unmarshalLoop fuel m dAtA i = Returns (m, None).
Proof.
  intros ->. destruct fuel; cbn [ValidatorMissedBlocks_unmarshalLoop];
    rewrite Z.ltb_irrefl;
    (destruct (Z.gtb_spec (Z.of_nat (List.length dAtA))
                 (Z.of_nat (List.length dAtA))); [lia | reflexivity]).
Qed.

Lemma slice_middle (pre mid post : list Z) :
  slice (pre ++ mid ++ post) (Z.of_nat (List.length pre))
    (Z.of_nat (List.length pre) + Z.of_nat (List.length mid))
  = mid.
Proof.
  unfold slice. rewrite Nat2Z.id, skipn_length_app.
  replace (Z.to_nat (Z.of_nat (List.length pre) + Z.of_nat (List.length mid)
                     - Z.of_nat (List.length pre)))
    with (List.length mid) by lia.
  apply firstn_length_app.
Qed.

(** Reading the tag and the length of a length-delimited field. *)
Lemma read_delimited_header
  (wrap : Z -> Z) (tag : Z) (payload pre rest : list Z) :
  accumulates wrap ->
  0 <= tag < 128 ->
  Z.of_nat (List.length payload) < 2 ^ 63 ->
  readVarint wrapU64 (pre ++ delimited tag payload ++ rest)
    (Z.of_nat (List.length pre))
  = VarintOk tag (Z.of_nat (List.length pre) + 1) /\
  readVarint wrap (pre ++ delimited tag payload ++ rest)
    (Z.of_nat (List.length pre) + 1)
  = VarintOk (Z.of_nat (List.length payload))
      (Z.of_nat (List.length pre) + 1
       + sovGenesis (Z.of_nat (List.length payload))).
Proof.
  intros Hwrap Htag Hlen.
  pose proof pow2_63_lt_64 as H6364.
  assert (Hu : wrapU64 (Z.of_nat (List.length payload))
               = Z.of_nat (List.length payload))
    by (apply wrapU64_small; lia).
  unfold delimited. rewrite Hu. split.
  - cbn [app]. now apply readVarint_single; [apply wrapU64_accumulates |].
  - replace (pre ++ (tag :: varintBytes 10 (Z.of_nat (List.length payload))
                     ++ payload) ++ rest)
      with ((pre ++ [tag]) ++ varintBytes 10 (Z.of_nat (List.length payload))
            ++ (payload ++ rest))
      by (repeat (rewrite <- app_assoc || rewrite <- app_comm_cons); reflexivity).
    replace (Z.of_nat (List.length pre) + 1)
      with (Z.of_nat (List.length (pre ++ [tag])))
      by (rewrite length_app; cbn; lia).
    rewrite (readVarint_varintBytes wrap _ _ _ Hwrap) by lia.
    f_equal. apply (proj1 Hwrap). lia.
Qed.

Lemma delimited_split (tag : Z) (payload pre rest : list Z) :
  Z.of_nat (List.length payload) < 2 ^ 63 ->
  pre ++ delimited tag payload ++ rest
  = (pre ++ tag :: varintBytes 10 (Z.of_nat (List.length payload)))
    ++ payload ++ rest /\
  Z.of_nat (List.length
              (pre ++ tag :: varintBytes 10 (Z.of_nat (List.length payload))))
  = Z.of_nat (List.length pre) + 1 + sovGenesis (Z.of_nat (List.length payload)).
Proof.
  intros Hlen. unfold delimited.
  pose proof pow2_63_lt_64 as H6364.
  rewrite wrapU64_small by lia. split.
  - repeat (rewrite <- app_assoc || rewrite <- app_comm_cons). reflexivity.
  - rewrite length_app. cbn [List.length].
    pose proof (varintBytes_length 9 (Z.of_nat (List.length payload))
                  ltac:(pose proof pow2_64_lt_70; lia)).
    lia.
Qed.

Lemma vmb_address_step
  (fuel : nat) (m : ValidatorMissedBlocks) (A pre rest : list Z) :
  Z.of_nat (List.length (pre ++ delimited 10 A ++ rest)) < 2 ^ 63 ->
  ValidatorMissedBlocks_unmarshalLoop (S fuel) m
    (pre ++ delimited 10 A ++ rest) (Z.of_nat (List.length pre))
  = ValidatorMissedBlocks_unmarshalLoop fuel
      {| Address := A; MissedBlocks := MissedBlocks m |}
      (pre ++ delimited 10 A ++ rest)
      (Z.of_nat (List.length (pre ++ delimited 10 A))).
Proof.
  intros Hbound.
  pose proof pow2_63_lt_64 as H6364.
  pose proof (delimited_length 10 A) as Hdl.
  assert (HA : Z.of_nat (List.length A) < 2 ^ 63)
    by (pose proof (delimited_payload_le 10 A); rewrite !length_app in Hbound;
        lia).
  rewrite wrapU64_small in Hdl by lia.
  pose proof (sovGenesis_bounds (Z.of_nat (List.length A)) ltac:(lia))
    as (Hsov & _).
  cbn [ValidatorMissedBlocks_unmarshalLoop].
  destruct (Z.ltb_spec (Z.of_nat (List.length pre))
              (Z.of_nat (List.length (pre ++ delimited 10 A ++ rest))))
    as [_ | Hge]; [| rewrite !length_app in Hge; lia].
  destruct (read_delimited_header wrapU64 10 A pre rest wrapU64_accumulates
              ltac:(lia) HA) as [-> ->].
  change (Z.land 10 7 =? 4) with false.
  change (wrapI32 (Z.shiftr 10 3) <=? 0) with false.
  change (wrapI32 (Z.shiftr 10 3) =? 1) with true.
  change (negb (Z.land 10 7 =? 2)) with false.
  cbv iota.
  rewrite (wrapI64_small (Z.of_nat (List.length A))) by lia.
  destruct (Z.ltb_spec (Z.of_nat (List.length A)) 0); [lia |].
  assert (Hpost : Z.of_nat (List.length pre) + 1
                  + sovGenesis (Z.of_nat (List.length A))
                  + Z.of_nat (List.length A)
                  = Z.of_nat (List.length (pre ++ delimited 10 A)))
    by (rewrite length_app; lia).
  rewrite wrapI64_small by (rewrite !length_app in Hbound; lia).
  rewrite Hpost.
  destruct (Z.ltb_spec (Z.of_nat (List.length (pre ++ delimited 10 A))) 0);
    [lia |].
  destruct (Z.gtb_spec (Z.of_nat (List.length (pre ++ delimited 10 A)))
              (Z.of_nat (List.length (pre ++ delimited 10 A ++ rest))));
    [rewrite !length_app in *; lia |].
  f_equal. f_equal.
  destruct (delimited_split 10 A pre rest HA) as [Hsplit Hlen].
  rewrite Hsplit, <- Hpost, <- Hlen.
  apply slice_middle.
Qed.

(** Field 2 with any payload: the nested [Unmarshal] decides. *)
Lemma vmb_block_field
  (fuel : nat) (m : ValidatorMissedBlocks) (W pre rest : list Z) :
  Z.of_nat (List.length (pre ++ delimited 18 W ++ rest)) < 2 ^ 63 ->
  ValidatorMissedBlocks_unmarshalLoop (S fuel) m
    (pre ++ delimited 18 W ++ rest) (Z.of_nat (List.length pre))
  = match MissedBlock_Unmarshal {| Index := 0; Missed := false |} W with
    | Returns (e, Some err) =>
        Returns ({| Address := Address m;
                    MissedBlocks := MissedBlocks m ++ [e] |}, Some err)
    | Returns (e, None) =>
        ValidatorMissedBlocks_unmarshalLoop fuel
          {| Address := Address m; MissedBlocks := MissedBlocks m ++ [e] |}
          (pre ++ delimited 18 W ++ rest)
          (Z.of_nat (List.length (pre ++ delimited 18 W)))
    | Panics => Panics
    | Diverges => Diverges
    end.
Proof.
  intros Hbound.
  pose proof pow2_63_lt_64 as H6364.
  pose proof (delimited_length 18 W) as Hdl.
  assert (HW : Z.of_nat (List.length W) < 2 ^ 63)
    by (pose proof (delimited_payload_le 18 W); rewrite !length_app in Hbound;
        lia).
  rewrite wrapU64_small in Hdl by lia.
  pose proof (sovGenesis_bounds (Z.of_nat (List.length W)) ltac:(lia))
    as (Hsov & _).
  cbn [ValidatorMissedBlocks_unmarshalLoop].
  destruct (Z.ltb_spec (Z.of_nat (List.length pre))
              (Z.of_nat (List.length (pre ++ delimited 18 W ++ rest))))
    as [_ | Hge]; [| rewrite !length_app in Hge; lia].
  destruct (read_delimited_header wrapI64 18 W pre rest wrapI64_accumulates
              ltac:(lia) HW) as [-> ->].
  change (Z.land 18 7 =? 4) with false.
  change (wrapI32 (Z.shiftr 18 3) <=? 0) with false.
  change (wrapI32 (Z.shiftr 18 3) =? 1) with false.
  change (wrapI32 (Z.shiftr 18 3) =? 2) with true.
  change (negb (Z.land 18 7 =? 2)) with false.
  cbv iota.
  destruct (Z.ltb_spec (Z.of_nat (List.length W)) 0); [lia |].
  assert (Hpost : Z.of_nat (List.length pre) + 1
                  + sovGenesis (Z.of_nat (List.length W))
                  + Z.of_nat (List.length W)
                  = Z.of_nat (List.length (pre ++ delimited 18 W)))
    by (rewrite length_app; lia).
  rewrite wrapI64_small by (rewrite !length_app in Hbound; lia).
  rewrite Hpost.
  destruct (Z.ltb_spec (Z.of_nat (List.length (pre ++ delimited 18 W))) 0);
    [lia |].
  destruct (Z.gtb_spec (Z.of_nat (List.length (pre ++ delimited 18 W)))
              (Z.of_nat (List.length (pre ++ delimited 18 W ++ rest))));
    [rewrite !length_app in *; lia |].
  assert (Hslice : slice (pre ++ delimited 18 W ++ rest)
                     (Z.of_nat (List.length pre) + 1
                      + sovGenesis (Z.of_nat (List.length W)))
                     (Z.of_nat (List.length (pre ++ delimited 18 W)))
                   = W).
  { destruct (delimited_split 18 W pre rest HW) as [Hsplit Hlen].
    rewrite Hsplit, <- Hpost, <- Hlen. apply slice_middle. }
  rewrite Hslice. reflexivity.
Qed.

Lemma vmb_block_step
  (fuel : nat) (m : ValidatorMissedBlocks) (e : MissedBlock)
  (pre rest : list Z) :
  int64Index e ->
  Z.of_nat (List.length (pre ++ delimited 18 (MissedBlock_wire e) ++ rest))
    < 2 ^ 63 ->
  ValidatorMissedBlocks_unmarshalLoop (S fuel) m
    (pre ++ delimited 18 (MissedBlock_wire e) ++ rest)
    (Z.of_nat (List.length pre))
  = ValidatorMissedBlocks_unmarshalLoop fuel
      {| Address := Address m; MissedBlocks := MissedBlocks m ++ [e] |}
      (pre ++ delimited 18 (MissedBlock_wire e) ++ rest)
      (Z.of_nat (List.length (pre ++ delimited 18 (MissedBlock_wire e)))).
Proof.
  intros He Hbound.
  rewrite vmb_block_field by assumption.
  now rewrite MissedBlock_Unmarshal_zero_wire.
Qed.

Lemma vmb_blocks_steps (bs : list MissedBlock) :
  forall (fuel : nat) (m : ValidatorMissedBlocks) (pre rest : list Z),
    Forall int64Index bs ->
    Z.of_nat (List.length (pre ++ blocksWire bs ++ rest)) < 2 ^ 63 ->
    ValidatorMissedBlocks_unmarshalLoop (List.length bs + fuel) m
      (pre ++ blocksWire bs ++ rest) (Z.of_nat (List.length pre))
    = ValidatorMissedBlocks_unmarshalLoop fuel
        {| Address := Address m; MissedBlocks := MissedBlocks m ++ bs |}
        (pre ++ blocksWire bs ++ rest)
        (Z.of_nat (List.length (pre ++ blocksWire bs))).
Proof.
  induction bs as [| e bs IH]; intros fuel m pre rest Hbs Hbound.
  - cbn [blocksWire flat_map List.length Nat.add app].
    rewrite !app_nil_r. destruct m; reflexivity.
  - inversion Hbs as [| e' bs' He Hbs']; subst.
    unfold blocksWire in *. cbn [flat_map] in *. fold (blocksWire bs) in *.
    cbn [List.length Nat.add].
    rewrite <- app_assoc in Hbound |- *.
    rewrite vmb_block_step by assumption.
    rewrite (app_assoc pre (delimited 18 (MissedBlock_wire e))) in Hbound |- *.
    rewrite IH by assumption.
    cbn [Address MissedBlocks].
    rewrite <- (app_assoc (MissedBlocks m) [e] bs). cbn [app].
    f_equal. rewrite <- !app_assoc. reflexivity.
Qed.

Lemma vmb_message_steps
  (fuel : nat) (m0 m : ValidatorMissedBlocks) (pre rest : list Z) :
  Forall int64Index (MissedBlocks m) ->
  Z.of_nat (List.length (pre ++ ValidatorMissedBlocks_wire m ++ rest)) < 2 ^ 63 ->
  ValidatorMissedBlocks_unmarshalLoop (fieldCount m + fuel) m0
    (pre ++ ValidatorMissedBlocks_wire m ++ rest) (Z.of_nat (List.length pre))
  = ValidatorMissedBlocks_unmarshalLoop fuel (merged m0 m)
      (pre ++ ValidatorMissedBlocks_wire m ++ rest)
      (Z.of_nat (List.length (pre ++ ValidatorMissedBlocks_wire m))).
Proof.
  intros Hbs Hbound. unfold ValidatorMissedBlocks_wire, fieldCount, merged in *.
  fold (blocksWire (MissedBlocks m)) in *.
  destruct (Address m) as [| a addr] eqn:E.
  - cbn [app Nat.add]. cbn [app] in Hbound.
    rewrite vmb_blocks_steps by assumption. destruct m0; reflexivity.
  - cbn [Nat.add]. rewrite <- app_assoc in Hbound |- *.
    rewrite vmb_address_step by assumption.
    rewrite (app_assoc pre (delimited 10 (a :: addr))) in Hbound |- *.
    rewrite vmb_blocks_steps by assumption.
    cbn [Address MissedBlocks]. f_equal. rewrite <- !app_assoc. reflexivity.
Qed.

Lemma delimited_nonempty (tag : Z) (payload : list Z) :
  (1 <= List.length (delimited tag payload))%nat.
Proof. unfold delimited. cbn [List.length]. lia. Qed.

Lemma fieldCount_le_wire (m : ValidatorMissedBlocks) :
  (fieldCount m <= List.length (ValidatorMissedBlocks_wire m))%nat.
Proof.
  unfold fieldCount, ValidatorMissedBlocks_wire. rewrite length_app.
  assert (Hb : (List.length (MissedBlocks m)
                <= List.length (flat_map (fun e => delimited 18 (MissedBlock_wire e))
                                  (MissedBlocks m)))%nat).
  { induction (MissedBlocks m) as [| e bs IH]; cbn [flat_map List.length];
      [lia |].
    rewrite length_app.
    pose proof (delimited_nonempty 18 (MissedBlock_wire e)). lia. }
  destruct (Address m).
  - cbn [List.length]. lia.
  - pose proof (delimited_nonempty 10 (z :: l)). lia.
Qed.

Lemma ValidatorMissedBlocks_Unmarshal_wire (m0 m : ValidatorMissedBlocks) :
  Forall int64Index (MissedBlocks m) ->
  Z.of_nat (List.length (ValidatorMissedBlocks_wire m)) < 2 ^ 63 ->
  ValidatorMissedBlocks_Unmarshal m0 (ValidatorMissedBlocks_wire m)
  = Returns (merged m0 m, None).
Proof.
  intros Hbs Hbound. unfold ValidatorMissedBlocks_Unmarshal.
  pose proof (fieldCount_le_wire m) as Hfc.
  replace (S (List.length (ValidatorMissedBlocks_wire m)))
    with (fieldCount m
          + (S (List.length (ValidatorMissedBlocks_wire m)) - fieldCount m))%nat
    by lia.
  pose proof (vmb_message_steps
                (S (List.length (ValidatorMissedBlocks_wire m)) - fieldCount m)
                m0 m [] []) as H.
  rewrite app_nil_r in H. cbn [app List.length] in H.
  change (Z.of_nat 0) with 0 in H.
  rewrite H by assumption.
  now apply vmb_unmarshalLoop_end.
Qed.

Lemma ValidatorMissedBlocks_Unmarshal_concat
  (m0 m1 m2 : ValidatorMissedBlocks) :
  Forall int64Index (MissedBlocks m1) ->
  Forall int64Index (MissedBlocks m2) ->
  Z.of_nat (List.length (ValidatorMissedBlocks_wire m1
                         ++ ValidatorMissedBlocks_wire m2)) < 2 ^ 63 ->
  ValidatorMissedBlocks_Unmarshal m0
    (ValidatorMissedBlocks_wire m1 ++ ValidatorMissedBlocks_wire m2)
  = Returns (merged (merged m0 m1) m2, None).
Proof.
  intros H1 H2 Hbound. unfold ValidatorMissedBlocks_Unmarshal.
  pose proof (fieldCount_le_wire m1) as Hfc1.
  pose proof (fieldCount_le_wire m2) as Hfc2.
  set (W1 := ValidatorMissedBlocks_wire m1) in *.
  set (W2 := ValidatorMissedBlocks_wire m2) in *.
  replace (S (List.length (W1 ++ W2)))
    with (fieldCount m1
          + (fieldCount m2
             + (S (List.length (W1 ++ W2)) - fieldCount m1 - fieldCount m2)))%nat
    by (rewrite length_app; lia).
  pose proof (vmb_message_steps
                (fieldCount m2
                 + (S (List.length (W1 ++ W2)) - fieldCount m1 - fieldCount m2))
                m0 m1 [] W2 H1) as Hs1.
  cbn [app List.length] in Hs1. change (Z.of_nat 0) with 0 in Hs1.
  fold W1 in Hs1. rewrite Hs1 by assumption.
  pose proof (vmb_message_steps
                (S (List.length (W1 ++ W2)) - fieldCount m1 - fieldCount m2)
                (merged m0 m1) m2 W1 [] H2) as Hs2.
  fold W2 in Hs2. rewrite app_nil_r in Hs2.
  rewrite Hs2 by assumption.
  now apply vmb_unmarshalLoop_end.
Qed.

(** A block that does not unmarshal: the error of the nested call comes
    back, after the block was appended. *)
Lemma ValidatorMissedBlocks_Unmarshal_bad_block
  (m0 m : ValidatorMissedBlocks) (payload rest : list Z)
  (e : MissedBlock) (err : UnmarshalError) :
  Forall int64Index (MissedBlocks m) ->
  Z.of_nat (List.length (ValidatorMissedBlocks_wire m
                         ++ delimited 18 payload ++ rest)) < 2 ^ 63 ->
  MissedBlock_Unmarshal {| Index := 0; Missed := false |} payload
  = Returns (e, Some err) ->
  ValidatorMissedBlocks_Unmarshal m0
    (ValidatorMissedBlocks_wire m ++ delimited 18 payload ++ rest)
  = Returns ({| Address := Address (merged m0 m);
                MissedBlocks := MissedBlocks (merged m0 m) ++ [e] |},
             Some err).
Proof.
  intros Hbs Hbound Hnested. unfold ValidatorMissedBlocks_Unmarshal.
  pose proof (fieldCount_le_wire m) as Hfc.
  set (W := ValidatorMissedBlocks_wire m) in *.
  set (tail := delimited 18 payload ++ rest) in *.
  replace (S (List.length (W ++ tail)))
    with (fieldCount m + S (List.length (W ++ tail) - fieldCount m))%nat
    by (rewrite length_app; lia).
  pose proof (vmb_message_steps
                (S (List.length (W ++ tail) - fieldCount m)) m0 m [] tail Hbs)
    as Hs.
  cbn [app List.length] in Hs. change (Z.of_nat 0) with 0 in Hs.
  fold W in Hs. rewrite app_nil_r in Hs || idtac.
  rewrite Hs by assumption.
  unfold tail in *.
  rewrite vmb_block_field by assumption.
  now rewrite Hnested.
Qed.

(** Every turn of the loop ends or moves on, and blocks are only ever
    appended. *)
Lemma vmb_unmarshalLoop_returns (fuel : nat) :
  forall (m : ValidatorMissedBlocks) (dAtA : list Z) (i : Z),
    Z.of_nat (List.length dAtA) < 2 ^ 63 ->
    0 <= i ->
    Z.of_nat (List.length dAtA) - i < Z.of_nat fuel ->
    exists m' err,
      ValidatorMissedBlocks_unmarshalLoop fuel m dAtA i = Returns (m', err) /\
      exists more, MissedBlocks m' = MissedBlocks m ++ more.
Proof.
  assert (Hsame : forall (m : ValidatorMissedBlocks)
                    (err : option UnmarshalError),
             exists m' err',
               Returns (m, err) = Returns (m', err') /\
               exists more, MissedBlocks m' = MissedBlocks m ++ more).
  { intros m err. exists m, err. split; [reflexivity |].
    exists []. now rewrite app_nil_r. }
  induction fuel as [| fuel IH]; intros m dAtA i Hlen Hi Hfuel.
  - cbn [ValidatorMissedBlocks_unmarshalLoop].
    destruct (Z.ltb_spec i (Z.of_nat (List.length dAtA))); [lia |].
    destruct (i >? Z.of_nat (List.length dAtA)); apply Hsame.
  - cbn [ValidatorMissedBlocks_unmarshalLoop].
    destruct (Z.ltb_spec i (Z.of_nat (List.length dAtA))) as [Hlt | Hge].
    2: { destruct (i >? Z.of_nat (List.length dAtA)); apply Hsame. }
    destruct (readVarint wrapU64 dAtA i) as [wire i1 | e partial] eqn:Htag;
      [| apply Hsame].
    apply readVarint_progress in Htag as [Hi1 Hi1']; [| assumption].
    specialize (Hi1' ltac:(lia)).
    destruct (Z.land wire 7 =? 4); [apply Hsame |].
    destruct (wrapI32 (Z.shiftr wire 3) <=? 0); [apply Hsame |].
    destruct (wrapI32 (Z.shiftr wire 3) =? 1).
    { destruct (negb (Z.land wire 7 =? 2)); [apply Hsame |].
      destruct (readVarint wrapU64 dAtA i1) as [v i2 | e partial] eqn:Hv;
        [| apply Hsame].
      apply readVarint_progress in Hv as [Hi2 Hi2']; [| lia].
      specialize (Hi2' ltac:(lia)).
      pose proof (wrapI64_range v) as Hr.
      destruct (Z.ltb_spec (wrapI64 v) 0); [apply Hsame |].
      destruct (Z.ltb_spec (wrapI64 (i2 + wrapI64 v)) 0); [apply Hsame |].
      destruct (Z.gtb_spec (wrapI64 (i2 + wrapI64 v))
                  (Z.of_nat (List.length dAtA))); [apply Hsame |].
      destruct (wrapI64_add_progress i2 (wrapI64 v) ltac:(lia) ltac:(lia))
        as [H' | H']; [lia |].
      destruct (IH {| Address := slice dAtA i2 (wrapI64 (i2 + wrapI64 v));
                      MissedBlocks := MissedBlocks m |}
                  dAtA (wrapI64 (i2 + wrapI64 v)) Hlen ltac:(lia) ltac:(lia))
        as (m' & err & -> & more & Hmore).
      exists m', err. split; [reflexivity |]. exists more. exact Hmore. }
    destruct (wrapI32 (Z.shiftr wire 3) =? 2).
    { destruct (negb (Z.land wire 7 =? 2)); [apply Hsame |].
      destruct (readVarint wrapI64 dAtA i1) as [v i2 | e partial] eqn:Hv;
        [| apply Hsame].
      pose proof (readVarint_int64_range _ _ _ _ Hv) as Hr.
      apply readVarint_progress in Hv as [Hi2 Hi2']; [| lia].
      specialize (Hi2' ltac:(lia)).
      destruct (Z.ltb_spec v 0); [apply Hsame |].
      destruct (Z.ltb_spec (wrapI64 (i2 + v)) 0); [apply Hsame |].
      destruct (Z.gtb_spec (wrapI64 (i2 + v)) (Z.of_nat (List.length dAtA)));
        [apply Hsame |].
      destruct (wrapI64_add_progress i2 v ltac:(lia) ltac:(lia))
        as [H' | H']; [lia |].
      destruct (MissedBlock_Unmarshal_returns {| Index := 0; Missed := false |}
                  (slice dAtA i2 (wrapI64 (i2 + v))))
        as (b & berr & ->).
      { unfold slice. rewrite length_firstn, length_skipn. lia. }
      destruct berr as [berr |].
      - eexists _, _. split; [reflexivity |]. exists [b]. reflexivity.
      - destruct (IH {| Address := Address m;
                        MissedBlocks := MissedBlocks m ++ [b] |}
                    dAtA (wrapI64 (i2 + v)) Hlen ltac:(lia) ltac:(lia))
          as (m' & err & -> & more & Hmore).
        exists m', err. split; [reflexivity |]. exists (b :: more).
        rewrite Hmore. cbn [MissedBlocks]. now rewrite <- app_assoc. }
    destruct (skipGenesis_returns (skipn (Z.to_nat i) dAtA))
      as (n & err & -> & Hn).
    { rewrite length_skipn. lia. }
    destruct err as [e |]; [apply Hsame |].
    specialize (Hn eq_refl).
    destruct (Z.ltb_spec n 0); [apply Hsame |].
    destruct (Z.ltb_spec (wrapI64 (i + n)) 0); [apply Hsame |].
    destruct (Z.gtb_spec (wrapI64 (i + n)) (Z.of_nat (List.length dAtA)));
      [apply Hsame |].
    destruct (wrapI64_add_progress i n ltac:(lia) ltac:(lia)) as [H' | H'];
      [lia |].
    apply IH; lia.
Qed.

Lemma ValidatorMissedBlocks_Unmarshal_returns
  (m : ValidatorMissedBlocks) (dAtA : list Z) :
  Z.of_nat (List.length dAtA) < 2 ^ 63 ->
  exists m' err,
    ValidatorMissedBlocks_Unmarshal m dAtA = Returns (m', err) /\
    exists more, MissedBlocks m' = MissedBlocks m ++ more.
Proof.
  intros Hlen. unfold ValidatorMissedBlocks_Unmarshal.
  apply vmb_unmarshalLoop_returns; lia.
Qed.

(** ** [sozGenesis] *)

Lemma lxor_all_ones (a : Z) :
  0 <= a < 2 ^ 64 -> Z.lxor a (2 ^ 64 - 1) = 2 ^ 64 - 1 - a.
Proof.
  intros Ha.
  assert (Hones : 2 ^ 64 - 1 = Z.ones 64) by (rewrite Z.ones_equiv; lia).
  assert (E : Z.lxor a (Z.ones 64) = Z.land (Z.lnot a) (Z.ones 64)).
  { apply Z.bits_inj'. intros n Hn.
    rewrite Z.lxor_spec, Z.land_spec, Z.lnot_spec by assumption.
    destruct (Z_lt_le_dec n 64) as [Hlow | Hhigh].
    - rewrite Z.ones_spec_low by lia.
      now rewrite xorb_true_r, andb_true_r.
    - rewrite Z.ones_spec_high by lia.
      rewrite <- (Z.mod_small a (2 ^ 64)) by assumption.
      rewrite Z.mod_pow2_bits_high by lia. reflexivity. }
  rewrite Hones at 1. rewrite E, Z.land_ones by lia.
  unfold Z.lnot.
  replace (Z.pred (- a)) with (2 ^ 64 - 1 - a + (-1) * 2 ^ 64) by lia.
  rewrite Z_mod_plus_full. apply Z.mod_small. lia.
Qed.

Lemma sozGenesis_zigzag (v : Z) :
  - 2 ^ 63 <= v < 2 ^ 63 ->
  sozGenesis (wrapU64 v) = sovGenesis (if v <? 0 then - 2 * v - 1 else 2 * v).
Proof.
  intros Hv. unfold sozGenesis.
  assert (H64 : 2 ^ 64 = 2 * 2 ^ 63) by reflexivity.
  rewrite wrapI64_wrapU64 by assumption.
  rewrite Z.shiftr_div_pow2, Z.shiftl_mul_pow2 by lia.
  change (2 ^ 1) with 2.
  destruct (Z.ltb_spec v 0) as [Hneg | Hpos].
  - assert (Hx : wrapU64 v = v + 2 ^ 64).
    { unfold wrapU64.
      replace v with (v + 2 ^ 64 + (-1) * 2 ^ 64) at 1 by lia.
      rewrite Z_mod_plus_full. apply Z.mod_small. lia. }
    assert (Hd : v / 2 ^ 63 = -1).
    { symmetry. apply Z.div_unique with (r := v + 2 ^ 63); lia. }
    rewrite Hx, Hd.
    assert (Hs : wrapU64 ((v + 2 ^ 64) * 2) = 2 * v + 2 ^ 64).
    { unfold wrapU64.
      replace ((v + 2 ^ 64) * 2) with (2 * v + 2 ^ 64 + 1 * 2 ^ 64) by lia.
      rewrite Z_mod_plus_full. apply Z.mod_small. lia. }
    rewrite Hs.
    assert (Hm : wrapU64 (-1) = 2 ^ 64 - 1) by reflexivity.
    rewrite Hm, lxor_all_ones by lia.
    f_equal. rewrite wrapU64_small by lia. lia.
  - assert (Hd : v / 2 ^ 63 = 0) by (apply Z.div_small; lia).
    rewrite (wrapU64_small v) by lia.
    rewrite Hd. change (wrapU64 0) with 0. rewrite Z.lxor_0_r.
    rewrite (wrapU64_small (v * 2)) by lia.
    rewrite (wrapU64_small (v * 2)) by lia.
    f_equal. lia.
Qed.

Lemma sovGenesis_negative (v : Z) :
  - 2 ^ 63 <= v < 0 -> sovGenesis (wrapU64 v) = 10.
Proof.
  intros Hv.
  assert (H64 : 2 ^ 64 = 2 * 2 ^ 63) by reflexivity.
  assert (Hx : wrapU64 v = v + 2 ^ 64).
  { unfold wrapU64.
    replace v with (v + 2 ^ 64 + (-1) * 2 ^ 64) at 1 by lia.
    rewrite Z_mod_plus_full. apply Z.mod_small. lia. }
  rewrite Hx, sovGenesis_log2 by lia.
  assert (Hl : Z.log2 (v + 2 ^ 64) = 63).
  { apply Z.log2_unique; [lia |]. change (2 ^ Z.succ 63) with (2 ^ 64). lia. }
  rewrite Hl. reflexivity.
Qed.

(** X22: [Marshal] of a [ValidatorMissedBlocks] does not panic and
    returns exactly [Size()] bytes: field 1 with the address when the
    address is not empty, then field 2 once for each missed block, in
    order, each block in its own wire form behind its length.  On a nil
    receiver it panics. *)
Theorem ValidatorMissedBlocks_Marshal_returns_Size_bytes
  (m : ValidatorMissedBlocks) :
  ValidatorMissedBlocks_Marshal (Some m)
  = Returns (ValidatorMissedBlocks_wire m) /\
  Z.of_nat (List.length (ValidatorMissedBlocks_wire m))
  = ValidatorMissedBlocks_Size (Some m) /\
  ValidatorMissedBlocks_Marshal None = Panics.
Proof.
  split; [| split].
  - apply ValidatorMissedBlocks_Marshal_wire.
  - apply ValidatorMissedBlocks_wire_length.
  - reflexivity.
Qed.

(** X23: [MarshalToSizedBuffer] of a [ValidatorMissedBlocks] writes
    backwards from the end of the buffer: into a buffer whose last
    [Size()] bytes are free it returns [Size()], the wire form stands in
    those bytes, and the bytes in front of them are untouched, although
    every nested call for a block is handed the whole front of the
    buffer. *)
Theorem ValidatorMissedBlocks_MarshalToSizedBuffer_room
  (m : ValidatorMissedBlocks) (pre slot : list Z) :
  Z.of_nat (List.length slot) = ValidatorMissedBlocks_Size (Some m) ->
  ValidatorMissedBlocks_MarshalToSizedBuffer m (pre ++ slot)
  = Returns (ValidatorMissedBlocks_Size (Some m),
             pre ++ ValidatorMissedBlocks_wire m).
Proof.
  apply ValidatorMissedBlocks_MarshalToSizedBuffer_writes.
Qed.

(** X24: round trip.  For a [ValidatorMissedBlocks] whose blocks have
    [int64] indices, [Unmarshal] of the bytes [Marshal] returns succeeds.
    [Unmarshal] does not reset its receiver: into an existing message it
    appends the marshalled blocks to the blocks already there, and
    replaces the address only when the marshalled address is not empty.
    Into the empty message it gives the marshalled message back. *)
Theorem ValidatorMissedBlocks_roundtrip (m : ValidatorMissedBlocks) :
  Forall int64Index (MissedBlocks m) ->
  ValidatorMissedBlocks_Size (Some m) < 2 ^ 63 ->
  exists marshalled,
    ValidatorMissedBlocks_Marshal (Some m) = Returns marshalled /\
    (forall m0,
       ValidatorMissedBlocks_Unmarshal m0 marshalled
       = Returns ({| Address := match Address m with
                                | [] => Address m0
                                | _ => Address m
                                end;
                     MissedBlocks := MissedBlocks m0 ++ MissedBlocks m |},
                  None)) /\
    ValidatorMissedBlocks_Unmarshal {| Address := []; MissedBlocks := [] |}
      marshalled
    = Returns (m, None).
Proof.
  intros Hbs Hsize. rewrite <- ValidatorMissedBlocks_wire_length in Hsize.
  exists (ValidatorMissedBlocks_wire m). split; [| split].
  - apply ValidatorMissedBlocks_Marshal_wire.
  - intros m0. now apply ValidatorMissedBlocks_Unmarshal_wire.
  - rewrite ValidatorMissedBlocks_Unmarshal_wire by assumption.
    unfold merged. cbn [Address MissedBlocks app].
    destruct m as [addr bs]. cbn [Address MissedBlocks].
    destruct addr; reflexivity.
Qed.

(** X25: the bytes of two messages one after the other unmarshal to
    their merge: the blocks of the first and then of the second are
    appended to the receiver's, and the last address that is not empty
    wins. *)
Theorem ValidatorMissedBlocks_Unmarshal_concatenation
  (m0 m1 m2 : ValidatorMissedBlocks) :
  Forall int64Index (MissedBlocks m1) ->
  Forall int64Index (MissedBlocks m2) ->
  ValidatorMissedBlocks_Size (Some m1) + ValidatorMissedBlocks_Size (Some m2)
    < 2 ^ 63 ->
  ValidatorMissedBlocks_Unmarshal m0
    (ValidatorMissedBlocks_wire m1 ++ ValidatorMissedBlocks_wire m2)
  = Returns ({| Address := match Address m2 with
                           | [] => match Address m1 with
                                   | [] => Address m0
                                   | _ => Address m1
                                   end
                           | _ => Address m2
                           end;
                MissedBlocks := (MissedBlocks m0 ++ MissedBlocks m1)
                                ++ MissedBlocks m2 |}, None).
Proof.
  intros H1 H2 Hsize.
  rewrite <- !ValidatorMissedBlocks_wire_length in Hsize.
  apply ValidatorMissedBlocks_Unmarshal_concat; try assumption.
  rewrite length_app. lia.
Qed.

(** X26: [Unmarshal] is not all or nothing.  When the payload of a
    field 2 does not unmarshal as a [MissedBlock], [Unmarshal] returns
    the error of the nested call; the fields in front of it have been
    merged into the receiver, and the block that failed has been
    appended to the receiver's blocks, as far as the nested call filled
    it. *)
Theorem ValidatorMissedBlocks_Unmarshal_keeps_failed_block
  (m0 m : ValidatorMissedBlocks) (payload rest : list Z)
  (e : MissedBlock) (err : UnmarshalError) :
  Forall int64Index (MissedBlocks m) ->
  Z.of_nat (List.length (ValidatorMissedBlocks_wire m
                         ++ delimited 18 payload ++ rest)) < 2 ^ 63 ->
  MissedBlock_Unmarshal {| Index := 0; Missed := false |} payload
  = Returns (e, Some err) ->
  ValidatorMissedBlocks_Unmarshal m0
    (ValidatorMissedBlocks_wire m ++ delimited 18 payload ++ rest)
  = Returns ({| Address := match Address m with
                           | [] => Address m0
                           | _ => Address m
                           end;
                MissedBlocks := (MissedBlocks m0 ++ MissedBlocks m) ++ [e] |},
             Some err).
Proof.
  intros Hbs Hbound Hnested.
  now apply ValidatorMissedBlocks_Unmarshal_bad_block.
Qed.

(** X27: [Unmarshal] of a [ValidatorMissedBlocks] returns on every input
    (of a length that fits an [int]), with or without an error, and in
    both cases the receiver's blocks are still there, in front of any
    blocks it appended. *)
Theorem ValidatorMissedBlocks_Unmarshal_returns_and_appends
  (m : ValidatorMissedBlocks) (dAtA : list Z) :
  Z.of_nat (List.length dAtA) < 2 ^ 63 ->
  exists m' err,
    ValidatorMissedBlocks_Unmarshal m dAtA = Returns (m', err) /\
    exists more, MissedBlocks m' = MissedBlocks m ++ more.
Proof.
  apply ValidatorMissedBlocks_Unmarshal_returns.
Qed.

(** X28: [sozGenesis] of an [int64] taken as a [uint64] is the varint
    size of its zigzag form, [2v] for [v >= 0] and [-2v-1] for [v < 0]:
    one byte for every [v] from -64 to 63, where [sovGenesis] takes ten
    bytes for every negative [v]. *)
Theorem sozGenesis_zigzag_size (v : Z) :
  - 2 ^ 63 <= v < 2 ^ 63 ->
  sozGenesis (wrapU64 v) = sovGenesis (if v <? 0 then - 2 * v - 1 else 2 * v) /\
  (- 64 <= v < 64 -> sozGenesis (wrapU64 v) = 1) /\
  (v < 0 -> sovGenesis (wrapU64 v) = 10).
Proof.
  intros Hv. split; [| split].
  - now apply sozGenesis_zigzag.
  - intros Hsmall. rewrite sozGenesis_zigzag by assumption.
    apply sovGenesis_small. destruct (Z.ltb_spec v 0); lia.
  - intros Hneg. apply sovGenesis_negative. lia.
Qed.

Lemma ValidatorMissedBlocks_MarshalToSizedBuffer_room_witness :
  Z.of_nat (List.length [0; 0; 0; 0; 0; 0; 0; 0; 0; 0])
  = ValidatorMissedBlocks_Size
      (Some {| Address := [97; 98];
               MissedBlocks := [{| Index := 3; Missed := true |}] |}) /\
  ValidatorMissedBlocks_MarshalToSizedBuffer
    {| Address := [97; 98];
       MissedBlocks := [{| Index := 3; Missed := true |}] |}
    ([255; 255] ++ [0; 0; 0; 0; 0; 0; 0; 0; 0; 0])
  = Returns (10, [255; 255] ++ [10; 2; 97; 98; 18; 4; 8; 3; 16; 1]).
Proof.
  assert (H : Z.of_nat (List.length [0; 0; 0; 0; 0; 0; 0; 0; 0; 0])
              = ValidatorMissedBlocks_Size
                  (Some {| Address := [97; 98];
                           MissedBlocks := [{| Index := 3; Missed := true |}] |}))
    by reflexivity.
  split; [exact H |].
  exact (ValidatorMissedBlocks_MarshalToSizedBuffer_room
           {| Address := [97; 98];
              MissedBlocks := [{| Index := 3; Missed := true |}] |}
           [255; 255] [0; 0; 0; 0; 0; 0; 0; 0; 0; 0] H).
Defined.

Lemma ValidatorMissedBlocks_roundtrip_witness :
  Forall int64Index [{| Index := -1; Missed := true |};
                     {| Index := 300; Missed := false |}] /\
  exists marshalled,
    ValidatorMissedBlocks_Marshal
      (Some {| Address := [97; 98];
               MissedBlocks := [{| Index := -1; Missed := true |};
                                {| Index := 300; Missed := false |}] |})
    = Returns marshalled /\
    ValidatorMissedBlocks_Unmarshal {| Address := []; MissedBlocks := [] |}
      marshalled
    = Returns ({| Address := [97; 98];
                  MissedBlocks := [{| Index := -1; Missed := true |};
                                   {| Index := 300; Missed := false |}] |},
               None).
Proof.
  assert (Hb : Forall int64Index [{| Index := -1; Missed := true |};
                                  {| Index := 300; Missed := false |}])
    by (repeat constructor; discriminate).
  split; [exact Hb |].
  destruct (ValidatorMissedBlocks_roundtrip
              {| Address := [97; 98];
                 MissedBlocks := [{| Index := -1; Missed := true |};
                                  {| Index := 300; Missed := false |}] |}
              Hb ltac:(reflexivity))
    as (marshalled & Hm & _ & Hu).
  exists marshalled. split; assumption.
Defined.

Lemma ValidatorMissedBlocks_Unmarshal_concatenation_witness :
  Forall int64Index [{| Index := 7; Missed := false |}] /\
  Forall int64Index [{| Index := 8; Missed := true |}] /\
  ValidatorMissedBlocks_Unmarshal
    {| Address := [99]; MissedBlocks := [{| Index := 1; Missed := true |}] |}
    (ValidatorMissedBlocks_wire
       {| Address := [97];
          MissedBlocks := [{| Index := 7; Missed := false |}] |}
     ++ ValidatorMissedBlocks_wire
          {| Address := [];
             MissedBlocks := [{| Index := 8; Missed := true |}] |})
  = Returns ({| Address := [97];
                MissedBlocks := [{| Index := 1; Missed := true |};
                                 {| Index := 7; Missed := false |};
                                 {| Index := 8; Missed := true |}] |}, None).
Proof.
  assert (H1 : Forall int64Index [{| Index := 7; Missed := false |}])
    by (repeat constructor; discriminate).
  assert (H2 : Forall int64Index [{| Index := 8; Missed := true |}])
    by (repeat constructor; discriminate).
  split; [exact H1 |]. split; [exact H2 |].
  exact (ValidatorMissedBlocks_Unmarshal_concatenation
           {| Address := [99];
              MissedBlocks := [{| Index := 1; Missed := true |}] |}
           {| Address := [97];
              MissedBlocks := [{| Index := 7; Missed := false |}] |}
           {| Address := [];
              MissedBlocks := [{| Index := 8; Missed := true |}] |}
           H1 H2 ltac:(reflexivity)).
Defined.

Lemma ValidatorMissedBlocks_Unmarshal_keeps_failed_block_witness :
  MissedBlock_Unmarshal {| Index := 0; Missed := false |} [8; 5; 16]
  = Returns ({| Index := 5; Missed := false |}, Some ErrUnexpectedEOF) /\
  ValidatorMissedBlocks_Unmarshal
    {| Address := [99]; MissedBlocks := [] |}
    (ValidatorMissedBlocks_wire
       {| Address := [];
          MissedBlocks := [{| Index := 7; Missed := false |}] |}
     ++ delimited 18 [8; 5; 16] ++ [10; 1; 97])
  = Returns ({| Address := [99];
                MissedBlocks := [{| Index := 7; Missed := false |};
                                 {| Index := 5; Missed := false |}] |},
             Some ErrUnexpectedEOF).
Proof.
  assert (Hn : MissedBlock_Unmarshal {| Index := 0; Missed := false |} [8; 5; 16]
               = Returns ({| Index := 5; Missed := false |},
                          Some ErrUnexpectedEOF))
    by reflexivity.
  split; [exact Hn |].
  exact (ValidatorMissedBlocks_Unmarshal_keeps_failed_block
           {| Address := [99]; MissedBlocks := [] |}
           {| Address := [];
              MissedBlocks := [{| Index := 7; Missed := false |}] |}
           [8; 5; 16] [10; 1; 97]
           {| Index := 5; Missed := false |} ErrUnexpectedEOF
           ltac:(repeat constructor; discriminate) ltac:(reflexivity) Hn).
Defined.

Lemma ValidatorMissedBlocks_Unmarshal_returns_and_appends_witness :
  Z.of_nat (List.length [18; 2; 8; 5; 10; 9]) < 2 ^ 63 /\
  exists m' err,
    ValidatorMissedBlocks_Unmarshal
      {| Address := []; MissedBlocks := [{| Index := 1; Missed := true |}] |}
      [18; 2; 8; 5; 10; 9]
    = Returns (m', err) /\
    exists more, MissedBlocks m' = [{| Index := 1; Missed := true |}] ++ more.
Proof.
  assert (H : Z.of_nat (List.length [18; 2; 8; 5; 10; 9]) < 2 ^ 63)
    by reflexivity.
  split; [exact H |].
  exact (ValidatorMissedBlocks_Unmarshal_returns_and_appends
           {| Address := []; MissedBlocks := [{| Index := 1; Missed := true |}] |}
           [18; 2; 8; 5; 10; 9] H).
Defined.

Lemma sozGenesis_zigzag_size_witness :
  - 2 ^ 63 <= -3 < 2 ^ 63 /\
  sozGenesis (wrapU64 (-3)) = sovGenesis 5 /\
  sozGenesis (wrapU64 (-3)) = 1 /\
  sovGenesis (wrapU64 (-3)) = 10.
Proof.
  assert (H : - 2 ^ 63 <= -3 < 2 ^ 63) by (split; [discriminate | reflexivity]).
  split; [exact H |].
  destruct (sozGenesis_zigzag_size (-3) H) as (Hz & Hsmall & Hneg).
  split; [exact Hz |]. split.
  - apply Hsmall. split; [discriminate | reflexivity].
  - apply Hneg. reflexivity.
Defined.

End GenesisCodec.
